(** * Netfilter manager jobs: policy to iptables/ipset command transcripts

    A shallow embedding of the four jobs of js-zrim-netfilter-manager
    (prepare-netfilter, generic service, docker DNS service,
    sync-blacklist-ips) and of the workflow their [execute] methods share,
    followed by the properties of the emitted command lists.

    Conventions of the embedding:
    - a JavaScript string is a [string]; a template literal is written with
      [++]; a number is an integer ([Z]) and [${n}] prints it in decimal;
    - the mutable [context] object is threaded explicitly: a step maps a
      context to the context it leaves behind and to the settlement of the
      promise it returns;
    - a promise that rejects is [inl error], one that resolves is [inr _];
    - Joi (the validation library) is modelled by its documented behaviour on
      the values a YAML file yields; what Joi decides by looking inside a
      string (IP and URI syntax, text converted to a number or to JSON) is a
      parameter, see [JoiLibrary];
    - the database of sync-blacklist-ips is a parameter, see [DataSource];
    - logging is left out. *)

From Stdlib Require Import String Ascii List ZArith Bool Lia Permutation.
From Stdlib Require Import Numbers.DecimalString.
Import ListNotations.

Local Open Scope string_scope.
Local Open Scope list_scope.

Set Implicit Arguments.
Set Warnings "-register-all".

(* ------------------------------------------------------------------------- *)
(** ** JavaScript values and primitives *)

(** [String.prototype.toLowerCase], on the letters A-Z; every other character
    is left as it is (no character outside A-Z lowercases to a letter of
    "install" or "uninstall", the only strings the result is compared to). *)
Definition toLowerCase_char (c : ascii) : ascii :=
  let n := nat_of_ascii c in
  if (65 <=? n)%nat && (n <=? 90)%nat then ascii_of_nat (n + 32) else c.

Fixpoint toLowerCase (s : string) : string :=
  match s with
  | EmptyString => EmptyString
  | String c r => String (toLowerCase_char c) (toLowerCase r)
  end.

(** A number of the input, as far as the program goes: the jobs and the command
    line never compute with the numbers of a configuration, they check that
    they are numbers and print them in a template literal. A number is held by
    the text [`${n}`] gives it, which tells the numbers apart: "443", "80.5",
    "1e+21". *)
Record JSNumber : Type := { Number_toString : string }.

(** The integer [n] as a number. JS prints an integer in full digits when it is
    below 10^21 in magnitude; [Number_of_Z] is for such integers only, and is
    used on the literals of the schemas and of the examples, on the bytes and
    prefix lengths of the converter and on [Date.now()]. *)
Definition Number_of_Z (n : Z) : JSNumber :=
  {| Number_toString := NilZero.string_of_int (Z.to_int n) |}.

Coercion Number_of_Z : Z >-> JSNumber.
Bind Scope Z_scope with JSNumber.

(** A property that may be missing ([undefined]), [null] or hold a value. *)
Inductive Nullable (A : Type) : Type :=
| Undefined : Nullable A
| Null : Nullable A
| Value : A -> Nullable A.
Arguments Undefined {A}.
Arguments Null {A}.
Arguments Value {A} _.

(** [_.isNil(v)] *)
Definition isNil {A} (v : Nullable A) : bool :=
  match v with Value _ => false | _ => true end.

(** [`${v}`] for a string property that may be missing or null. *)
Definition Nullable_toString (v : Nullable string) : string :=
  match v with
  | Undefined => "undefined"
  | Null => "null"
  | Value s => s
  end.

(** [v || []] for an array property: an array is truthy even when empty. *)
Definition or_empty {A} (v : Nullable (list A)) : list A :=
  match v with Value l => l | _ => [] end.

(** [v || d] for a string property: [undefined] and the empty string are
    falsy. *)
Definition or_string (v : option string) (d : string) : string :=
  match v with
  | Some s => if (s =? "")%string then d else s
  | None => d
  end.

(** The values a configuration file holds once loaded. *)
Inductive JSON : Type :=
| JNull : JSON
| JBool : bool -> JSON
| JNum : JSNumber -> JSON
| JStr : string -> JSON
| JArr : list JSON -> JSON
| JObj : list (string * JSON) -> JSON.

(** [`${v}`] for a value of a configuration: an array prints its elements
    separated by commas, [null] among them as nothing, and an object prints as
    "[object Object]". *)
Fixpoint JSON_toString (v : JSON) : string :=
  match v with
  | JNull => "null"
  | JBool true => "true"
  | JBool false => "false"
  | JNum n => Number_toString n
  | JStr s => s
  | JArr elements =>
      (fix join (l : list JSON) : string :=
         match l with
         | [] => EmptyString
         | e :: r =>
             let text := match e with JNull => EmptyString | _ => JSON_toString e end in
             match r with
             | [] => text
             | _ :: _ => (text ++ "," ++ join r)%string
             end
         end) elements
  | JObj _ => "[object Object]"
  end.

(** The value counts as true in [v || d] and in [if (v)]: all but [null],
    [false], the numbers 0 and NaN and the empty string. *)
Definition truthy (v : JSON) : bool :=
  match v with
  | JNull => false
  | JBool b => b
  | JNum n => negb ((Number_toString n =? "0")%string || (Number_toString n =? "NaN")%string)
  | JStr s => negb (s =? "")%string
  | JArr _ | JObj _ => true
  end.

(** [`${v || d}`] for a property of any type, [None] being [undefined]. *)
Definition or_text (v : option JSON) (d : string) : string :=
  match v with
  | Some j => if truthy j then JSON_toString j else d
  | None => d
  end.

(** [object[key]]: [None] is [undefined]. *)
Fixpoint property (key : string) (fields : list (string * JSON)) : option JSON :=
  match fields with
  | [] => None
  | (k, v) :: r => if (k =? key)%string then Some v else property key r
  end.

(** The property [key] of an object under construction: left out when the
    value is [undefined]. *)
Definition optional_field {A} (key : string) (to : A -> JSON) (v : option A)
  : list (string * JSON) :=
  match v with
  | Some a => [ (key, to a) ]
  | None => []
  end.

Definition nullable_field {A} (key : string) (to : A -> JSON) (v : Nullable A)
  : list (string * JSON) :=
  match v with
  | Undefined => []
  | Null => [ (key, JNull) ]
  | Value a => [ (key, to a) ]
  end.

(* ------------------------------------------------------------------------- *)
(** ** Errors and promises *)

Inductive JobError : Type :=
| IllegalArgumentError (message : string)
| TypeError (message : string)
| DataSourceError (message : string).

Definition Promise (A : Type) : Type := (JobError + A)%type.

(** The two ways [execute] rejects an input, told apart by the message the
    source builds. *)
Definition InvalidDirectionError (e : JobError) : Prop :=
  exists type, e = IllegalArgumentError ("Invalid command " ++ type).

Definition ValidationError (e : JobError) : Prop :=
  exists message, e = IllegalArgumentError ("Invalid configuration: " ++ message).

(* ------------------------------------------------------------------------- *)
(** ** Joi *)

Inductive CidrMode : Type := cidr_required | cidr_optional | cidr_forbidden.

(** What Joi decides from the characters of a string. *)
Class JoiLibrary : Type := {
  (** [Joi.string().ip({cidr: mode})] accepts the text *)
  ip_matches : CidrMode -> string -> bool;
  (** [Joi.string().uri({scheme})] accepts the text *)
  uri_matches : string -> string -> bool;
  (** the number a text is converted to where a number is expected *)
  convert_number : string -> option JSNumber;
  (** the value a JSON text is parsed to where an object or array is expected *)
  convert_json : string -> option JSON
}.

(** A validation fails with a message or yields the validated value. *)
Definition JoiResult (A : Type) : Type := (string + A)%type.

Definition joi_bind {A B} (r : JoiResult A) (k : A -> JoiResult B) : JoiResult B :=
  match r with
  | inl m => inl m
  | inr a => k a
  end.

Declare Scope joi_scope.
Delimit Scope joi_scope with joi.
Notation "x <- r ;; k" := (joi_bind r (fun x => k))
  (at level 61, r at next level, right associativity) : joi_scope.

Section Joi.
Context {joi : JoiLibrary}.
Local Open Scope joi_scope.

(** [Joi.string()]: a string, not empty. *)
Definition Joi_string (v : JSON) : JoiResult string :=
  match v with
  | JStr s => if (s =? "")%string then inl "is not allowed to be empty" else inr s
  | _ => inl "must be a string"
  end.

(** [Joi.string().ip({cidr: mode})] *)
Definition Joi_string_ip (mode : CidrMode) (v : JSON) : JoiResult string :=
  s <- Joi_string v ;;
  if ip_matches mode s then inr s else inl "must be a valid ip address".

(** [Joi.string().uri({scheme})] *)
Definition Joi_string_uri (scheme : string) (v : JSON) : JoiResult string :=
  s <- Joi_string v ;;
  if uri_matches scheme s then inr s else inl "must be a valid uri".

(** [Joi.number()] *)
Definition Joi_number (v : JSON) : JoiResult JSNumber :=
  match v with
  | JNum n => inr n
  | JStr s =>
      match convert_number s with
      | Some n => inr n
      | None => inl "must be a number"
      end
  | _ => inl "must be a number"
  end.

(** [Joi.object()]: the fields of the object. *)
Definition Joi_object (v : JSON) : JoiResult (list (string * JSON)) :=
  match v with
  | JObj fields => inr fields
  | JStr s =>
      match convert_json s with
      | Some (JObj fields) => inr fields
      | _ => inl "must be an object"
      end
  | _ => inl "must be an object"
  end.

(** [Joi.array()]: the elements of the array. *)
Definition Joi_array (v : JSON) : JoiResult (list JSON) :=
  match v with
  | JArr elements => inr elements
  | JStr s =>
      match convert_json s with
      | Some (JArr elements) => inr elements
      | _ => inl "must be an array"
      end
  | _ => inl "must be an array"
  end.

(** [.items(schema)]: every element must match the schema. *)
Fixpoint Joi_items {A} (schema : JSON -> JoiResult A) (elements : list JSON)
  : JoiResult (list A) :=
  match elements with
  | [] => inr []
  | e :: r =>
      a <- schema e ;;
      l <- Joi_items schema r ;;
      inr (a :: l)
  end.

(** [.items(schema.required())]: moreover one element at least must match. *)
Definition Joi_items_required {A} (schema : JSON -> JoiResult A)
  (elements : list JSON) : JoiResult (list A) :=
  match elements with
  | [] => inl "does not contain 1 required value(s)"
  | _ => Joi_items schema elements
  end.

(** A key whose schema is [.required()]. *)
Definition required {A} (schema : JSON -> JoiResult A) (v : option JSON)
  : JoiResult A :=
  match v with
  | None => inl "is required"
  | Some j => schema j
  end.

(** A key that may be left out. *)
Definition optional {A} (schema : JSON -> JoiResult A) (v : option JSON)
  : JoiResult (option A) :=
  match v with
  | None => inr None
  | Some j => a <- schema j ;; inr (Some a)
  end.

(** A key whose schema is [.default(d)]. *)
Definition default {A} (schema : JSON -> JoiResult A) (d : A) (v : option JSON)
  : JoiResult A :=
  match v with
  | None => inr d
  | Some j => schema j
  end.

(** A key that may be left out and whose schema is [.allow(null)]. *)
Definition optional_allow_null {A} (schema : JSON -> JoiResult A) (v : option JSON)
  : JoiResult (Nullable A) :=
  match v with
  | None => inr Undefined
  | Some JNull => inr Null
  | Some j => a <- schema j ;; inr (Value a)
  end.

End Joi.

(* ------------------------------------------------------------------------- *)
(** ** Commands, execution context and workflow *)

Inductive CommandType : Type := iptables_4 | ipset.

(** [SecurityCommand]: [{type, value}] *)
Record SecurityCommand : Type := {
  type : CommandType;
  value : string
}.

Definition asIptables4Command (command : string) : SecurityCommand :=
  {| type := iptables_4; value := command |}.

Definition asIpSetCommand (command : string) : SecurityCommand :=
  {| type := ipset; value := command |}.

(** An item of a [trustedItems] list: [{value, description}], of which only
    [value] is read. *)
Record NetworkItem : Type := { network_value : string }.

(** [context.configuration], of which the jobs read
    [global.network.trustedItems] only ([None]: the path is undefined). *)
Record Configuration : Type := {
  global_network_trustedItems : option (list NetworkItem)
}.

(** [context.configurationJob]: the entry of the job in the configuration file,
    [{name, configuration, ...}]; [chainName] is the property of that name of
    the entry, of whatever type, [None] when the entry has none. *)
Record ConfigurationJob : Type := {
  name : string;
  chainName : option JSON
}.

(** [context.jobConfiguration] holds the policy as loaded until the validation
    step replaces it by the validated one. A context that went through a run
    already holds the validated policy; the validation step of the next run
    validates that object again. *)
Inductive JobConfiguration (C : Type) : Type :=
| Unvalidated (raw : JSON)
| Validated (validated : C).
Arguments Unvalidated {C} raw.
Arguments Validated {C} validated.

Record Commands : Type := {
  install : list SecurityCommand;
  unInstall : list SecurityCommand
}.

(** [BaseJob~ExecutionContext] *)
Record ExecutionContext (C : Type) : Type := {
  jobCommand_type : string;
  configuration : Configuration;
  configurationJob : option ConfigurationJob;
  jobConfiguration : JobConfiguration C;
  rawJobConfiguration : option JSON;
  commands : Commands
}.

(** [BaseJob~ExecutionOnResolve] *)
Record ExecutionOnResolve : Type := {
  securityCommands : list SecurityCommand
}.

Section Workflow.
Variable C : Type.

Definition set_commands (context : ExecutionContext C) (c : Commands)
  : ExecutionContext C :=
  {| jobCommand_type := jobCommand_type context;
     configuration := configuration context;
     configurationJob := configurationJob context;
     jobConfiguration := jobConfiguration context;
     rawJobConfiguration := rawJobConfiguration context;
     commands := c |}.

(** [context.rawJobConfiguration = context.jobConfiguration;
     context.jobConfiguration = configValidated] *)
Definition set_validated (context : ExecutionContext C) (raw : JSON) (validated : C)
  : ExecutionContext C :=
  {| jobCommand_type := jobCommand_type context;
     configuration := configuration context;
     configurationJob := configurationJob context;
     jobConfiguration := Validated validated;
     rawJobConfiguration := Some raw;
     commands := commands context |}.

(** [context.commands.install = _.concat(context.commands.install, i);
     context.commands.unInstall = _.concat(context.commands.unInstall, u)] *)
Definition concat_commands (context : ExecutionContext C)
  (i u : list SecurityCommand) : ExecutionContext C :=
  set_commands context
    {| install := install (commands context) ++ i;
       unInstall := unInstall (commands context) ++ u |}.

(** A step of a workflow: the context it leaves and the promise it returns. *)
Definition Step : Type := ExecutionContext C -> ExecutionContext C * Promise unit.

(** The validation step of every job: [Joi.validate(context.jobConfiguration,
    schema, callback)], whatever [context.jobConfiguration] holds: the policy
    as loaded, or the object a former validation left, [as_object] of the
    validated policy. *)
Definition validate_with (schema : JSON -> JoiResult C) (as_object : C -> JSON) : Step :=
  fun context =>
    match jobConfiguration context with
    | Unvalidated raw =>
        match schema raw with
        | inl message =>
            (context, inl (IllegalArgumentError ("Invalid configuration: " ++ message)))
        | inr configValidated => (set_validated context raw configValidated, inr tt)
        end
    | Validated validated =>
        match schema (as_object validated) with
        | inl message =>
            (context, inl (IllegalArgumentError ("Invalid configuration: " ++ message)))
        | inr configValidated =>
            (set_validated context (as_object validated) configValidated, inr tt)
        end
    end.

(** A generation step reads the validated configuration; [execute] never runs
    one before the validation step, which leaves a validated policy whenever it
    resolves. *)
Definition generate_with
  (generate : ExecutionContext C -> C -> Promise (list SecurityCommand * list SecurityCommand))
  : Step :=
  fun context =>
    match jobConfiguration context with
    | Validated c =>
        match generate context c with
        | inl e => (context, inl e)
        | inr (i, u) => (concat_commands context i u, inr tt)
        end
    | Unvalidated _ =>
        (context, inl (TypeError "the configuration is not validated"))
    end.

(** [workflowPromise = workflowPromise.then(() => step.call(this, context))]
    over the steps: they run in order and the first rejection skips the
    rest. *)
Fixpoint run_steps (steps : list Step) (context : ExecutionContext C)
  : ExecutionContext C * Promise unit :=
  match steps with
  | [] => (context, inr tt)
  | step :: rest =>
      match step context with
      | (context', inr _) => run_steps rest context'
      | (context', inl e) => (context', inl e)
      end
  end.

(** The [.then] that closes the workflow: the install list for the type
    ['install'] exactly, the uninstall list otherwise. *)
Definition response (context : ExecutionContext C) : ExecutionOnResolve :=
  if (jobCommand_type context =? "install")%string
  then {| securityCommands := install (commands context) |}
  else {| securityCommands := unInstall (commands context) |}.

Definition finish (r : ExecutionContext C * Promise unit)
  : ExecutionContext C * Promise ExecutionOnResolve :=
  match r with
  | (context, inr _) => (context, inr (response context))
  | (context, inl e) => (context, inl e)
  end.

(** [_.set(context, 'commands.install', []);
     _.set(context, 'commands.unInstall', [])] *)
Definition reset_commands (context : ExecutionContext C) : ExecutionContext C :=
  set_commands context {| install := []; unInstall := [] |}.

End Workflow.

Arguments set_commands {C} context c.
Arguments set_validated {C} context raw validated.
Arguments concat_commands {C} context i u.
Arguments validate_with {C} schema as_object context.
Arguments generate_with {C} generate context.
Arguments run_steps {C} steps context.
Arguments response {C} context.
Arguments finish {C} r.
Arguments reset_commands {C} context.

(* ------------------------------------------------------------------------- *)
(** ** The job prepare-netfilter (src/lib/jobs/prepare-netfilter.js) *)

Module PrepareNetfilterJob.

(** An item of [network.primaryInterfaces], validated. *)
Record PrimaryInterface : Type := {
  name : string;
  networks : list NetworkItem;
  rules_input_defaultAction : string;
  rules_output_defaultAction : string
}.

Record Network : Type := {
  trustedItems : option (list NetworkItem);
  primaryInterfaces : list PrimaryInterface
}.

(** The validated job configuration. *)
Record Policy : Type := { network : Network }.

Section Schema.
Context {joi : JoiLibrary}.
Local Open Scope joi_scope.

(** [{value: Joi.string().ip({cidr: 'required'}).required(),
      description: Joi.string()}], unknown keys allowed *)
Definition network_item_schema (v : JSON) : JoiResult NetworkItem :=
  fields <- Joi_object v ;;
  val <- required (Joi_string_ip cidr_required) (property "value" fields) ;;
  _ <- optional Joi_string (property "description" fields) ;;
  inr {| network_value := val |}.

(** [{defaultAction: Joi.string().required()}], unknown keys allowed *)
Definition rule_schema (v : JSON) : JoiResult string :=
  fields <- Joi_object v ;;
  required Joi_string (property "defaultAction" fields).

Definition rules_schema (v : JSON) : JoiResult (string * string) :=
  fields <- Joi_object v ;;
  input <- required rule_schema (property "input" fields) ;;
  output <- required rule_schema (property "output" fields) ;;
  inr (input, output).

Definition primary_interface_schema (v : JSON) : JoiResult PrimaryInterface :=
  fields <- Joi_object v ;;
  n <- required Joi_string (property "name" fields) ;;
  nets <- required (fun a => l <- Joi_array a ;; Joi_items_required network_item_schema l)
            (property "networks" fields) ;;
  rules <- required rules_schema (property "rules" fields) ;;
  inr {| name := n;
         networks := nets;
         rules_input_defaultAction := fst rules;
         rules_output_defaultAction := snd rules |}.

Definition network_schema (v : JSON) : JoiResult Network :=
  fields <- Joi_object v ;;
  trusted <- optional (fun a => l <- Joi_array a ;; Joi_items network_item_schema l)
               (property "trustedItems" fields) ;;
  interfaces <- required
                  (fun a => l <- Joi_array a ;; Joi_items_required primary_interface_schema l)
                  (property "primaryInterfaces" fields) ;;
  inr {| trustedItems := trusted; primaryInterfaces := interfaces |}.

(** The schema of [validateConfiguration]. *)
Definition schema (v : JSON) : JoiResult Policy :=
  fields <- Joi_object v ;;
  net <- required network_schema (property "network" fields) ;;
  inr {| network := net |}.

(** The validated policy as the object the validation leaves in the context,
    with the properties the schema names. *)
Definition network_item_object (n : NetworkItem) : JSON :=
  JObj [ ("value", JStr (network_value n)) ].

Definition primary_interface_object (i : PrimaryInterface) : JSON :=
  JObj [ ("name", JStr (name i));
         ("networks", JArr (map network_item_object (networks i)));
         ("rules",
          JObj [ ("input", JObj [ ("defaultAction", JStr (rules_input_defaultAction i)) ]);
                 ("output", JObj [ ("defaultAction", JStr (rules_output_defaultAction i)) ]) ]) ].

Definition as_object (policy : Policy) : JSON :=
  JObj [ ("network",
          JObj (optional_field "trustedItems" (fun l => JArr (map network_item_object l))
                  (trustedItems (network policy))
                ++ [ ("primaryInterfaces",
                      JArr (map primary_interface_object
                              (primaryInterfaces (network policy)))) ])) ].

Definition validateConfiguration : Step Policy := validate_with schema as_object.

End Schema.

(** *** generateVitalAccessChain *)

Definition vital_chainName : string := "vital_access_0".

(** The body of the inner [_.each(primaryInterface.networks, ...)]. *)
Definition vital_loopback_rules (chainName : string) (interfaceNetwork : NetworkItem)
  : list SecurityCommand :=
  let v := network_value interfaceNetwork in
  [ asIptables4Command ("-A IN_" ++ chainName ++ " --in-interface lo -s " ++ v ++ " -d " ++ v ++ " -j ACCEPT");
    asIptables4Command ("-A IN_" ++ chainName ++ " --in-interface lo -s " ++ v ++ " -d 127.0.0.0/8 -j ACCEPT");
    asIptables4Command ("-A OUT_" ++ chainName ++ " --out-interface lo -s " ++ v ++ " -d " ++ v ++ " -j ACCEPT");
    asIptables4Command ("-A OUT_" ++ chainName ++ " --out-interface lo -s " ++ v ++ " -d 127.0.0.0/8 -j ACCEPT") ].

(** The body of [_.each(primaryInterfaces, ...)]: DHCP, DNS client, ICMP, NTP,
    root access, known packets, then the loopback rules of each network. *)
Definition vital_interface_rules (chainName : string) (primaryInterface : PrimaryInterface)
  : list SecurityCommand :=
  let n := name primaryInterface in
  [ asIptables4Command ("-A IN_" ++ chainName ++ " --in-interface " ++ n ++ " -p udp --dport 67:68 --sport 67:68 -j ACCEPT");
    asIptables4Command ("-A OUT_" ++ chainName ++ " --out-interface " ++ n ++ " -p udp --dport 67:68 --sport 67:68 -j ACCEPT");
    asIptables4Command ("-A OUT_" ++ chainName ++ " --out-interface " ++ n ++ " -p udp --sport 1024:65535 --dport 53 -m state --state NEW,ESTABLISHED,RELATED -j ACCEPT");
    asIptables4Command ("-A IN_" ++ chainName ++ " --in-interface " ++ n ++ " -p udp --sport 53 --dport 1024:65535 -m state --state ESTABLISHED,RELATED -j ACCEPT");
    asIptables4Command ("-A OUT_" ++ chainName ++ " --out-interface " ++ n ++ " -p tcp --sport 1024:65535 --dport 53 -m state --state NEW,ESTABLISHED,RELATED -j ACCEPT");
    asIptables4Command ("-A IN_" ++ chainName ++ " --in-interface " ++ n ++ " -p tcp --sport 53 --dport 1024:65535 -m state --state ESTABLISHED,RELATED -j ACCEPT");
    asIptables4Command ("-A OUT_" ++ chainName ++ " -p icmp --in-interface " ++ n ++ " -d 0.0.0.0/0 -m state --state NEW,ESTABLISHED,RELATED -j ACCEPT");
    asIptables4Command ("-A IN_" ++ chainName ++ " -p icmp --out-interface " ++ n ++ " -s 0.0.0.0/0 -m state --state ESTABLISHED,RELATED -j ACCEPT");
    asIptables4Command ("-A IN_" ++ chainName ++ " -p icmp --icmp-type 8 --in-interface " ++ n ++ " -s 0.0.0.0/0 -m state --state NEW,ESTABLISHED,RELATED -j ACCEPT");
    asIptables4Command ("-A OUT_" ++ chainName ++ " -p icmp --out-interface " ++ n ++ " -d 0.0.0.0/0 -m state --state ESTABLISHED,RELATED -j ACCEPT");
    asIptables4Command ("-A OUT_" ++ chainName ++ " --out-interface " ++ n ++ " -p udp --sport 1024:65535 --dport 123 -j ACCEPT");
    asIptables4Command ("-A IN_" ++ chainName ++ " --in-interface " ++ n ++ " -p udp --sport 123 --dport 1024:65535 -m state --state ESTABLISHED,RELATED -j ACCEPT");
    asIptables4Command ("-A OUT_" ++ chainName ++ " --out-interface " ++ n ++ " -m owner --uid-owner 0 -j ACCEPT");
    asIptables4Command ("-A IN_" ++ chainName ++ " --in-interface " ++ n ++ " -m state --state ESTABLISHED,RELATED -j ACCEPT") ]
  ++ flat_map (vital_loopback_rules chainName) (networks primaryInterface).

Definition vital_install (policy : Policy) : list SecurityCommand :=
  let chainName := vital_chainName in
  [ asIptables4Command ("-N IN_" ++ chainName);
    asIptables4Command ("-N OUT_" ++ chainName) ]
  ++ flat_map (vital_interface_rules chainName) (primaryInterfaces (network policy))
  ++ [ asIptables4Command ("-A IN_" ++ chainName ++ " ! --in-interface lo -d 127.0.0.0/8 -j REJECT");
       asIptables4Command ("-A OUT_" ++ chainName ++ " --out-interface lo -d 127.0.0.0/8 -j ACCEPT");
       asIptables4Command ("-A IN_" ++ chainName ++ " -j RETURN");
       asIptables4Command ("-A OUT_" ++ chainName ++ " -j RETURN") ].

Definition vital_unInstall : list SecurityCommand :=
  let chainName := vital_chainName in
  [ asIptables4Command ("-F IN_" ++ chainName);
    asIptables4Command ("-X IN_" ++ chainName);
    asIptables4Command ("-F OUT_" ++ chainName);
    asIptables4Command ("-X OUT_" ++ chainName) ].

Definition generateVitalAccessChain : Step Policy :=
  generate_with (fun _ policy => inr (vital_install policy, vital_unInstall)).

(** *** generateBlockNetworkChain *)

Definition block_chainName : string := "block_access_0".

Definition block_install : list SecurityCommand :=
  let chainName := block_chainName in
  [ asIptables4Command ("-N IN_" ++ chainName);
    asIpSetCommand "-! create block_net hash:net";
    asIptables4Command ("-A IN_" ++ chainName ++ " -j DROP") ].

Definition block_unInstall : list SecurityCommand :=
  let chainName := block_chainName in
  [ asIptables4Command ("-F IN_" ++ chainName);
    asIptables4Command ("-X IN_" ++ chainName);
    asIpSetCommand "-! destroy block_net" ].

Definition generateBlockNetworkChain : Step Policy :=
  generate_with (fun _ _ => inr (block_install, block_unInstall)).

(** *** generateServiceAccessChain *)

Definition services_chainName : string := "services_access_0".

Definition services_install : list SecurityCommand :=
  let chainName := services_chainName in
  [ asIptables4Command ("-N IN_" ++ chainName);
    asIptables4Command ("-A IN_" ++ chainName ++ " -j RETURN");
    asIptables4Command ("-N OUT_" ++ chainName);
    asIptables4Command ("-A OUT_" ++ chainName ++ " -j RETURN") ].

Definition services_unInstall : list SecurityCommand :=
  let chainName := services_chainName in
  [ asIptables4Command ("-F IN_" ++ chainName);
    asIptables4Command ("-X IN_" ++ chainName);
    asIptables4Command ("-F OUT_" ++ chainName);
    asIptables4Command ("-X OUT_" ++ chainName) ].

Definition generateServiceAccessChain : Step Policy :=
  generate_with (fun _ _ => inr (services_install, services_unInstall)).

(** *** generateTrustedNetworkChain *)

Definition trusted_chainName : string := "trusted_access_0".

(** [_.get(object, path, [])] *)
Definition get_or_empty {A} (v : option (list A)) : list A :=
  match v with Some l => l | None => [] end.

(** [trustedNetworks = _.concat([], globalTrustedNetworks, jobTrustedNetworks)] *)
Definition trustedNetworks (context : ExecutionContext Policy) (policy : Policy)
  : list NetworkItem :=
  let globalTrustedNetworks := get_or_empty (global_network_trustedItems (configuration context)) in
  let jobTrustedNetworks := get_or_empty (trustedItems (network policy)) in
  [] ++ globalTrustedNetworks ++ jobTrustedNetworks.

Definition trusted_add (net : NetworkItem) : SecurityCommand :=
  asIpSetCommand ("-! add trusted_net " ++ network_value net).

Definition trusted_install (context : ExecutionContext Policy) (policy : Policy)
  : list SecurityCommand :=
  let chainName := trusted_chainName in
  [ asIpSetCommand "-! create trusted_net hash:net" ]
  ++ map trusted_add (trustedNetworks context policy)
  ++ [ asIptables4Command ("-N IN_" ++ chainName);
       asIptables4Command ("-A IN_" ++ chainName ++ " -m set --match-set trusted_net src -j ACCEPT");
       asIptables4Command ("-A IN_" ++ chainName ++ " -j RETURN");
       asIptables4Command ("-N OUT_" ++ chainName);
       asIptables4Command ("-A OUT_" ++ chainName ++ " -m set --match-set trusted_net dst -j ACCEPT");
       asIptables4Command ("-A OUT_" ++ chainName ++ " -j RETURN") ].

Definition trusted_unInstall : list SecurityCommand :=
  let chainName := trusted_chainName in
  [ asIptables4Command ("-F IN_" ++ chainName);
    asIptables4Command ("-X IN_" ++ chainName);
    asIptables4Command ("-F OUT_" ++ chainName);
    asIptables4Command ("-X OUT_" ++ chainName);
    asIpSetCommand "-! destroy trusted_net" ].

Definition generateTrustedNetworkChain : Step Policy :=
  generate_with (fun context policy => inr (trusted_install context policy, trusted_unInstall)).

(** *** generateRootAccessChains *)

Definition input_default_install (primaryInterface : PrimaryInterface) : SecurityCommand :=
  asIptables4Command ("-A INPUT --in-interface " ++ name primaryInterface
                      ++ " -j " ++ rules_input_defaultAction primaryInterface).

Definition input_default_unInstall (primaryInterface : PrimaryInterface) : SecurityCommand :=
  asIptables4Command ("-D INPUT --in-interface " ++ name primaryInterface
                      ++ " -j " ++ rules_input_defaultAction primaryInterface).

Definition root_install (policy : Policy) : list SecurityCommand :=
  [ asIptables4Command "-I INPUT 1 -j IN_trusted_access_0";
    asIptables4Command "-I INPUT 2 -j IN_vital_access_0";
    asIptables4Command "-I INPUT 3 -m set --match-set block_net src -j IN_block_access_0";
    asIptables4Command "-I INPUT 4 -j IN_services_access_0" ]
  ++ map input_default_install (primaryInterfaces (network policy))
  ++ [ asIptables4Command "-I OUTPUT 1 -j OUT_trusted_access_0";
       asIptables4Command "-I OUTPUT 2 -j OUT_vital_access_0";
       asIptables4Command "-I OUTPUT 3 -j OUT_services_access_0" ].

Definition root_unInstall (policy : Policy) : list SecurityCommand :=
  [ asIptables4Command "-D INPUT -j IN_trusted_access_0";
    asIptables4Command "-D INPUT -j IN_vital_access_0";
    asIptables4Command "-D INPUT -m set --match-set block_net src -j IN_block_access_0";
    asIptables4Command "-D INPUT -j IN_services_access_0" ]
  ++ map input_default_unInstall (primaryInterfaces (network policy))
  ++ [ asIptables4Command "-D OUTPUT -j OUT_trusted_access_0";
       asIptables4Command "-D OUTPUT -j OUT_vital_access_0";
       asIptables4Command "-D OUTPUT -j OUT_services_access_0" ].

Definition generateRootAccessChains : Step Policy :=
  generate_with (fun _ policy => inr (root_install policy, root_unInstall policy)).

(** *** execute *)

Section Execute.
Context {joi : JoiLibrary}.

Definition execute (context : ExecutionContext Policy)
  : ExecutionContext Policy * Promise ExecutionOnResolve :=
  let context := reset_commands context in
  let steps := [ validateConfiguration ] in
  if (toLowerCase (jobCommand_type context) =? "install")%string then
    finish (run_steps (steps ++ [ generateVitalAccessChain;
                                  generateBlockNetworkChain;
                                  generateServiceAccessChain;
                                  generateTrustedNetworkChain;
                                  generateRootAccessChains ]) context)
  else if (toLowerCase (jobCommand_type context) =? "uninstall")%string then
    finish (run_steps (steps ++ [ generateRootAccessChains;
                                  generateTrustedNetworkChain;
                                  generateServiceAccessChain;
                                  generateBlockNetworkChain;
                                  generateVitalAccessChain ]) context)
  else
    (context, inl (IllegalArgumentError ("Invalid command " ++ jobCommand_type context))).

End Execute.

End PrepareNetfilterJob.

(* ------------------------------------------------------------------------- *)
(** ** The generic service job (src/unnamed/part_000) *)

Module GenericServiceJob.

(** An item of [network.items], validated. *)
Record Item : Type := {
  portNumber : JSNumber;
  sourceNetworks : Nullable (list string);
  protocol : string;
  destinationNetwork : Nullable string
}.

(** The validated job configuration: [{chainName, network: {items}}]. *)
Record Policy : Type := {
  policy_chainName : option string;
  network_items : list Item
}.

Section Schema.
Context {joi : JoiLibrary}.
Local Open Scope joi_scope.

Definition item_schema (v : JSON) : JoiResult Item :=
  fields <- Joi_object v ;;
  port <- required Joi_number (property "portNumber" fields) ;;
  sources <- optional_allow_null
               (fun a => l <- Joi_array a ;; Joi_items (Joi_string_ip cidr_optional) l)
               (property "sourceNetworks" fields) ;;
  proto <- required Joi_string (property "protocol" fields) ;;
  destination <- optional_allow_null (Joi_string_ip cidr_optional)
                   (property "destinationNetwork" fields) ;;
  inr {| portNumber := port;
         sourceNetworks := sources;
         protocol := proto;
         destinationNetwork := destination |}.

Definition network_schema (v : JSON) : JoiResult (list Item) :=
  fields <- Joi_object v ;;
  required (fun a => l <- Joi_array a ;; Joi_items item_schema l) (property "items" fields).

(** The schema of [_validateConfiguration]. *)
Definition schema (v : JSON) : JoiResult Policy :=
  fields <- Joi_object v ;;
  chain <- optional Joi_string (property "chainName" fields) ;;
  items <- required network_schema (property "network" fields) ;;
  inr {| policy_chainName := chain; network_items := items |}.

(** The validated policy as the object the validation leaves in the context,
    with the properties the schema names. *)
Definition item_object (item : Item) : JSON :=
  JObj ([ ("portNumber", JNum (portNumber item)) ]
        ++ nullable_field "sourceNetworks" (fun l => JArr (map JStr l)) (sourceNetworks item)
        ++ [ ("protocol", JStr (protocol item)) ]
        ++ nullable_field "destinationNetwork" JStr (destinationNetwork item)).

Definition as_object (policy : Policy) : JSON :=
  JObj (optional_field "chainName" JStr (policy_chainName policy)
        ++ [ ("network", JObj [ ("items", JArr (map item_object (network_items policy))) ]) ]).

Definition _validateConfiguration : Step Policy := validate_with schema as_object.

End Schema.

Definition _getServiceChainName : string := "genericServiceName".

(** The body of [_.each(networkItems, ...)]. *)
Definition item_rules (chainName : string) (item : Item) : list SecurityCommand :=
  let sources := or_empty (sourceNetworks item) in
  let destinationNetworkPart :=
    if isNil (destinationNetwork item) then ""%string
    else (" -d " ++ Nullable_toString (destinationNetwork item))%string in
  let protocolPortNumberPart :=
    (" -p " ++ protocol item ++ " --sport 1024:65535 --dport "
     ++ Number_toString (portNumber item))%string in
  if (length sources =? 0)%nat then
    [ asIptables4Command ("-A IN_" ++ chainName ++ " " ++ destinationNetworkPart
                          ++ protocolPortNumberPart ++ " -j ACCEPT") ]
  else
    map (fun n => asIptables4Command ("-A IN_" ++ chainName ++ " -s " ++ n ++ " "
                                      ++ destinationNetworkPart ++ protocolPortNumberPart
                                      ++ " -j ACCEPT")) sources.

Definition rules_install (chainName : string) (policy : Policy) : list SecurityCommand :=
  [ asIptables4Command ("-N IN_" ++ chainName);
    asIptables4Command ("-N OUT_" ++ chainName) ]
  ++ flat_map (item_rules chainName) (network_items policy)
  ++ [ asIptables4Command ("-A IN_" ++ chainName ++ " -j RETURN");
       asIptables4Command ("-A OUT_" ++ chainName ++ " -j RETURN");
       asIptables4Command ("-I IN_services_access_0 1 -j IN_" ++ chainName);
       asIptables4Command ("-I OUT_services_access_0 1 -j OUT_" ++ chainName) ].

Definition rules_unInstall (chainName : string) : list SecurityCommand :=
  [ asIptables4Command ("-D IN_services_access_0 -j IN_" ++ chainName);
    asIptables4Command ("-D OUT_services_access_0 -j OUT_" ++ chainName);
    asIptables4Command ("-F IN_" ++ chainName);
    asIptables4Command ("-X IN_" ++ chainName);
    asIptables4Command ("-F OUT_" ++ chainName);
    asIptables4Command ("-X OUT_" ++ chainName) ].

(** [const chainName = context.configurationJob.chainName ||
     this._getServiceChainName()]: the name is read from the entry of the job,
    [context.configurationJob], not from [context.jobConfiguration]; reading it
    throws when the context has no such entry. *)
Definition service_chainName (context : ExecutionContext Policy) : Promise string :=
  match configurationJob context with
  | None => inl (TypeError "Cannot read property 'chainName' of undefined")
  | Some entry => inr (or_text (chainName entry) _getServiceChainName)
  end.

Definition _generateRules : Step Policy :=
  generate_with (fun context policy =>
    match service_chainName context with
    | inl e => inl e
    | inr chain => inr (rules_install chain policy, rules_unInstall chain)
    end).

Section Execute.
Context {joi : JoiLibrary}.

Definition execute (context : ExecutionContext Policy)
  : ExecutionContext Policy * Promise ExecutionOnResolve :=
  let context := reset_commands context in
  let steps := [ _validateConfiguration; _generateRules ] in
  if negb (existsb (String.eqb (toLowerCase (jobCommand_type context))) ["install"; "uninstall"])
  then (context, inl (IllegalArgumentError ("Invalid command " ++ jobCommand_type context)))
  else finish (run_steps steps context).

End Execute.

End GenericServiceJob.

(* ------------------------------------------------------------------------- *)
(** ** The docker DNS service job (src/unnamed/part_001) *)

Module DockerDnsServiceJob.

(** An item of [network.items], validated. *)
Record Item : Type := {
  sourcePortNumber : JSNumber;
  sourceLinkName : string;
  sourceIpAddress : string;
  destinationPortNumber : JSNumber;
  destinationIpAddress : Nullable string
}.

(** The validated job configuration: [{chainName, network: {items}}]. *)
Record Policy : Type := {
  policy_chainName : option string;
  network_items : list Item
}.

Section Schema.
Context {joi : JoiLibrary}.
Local Open Scope joi_scope.

Definition item_schema (v : JSON) : JoiResult Item :=
  fields <- Joi_object v ;;
  sport <- default Joi_number 53%Z (property "sourcePortNumber" fields) ;;
  link <- required Joi_string (property "sourceLinkName" fields) ;;
  sip <- required (Joi_string_ip cidr_forbidden) (property "sourceIpAddress" fields) ;;
  dport <- required Joi_number (property "destinationPortNumber" fields) ;;
  dip <- optional_allow_null (Joi_string_ip cidr_forbidden)
           (property "destinationIpAddress" fields) ;;
  inr {| sourcePortNumber := sport;
         sourceLinkName := link;
         sourceIpAddress := sip;
         destinationPortNumber := dport;
         destinationIpAddress := dip |}.

Definition network_schema (v : JSON) : JoiResult (list Item) :=
  fields <- Joi_object v ;;
  required (fun a => l <- Joi_array a ;; Joi_items item_schema l) (property "items" fields).

(** The schema of [_validateConfiguration]. *)
Definition schema (v : JSON) : JoiResult Policy :=
  fields <- Joi_object v ;;
  chain <- optional Joi_string (property "chainName" fields) ;;
  items <- required network_schema (property "network" fields) ;;
  inr {| policy_chainName := chain; network_items := items |}.

(** The validated policy as the object the validation leaves in the context,
    with the properties the schema names. *)
Definition item_object (item : Item) : JSON :=
  JObj ([ ("sourcePortNumber", JNum (sourcePortNumber item));
         ("sourceLinkName", JStr (sourceLinkName item));
         ("sourceIpAddress", JStr (sourceIpAddress item));
         ("destinationPortNumber", JNum (destinationPortNumber item)) ]
        ++ nullable_field "destinationIpAddress" JStr (destinationIpAddress item)).

Definition as_object (policy : Policy) : JSON :=
  JObj (optional_field "chainName" JStr (policy_chainName policy)
        ++ [ ("network", JObj [ ("items", JArr (map item_object (network_items policy))) ]) ]).

Definition _validateConfiguration : Step Policy := validate_with schema as_object.

End Schema.

Definition _getServiceChainName : string := "dockerDnsService".

(** What an item appends to [installCommands]. *)
Definition item_install (chainName : string) (item : Item) : list SecurityCommand :=
  let sport := Number_toString (sourcePortNumber item) in
  let dport := Number_toString (destinationPortNumber item) in
  let dip := Nullable_toString (destinationIpAddress item) in
  [ asIptables4Command ("-I PREROUTING 1 -t nat -i " ++ sourceLinkName item ++ " -p tcp -d " ++ sourceIpAddress item ++ " --dport " ++ sport ++ " -j DNAT --to " ++ dip ++ ":" ++ dport);
    asIptables4Command ("-I PREROUTING 1 -t nat -i " ++ sourceLinkName item ++ " -p udp -d " ++ sourceIpAddress item ++ " --dport " ++ sport ++ " -j DNAT --to " ++ dip ++ ":" ++ dport);
    asIptables4Command ("-I FORWARD 1 -p tcp -d " ++ dip ++ " --dport " ++ dport ++ " -j ACCEPT");
    asIptables4Command ("-I FORWARD 1 -p udp -d " ++ dip ++ " --dport " ++ dport ++ " -j ACCEPT");
    asIptables4Command ("-A IN_dns_" ++ chainName ++ " -p tcp -d " ++ sourceIpAddress item ++ " --dport " ++ sport ++ " -j ACCEPT");
    asIptables4Command ("-A IN_dns_" ++ chainName ++ " -p udp -d " ++ sourceIpAddress item ++ " --dport " ++ sport ++ " -j ACCEPT") ].

(** What an item appends to [unInstallCommands]. *)
Definition item_unInstall (item : Item) : list SecurityCommand :=
  let sport := Number_toString (sourcePortNumber item) in
  let dport := Number_toString (destinationPortNumber item) in
  let dip := Nullable_toString (destinationIpAddress item) in
  [ asIptables4Command ("-D PREROUTING -t nat -i " ++ sourceLinkName item ++ " -p tcp -d " ++ sourceIpAddress item ++ " --dport " ++ sport ++ " -j DNAT --to " ++ dip ++ ":" ++ dport);
    asIptables4Command ("-D PREROUTING -t nat -i " ++ sourceLinkName item ++ " -p udp -d " ++ sourceIpAddress item ++ " --dport " ++ sport ++ " -j DNAT --to " ++ dip ++ ":" ++ dport);
    asIptables4Command ("-D FORWARD -p tcp -d " ++ dip ++ " --dport " ++ dport ++ " -j ACCEPT");
    asIptables4Command ("-D FORWARD -p udp -d " ++ dip ++ " --dport " ++ dport ++ " -j ACCEPT") ].

Definition rules_install (chainName : string) (policy : Policy) : list SecurityCommand :=
  [ asIptables4Command ("-N IN_dns_" ++ chainName);
    asIptables4Command ("-N OUT_dns_" ++ chainName) ]
  ++ flat_map (item_install chainName) (network_items policy)
  ++ [ asIptables4Command ("-A IN_dns_" ++ chainName ++ " -j RETURN");
       asIptables4Command ("-A OUT_dns_" ++ chainName ++ " -j RETURN");
       asIptables4Command ("-I IN_services_access_0 1 -j IN_dns_" ++ chainName);
       asIptables4Command ("-I OUT_services_access_0 1 -j OUT_dns_" ++ chainName) ].

Definition rules_unInstall (chainName : string) (policy : Policy) : list SecurityCommand :=
  [ asIptables4Command ("-D IN_services_access_0 -j IN_dns_" ++ chainName);
    asIptables4Command ("-D OUT_services_access_0 -j OUT_dns_" ++ chainName);
    asIptables4Command ("-F IN_dns_" ++ chainName);
    asIptables4Command ("-X IN_dns_" ++ chainName);
    asIptables4Command ("-F OUT_dns_" ++ chainName);
    asIptables4Command ("-X OUT_dns_" ++ chainName) ]
  ++ flat_map item_unInstall (network_items policy).

(** [const chainName = context.jobConfiguration.chainName ||
     this._getServiceChainName()] *)
Definition service_chainName (policy : Policy) : string :=
  or_string (policy_chainName policy) _getServiceChainName.

Definition _generateRules : Step Policy :=
  generate_with (fun _ policy =>
    let chain := service_chainName policy in
    inr (rules_install chain policy, rules_unInstall chain policy)).

Section Execute.
Context {joi : JoiLibrary}.

Definition execute (context : ExecutionContext Policy)
  : ExecutionContext Policy * Promise ExecutionOnResolve :=
  let context := reset_commands context in
  let steps := [ _validateConfiguration; _generateRules ] in
  if negb (existsb (String.eqb (toLowerCase (jobCommand_type context))) ["install"; "uninstall"])
  then (context, inl (IllegalArgumentError ("Invalid command " ++ jobCommand_type context)))
  else finish (run_steps steps context).

End Execute.

End DockerDnsServiceJob.

(* ------------------------------------------------------------------------- *)
(** ** The job sync-blacklist-ips (src/lib/jobs/sync-blacklist-ips.js) *)

(** The database behind [pg-promise]: the rows
    [SELECT value FROM security.blacklist_networks WHERE ip_version=4]
    returns on the connection, or the message of the error the connection or
    the query fails with. *)
Class DataSource : Type := {
  query_blacklist_networks : string -> (string + list NetworkItem)%type
}.

Module SynchronizeBlacklistIps.

(** The validated job configuration: [{database: {connectionString}}]. *)
Record Policy : Type := { database_connectionString : string }.

Section Schema.
Context {joi : JoiLibrary}.
Local Open Scope joi_scope.

Definition database_schema (v : JSON) : JoiResult string :=
  fields <- Joi_object v ;;
  required (Joi_string_uri "postgres") (property "connectionString" fields).

(** The schema of [validateConfiguration]. *)
Definition schema (v : JSON) : JoiResult Policy :=
  fields <- Joi_object v ;;
  connection <- required database_schema (property "database" fields) ;;
  inr {| database_connectionString := connection |}.

(** The validated policy as the object the validation leaves in the context. *)
Definition as_object (policy : Policy) : JSON :=
  JObj [ ("database",
          JObj [ ("connectionString", JStr (database_connectionString policy)) ]) ].

Definition validateConfiguration : Step Policy := validate_with schema as_object.

End Schema.

Definition block_add (item : NetworkItem) : SecurityCommand :=
  {| type := ipset; value := "-! add block_net " ++ network_value item |}.

Section Execute.
Context {joi : JoiLibrary} {db : DataSource}.

(** [fetchNetworks]: the lists of the context are replaced, not extended. *)
Definition fetchNetworks : Step Policy :=
  fun context =>
    match jobConfiguration context with
    | Validated policy =>
        match query_blacklist_networks (database_connectionString policy) with
        | inr result =>
            let securityCommands := map block_add result in
            (set_commands context
               {| install := securityCommands;
                  unInstall := [ {| type := ipset; value := "flush block_net" |} ] |},
             inr tt)
        | inl error => (context, inl (DataSourceError error))
        end
    | Unvalidated _ =>
        (context, inl (TypeError "the configuration is not validated"))
    end.

Definition execute (context : ExecutionContext Policy)
  : ExecutionContext Policy * Promise ExecutionOnResolve :=
  let context := reset_commands context in
  let steps := [ validateConfiguration ] in
  if (toLowerCase (jobCommand_type context) =? "install")%string then
    finish (run_steps (steps ++ [ fetchNetworks ]) context)
  else if (toLowerCase (jobCommand_type context) =? "uninstall")%string then
    finish (run_steps (steps ++ [ fetchNetworks ]) context)
  else
    (context, inl (IllegalArgumentError ("Invalid command " ++ jobCommand_type context))).

End Execute.

End SynchronizeBlacklistIps.

(* ------------------------------------------------------------------------- *)
(** ** The converter of country networks (src/lib/bin/country-networks-to-sql.js)

    The two helpers of the conversion step and the network of a range. A
    number is an integer here; the operators [>>] and [&] of JavaScript work
    on its 32-bit signed value. *)

Module CountryNetworksToSql.
Local Open Scope Z_scope.

(** The 32-bit signed integer [>>] and [&] take of a number. *)
Definition ToInt32 (n : Z) : Z := (n + 2 ^ 31) mod 2 ^ 32 - 2 ^ 31.

(** [a >> k] *)
Definition shiftRight (a k : Z) : Z := Z.shiftr (ToInt32 a) (k mod 32).

(** [a & b] *)
Definition bitAnd (a b : Z) : Z := Z.land (ToInt32 a) (ToInt32 b).

(** [intToIpStr] *)
Definition intToIpStr (num : Z) : string :=
  (Number_toString (bitAnd (shiftRight num 24) 255) ++ "."
   ++ Number_toString (bitAnd (shiftRight num 16) 255) ++ "."
   ++ Number_toString (bitAnd (shiftRight num 8) 255) ++ "."
   ++ Number_toString (bitAnd num 255))%string.

(** The loop of [maskToNum], [iterations] rounds from the values [v] and [n]:
    [if (v & 0x1) ++n; else break; v >>= 1]. *)
Fixpoint maskToNum_loop (iterations : nat) (v n : Z) : Z :=
  match iterations with
  | O => n
  | S i => if bitAnd v 1 =? 0 then n else maskToNum_loop i (shiftRight v 1) (n + 1)
  end.

(** [maskToNum] *)
Definition maskToNum (size : Z) : Z := 32 - maskToNum_loop 32 size 0.

(** [range.cidr] of a line whose first two fields are the numbers [from] and
    [to]: [`${intToIpStr(from)}/${maskToNum(to - from)}`]. *)
Definition range_cidr (from to : Z) : string :=
  (intToIpStr from ++ "/" ++ Number_toString (maskToNum (to - from)))%string.

End CountryNetworksToSql.

(* ------------------------------------------------------------------------- *)
(** ** The command line of the jobs (src/lib/bin/generic-main.js)

    The promise chain of the program: the configuration file is loaded and
    validated, the configuration and the job are looked up, the module of the
    job is required and its job run, the commands are printed and applied.
    What the program reads from outside (the file, the modules of the jobs, the
    clock and the file system) is a parameter, see [Host]; what it does to the
    outside is the list of its effects. *)

Module GenericMain.

(** [usageArgs], as [argparse] returns them. *)
Record UsageArgs : Type := {
  configurationId : string;
  configurationFilePath : string;
  action : string;
  jobName : string;
  printRules : bool;
  apply : bool
}.

(** An entry of [jobs], validated: [{name, engine: {name}, configuration}] and
    all the fields of the entry, the unknown ones included. *)
Record Job : Type := {
  job_name : string;
  job_engine_name : string;
  job_configuration : JSON;
  job_fields : list (string * JSON)
}.

(** An entry of [configurations], validated. *)
Record ConfigurationItem : Type := {
  id : string;
  jobs : list Job
}.

(** The validated configuration file. *)
Record MainConfiguration : Type := {
  version : string;
  fileVersion : string;
  global : Configuration;
  configurations : list ConfigurationItem
}.

Section Schema.
Context {joi : JoiLibrary}.
Local Open Scope joi_scope.

(** src/lib/bin/generic-main-config-schema.js *)

Definition trusted_item_schema (v : JSON) : JoiResult NetworkItem :=
  fields <- Joi_object v ;;
  val <- required (Joi_string_ip cidr_required) (property "value" fields) ;;
  _ <- optional Joi_string (property "description" fields) ;;
  inr {| network_value := val |}.

Definition global_network_schema (v : JSON) : JoiResult (option (list NetworkItem)) :=
  fields <- Joi_object v ;;
  optional (fun a => l <- Joi_array a ;; Joi_items trusted_item_schema l)
    (property "trustedItems" fields).

Definition global_schema (v : JSON) : JoiResult (option (list NetworkItem)) :=
  fields <- Joi_object v ;;
  network <- optional global_network_schema (property "network" fields) ;;
  inr (match network with Some (Some l) => Some l | _ => None end).

Definition engine_schema (v : JSON) : JoiResult string :=
  fields <- Joi_object v ;;
  required Joi_string (property "name" fields).

Definition job_schema (v : JSON) : JoiResult Job :=
  fields <- Joi_object v ;;
  n <- required Joi_string (property "name" fields) ;;
  engine <- required engine_schema (property "engine" fields) ;;
  conf <- required Joi_object (property "configuration" fields) ;;
  inr {| job_name := n;
         job_engine_name := engine;
         job_configuration := JObj conf;
         job_fields := fields |}.

Definition configuration_item_schema (v : JSON) : JoiResult ConfigurationItem :=
  fields <- Joi_object v ;;
  i <- required Joi_string (property "id" fields) ;;
  js <- required (fun a => l <- Joi_array a ;; Joi_items job_schema l)
          (property "jobs" fields) ;;
  inr {| id := i; jobs := js |}.

(** [configurationSchema] *)
Definition configurationSchema (v : JSON) : JoiResult MainConfiguration :=
  fields <- Joi_object v ;;
  ver <- required Joi_string (property "version" fields) ;;
  fver <- required Joi_string (property "fileVersion" fields) ;;
  g <- optional global_schema (property "global" fields) ;;
  cs <- required (fun a => l <- Joi_array a ;; Joi_items configuration_item_schema l)
          (property "configurations" fields) ;;
  inr {| version := ver;
         fileVersion := fver;
         global := {| global_network_trustedItems :=
                        match g with Some (Some l) => Some l | _ => None end |};
         configurations := cs |}.

End Schema.

(** What a job reads of the context the program hands to it. *)
Record JobContext : Type := {
  jc_jobCommand_type : string;
  jc_configuration : Configuration;
  jc_configurationJob : Job;
  jc_jobConfiguration : JSON
}.

(** A module of [./../jobs]: [new jobModule.Job()], with the promises of its
    [initialize({})] and of its [execute(context)]. *)
Record JobModule : Type := {
  initialize : Promise unit;
  execute : JobContext -> Promise ExecutionOnResolve
}.

(** The outside of the program. *)
Class Host : Type := {
  (** [fse.readFile(path)] then [yamlParser.safeLoad(data)]: the document, or
      the message of the error of either *)
  loadYaml : string -> (string + JSON)%type;
  (** [require(`./../jobs/${name}`)], [None] when it throws *)
  requireJob : string -> option JobModule;
  (** [Date.now()] and [generateUuid()] at the apply step *)
  now : Z;
  uuid : string;
  (** [fse.outputFile(path, data, {mode: 0o740})]: the message of its error, if
      any *)
  outputFile : string -> string -> option string;
  (** [child_process.exec(path, callback)]: the message of the error given to
      the callback, if any *)
  exec : string -> option string
}.

(** The errors the chain of the program ends on. *)
Inductive MainError : Type :=
| LoadError (message : string)
| ConfigurationError (message : string)
| Error (message : string)
| NotFoundError (message : string)
| JobRejection (e : JobError)
| ApplyError (message : string).

(** How the chain ends: all its steps resolved; a step rejected and the final
    [catch] wrote the failure and called [process.exit(1)]; or a step returned
    a promise that is never settled, and nothing after it runs. *)
Inductive Status : Type :=
| Completed
| Failed (e : MainError)
| Pending.

(** What the program asks of the outside (logging apart), as the calls it
    makes: [process.stdout.write(data)], [fse.outputFile(path, data, ...)],
    [child_process.exec(path, ...)] and [removeTemporaryFile()], which looks
    whether the file exists and removes it. *)
Inductive Effect : Type :=
| StdoutWrite (data : string)
| OutputFile (path data : string)
| Exec (path : string)
| RemoveTemporaryFile (path : string).

Record Run : Type := {
  effects : list Effect;
  status : Status
}.

Definition LF : string := String (ascii_of_nat 10) EmptyString.

(** The body of the two loops over [securityCommands]: the name of the tool
    then the value and a line feed are added to the text. *)
Definition add_command (data : string) (command : SecurityCommand) : string :=
  let data := (data ++ match type command with
                       | iptables_4 => "iptables "
                       | ipset => "ipset "
                       end)%string in
  (data ++ value command ++ LF)%string.

(** The text of the step Print. *)
Definition printed (securityCommands : list SecurityCommand) : string :=
  let data := ("--------------------" ++ LF)%string in
  let data := (data ++ "--------------------" ++ LF)%string in
  let data := fold_left add_command securityCommands data in
  let data := (data ++ "--------------------" ++ LF)%string in
  (data ++ "--------------------" ++ LF)%string.

(** [shFileData] of the step Apply. *)
Definition shFileData (securityCommands : list SecurityCommand) : string :=
  fold_left add_command securityCommands ("#! /bin/sh" ++ LF ++ LF)%string.

Section Main.
Context {joi : JoiLibrary} {host : Host}.

(** The step LoadConfig: the validated configuration and the entry of the job. *)
Definition loadConfig (usageArgs : UsageArgs) : (MainError + (MainConfiguration * Job))%type :=
  match loadYaml (configurationFilePath usageArgs) with
  | inl message => inl (LoadError message)
  | inr rawConfiguration =>
      match configurationSchema rawConfiguration with
      | inl message => inl (ConfigurationError message)
      | inr configuration =>
          match find (fun item => (id item =? configurationId usageArgs)%string)
                  (configurations configuration) with
          | None =>
              inl (Error ("Cannot find the configuration item " ++ configurationId usageArgs))
          | Some configurationItem =>
              match find (fun job => (job_name job =? jobName usageArgs)%string)
                      (jobs configurationItem) with
              | None =>
                  inl (Error ("Cannot find the configuration job " ++ jobName usageArgs))
              | Some configurationJob => inr (configuration, configurationJob)
              end
          end
      end
  end.

(** The step CreateJobInstance. *)
Definition createJobInstance (configurationJob : Job) : (MainError + JobModule)%type :=
  match requireJob (job_name configurationJob) with
  | None => inl (NotFoundError ("Job " ++ job_name configurationJob ++ " not found"))
  | Some jobModule =>
      match initialize jobModule with
      | inl e => inl (JobRejection e)
      | inr _ => inr jobModule
      end
  end.

(** ['/tmp/netfilter-apply-' + Date.now() + '-' + generateUuid() + '.sh'] *)
Definition temporaryFilePath : string :=
  "/tmp/netfilter-apply-" ++ Number_toString now ++ "-" ++ uuid ++ ".sh".

(** The step Apply, after the effects of the steps before it. *)
Definition applyRules (usageArgs : UsageArgs) (done : list Effect)
  (securityCommands : list SecurityCommand) : Run :=
  if negb (apply usageArgs) then {| effects := done; status := Pending |}
  else
    let path := temporaryFilePath in
    let written := done ++ [ OutputFile path (shFileData securityCommands) ] in
    match outputFile path (shFileData securityCommands) with
    | Some message =>
        {| effects := written ++ [ RemoveTemporaryFile path ];
           status := Failed (ApplyError message) |}
    | None =>
        match exec path with
        | Some message =>
            {| effects := written ++ [ Exec path; RemoveTemporaryFile path ];
               status := Failed (ApplyError message) |}
        | None =>
            {| effects := written ++ [ Exec path; RemoveTemporaryFile path ];
               status := Completed |}
        end
    end.

(** The step Print and what follows it. *)
Definition printAndApply (usageArgs : UsageArgs) (securityCommands : list SecurityCommand)
  : Run :=
  if negb (printRules usageArgs) then {| effects := []; status := Pending |}
  else applyRules usageArgs [ StdoutWrite (printed securityCommands) ] securityCommands.

(** The context at the step ExecuteJob, as far as a job reads it:
    [context.jobCommand = {type: usageArgs.action}], and the configuration, the
    entry of the job and its [configuration] as LoadConfig left them. *)
Definition job_context (usageArgs : UsageArgs) (configuration : MainConfiguration)
  (configurationJob : Job) : JobContext :=
  {| jc_jobCommand_type := action usageArgs;
     jc_configuration := global configuration;
     jc_configurationJob := configurationJob;
     jc_jobConfiguration := job_configuration configurationJob |}.

(** The whole chain. *)
Definition main (usageArgs : UsageArgs) : Run :=
  match loadConfig usageArgs with
  | inl e => {| effects := []; status := Failed e |}
  | inr (configuration, configurationJob) =>
      match createJobInstance configurationJob with
      | inl e => {| effects := []; status := Failed e |}
      | inr jobInstance =>
          match execute jobInstance (job_context usageArgs configuration configurationJob) with
          | inl e => {| effects := []; status := Failed (JobRejection e) |}
          | inr executionResponse =>
              printAndApply usageArgs (securityCommands executionResponse)
          end
      end
  end.

End Main.

(** The context of a job of this file, from what the program hands over: the
    lists of commands and the raw configuration are not there yet. *)
Definition execution_context {C} (context : JobContext) : ExecutionContext C :=
  {| jobCommand_type := jc_jobCommand_type context;
     configuration := jc_configuration context;
     configurationJob :=
       Some {| name := job_name (jc_configurationJob context);
               chainName := property "chainName" (job_fields (jc_configurationJob context)) |};
     jobConfiguration := Unvalidated (jc_jobConfiguration context);
     rawJobConfiguration := None;
     commands := {| install := []; unInstall := [] |} |}.

(** [execute] of the job prepare-netfilter on the context of the program. *)
Definition prepare_netfilter_execute {joi : JoiLibrary} (context : JobContext)
  : Promise ExecutionOnResolve :=
  snd (PrepareNetfilterJob.execute (execution_context context)).

End GenericMain.

(* ------------------------------------------------------------------------- *)
(** ** Reading the transcripts

    The jobs never look inside a command; the definitions below are the
    reader's side: they tell, from the text of a command, what it does to the
    packet filter, following the grammar of [iptables] and [ipset]. *)

(** [Some r] when [s] is [p] followed by [r]. *)
Fixpoint strip_prefix (p s : string) : option string :=
  match p with
  | EmptyString => Some s
  | String a p' =>
      match s with
      | EmptyString => None
      | String b s' => if Ascii.eqb a b then strip_prefix p' s' else None
      end
  end.

Definition starts_with (p s : string) : bool :=
  match strip_prefix p s with Some _ => true | None => false end.

(** The word before the first space and the text after it. *)
Fixpoint split_space (s : string) : option (string * string) :=
  match s with
  | EmptyString => None
  | String c r =>
      if Ascii.eqb c " " then Some (EmptyString, r)
      else match split_space r with
           | Some (word, rest) => Some (String c word, rest)
           | None => None
           end
  end.

Definition CommandType_eqb (a b : CommandType) : bool :=
  match a, b with
  | iptables_4, iptables_4 | ipset, ipset => true
  | _, _ => false
  end.

Definition SecurityCommand_eqb (a b : SecurityCommand) : bool :=
  CommandType_eqb (type a) (type b) && (value a =? value b)%string.

(** The position of the first occurrence of a command. *)
Fixpoint index_of (c : SecurityCommand) (l : list SecurityCommand) : option nat :=
  match l with
  | [] => None
  | x :: r =>
      if SecurityCommand_eqb c x then Some 0%nat
      else match index_of c r with
           | Some i => Some (S i)
           | None => None
           end
  end.

(** Both commands occur and [a] comes first. *)
Definition precedes (a b : SecurityCommand) (l : list SecurityCommand) : bool :=
  match index_of a l, index_of b l with
  | Some i, Some j => (i <? j)%nat
  | _, _ => false
  end.

(** The defined results of [f] over a list, in order. *)
Fixpoint filter_map {A B} (f : A -> option B) (l : list A) : list B :=
  match l with
  | [] => []
  | x :: r =>
      match f x with
      | Some y => y :: filter_map f r
      | None => filter_map f r
      end
  end.

(** A rule of a chain that the chain's own flush does not remove: the chain it
    is put in and the rule's text. *)
Definition Link : Type := (string * string)%type.

(** [iptables -N chain] *)
Definition created_chain (c : SecurityCommand) : option string :=
  match type c with
  | iptables_4 => strip_prefix "-N " (value c)
  | ipset => None
  end.

(** [iptables -F chain] *)
Definition flushed_chain (c : SecurityCommand) : option string :=
  match type c with
  | iptables_4 => strip_prefix "-F " (value c)
  | ipset => None
  end.

(** [iptables -X chain] *)
Definition destroyed_chain (c : SecurityCommand) : option string :=
  match type c with
  | iptables_4 => strip_prefix "-X " (value c)
  | ipset => None
  end.

(** [ipset -! create set type] *)
Definition created_set (c : SecurityCommand) : option string :=
  match type c with
  | ipset =>
      match strip_prefix "-! create " (value c) with
      | Some r =>
          match split_space r with
          | Some (name, _) => Some name
          | None => Some r
          end
      | None => None
      end
  | iptables_4 => None
  end.

(** [ipset -! destroy set] *)
Definition destroyed_set (c : SecurityCommand) : option string :=
  match type c with
  | ipset => strip_prefix "-! destroy " (value c)
  | iptables_4 => None
  end.

(** The chains of netfilter itself, which no job creates or flushes. *)
Definition builtin_chains : list string :=
  ["INPUT"; "OUTPUT"; "FORWARD"; "PREROUTING"; "POSTROUTING"].

(** [iptables -A chain rule] into a chain of netfilter itself. *)
Fixpoint appended_to (chains : list string) (v : string) : option Link :=
  match chains with
  | [] => None
  | chain :: r =>
      match strip_prefix ("-A " ++ chain ++ " ") v with
      | Some rule => Some (chain, rule)
      | None => appended_to r v
      end
  end.

(** [iptables -I chain position rule], or a rule appended to a chain of
    netfilter itself: the activation of a chain and the default action of an
    interface. *)
Definition inserted_link (c : SecurityCommand) : option Link :=
  match type c with
  | iptables_4 =>
      match strip_prefix "-I " (value c) with
      | Some r =>
          match split_space r with
          | Some (chain, r') =>
              match split_space r' with
              | Some (_, rule) => Some (chain, rule)
              | None => None
              end
          | None => None
          end
      | None => appended_to builtin_chains (value c)
      end
  | ipset => None
  end.

(** [iptables -D chain rule] *)
Definition deleted_link (c : SecurityCommand) : option Link :=
  match type c with
  | iptables_4 =>
      match strip_prefix "-D " (value c) with
      | Some r => split_space r
      | None => None
      end
  | ipset => None
  end.

(** What an uninstall transcript tears down is what the install transcript
    built, as multisets: the chains created are the chains flushed and the
    chains destroyed, the sets created are the sets destroyed, and the links
    inserted are the links deleted. *)
Definition symmetric (installed unInstalled : list SecurityCommand) : Prop :=
  Permutation (filter_map created_chain installed) (filter_map destroyed_chain unInstalled)
  /\ Permutation (filter_map created_chain installed) (filter_map flushed_chain unInstalled)
  /\ Permutation (filter_map created_set installed) (filter_map destroyed_set unInstalled)
  /\ Permutation (filter_map inserted_link installed) (filter_map deleted_link unInstalled).

(** A command on the chain INPUT: a rule inserted, appended or deleted. *)
Definition on_INPUT (c : SecurityCommand) : bool :=
  match type c with
  | iptables_4 =>
      starts_with "-I INPUT " (value c) || starts_with "-A INPUT " (value c)
      || starts_with "-D INPUT " (value c)
  | ipset => false
  end.

(** [ipset -! add trusted_net network] *)
Definition adds_to_trusted_net (c : SecurityCommand) : bool :=
  match type c with
  | ipset => starts_with "-! add trusted_net " (value c)
  | iptables_4 => false
  end.

(** A token the jobs accept as a direction. *)
Definition valid_direction (token : string) : Prop :=
  toLowerCase token = "install" \/ toLowerCase token = "uninstall".

(** A Joi whose syntax checks accept every text and which converts no text,
    for the examples. *)
Definition example_joi : JoiLibrary :=
  {| ip_matches := fun _ _ => true;
     uri_matches := fun _ _ => true;
     convert_number := fun _ => None;
     convert_json := fun _ => None |}.

(** The context [generic-main] hands to a job: the type of the command, the
    entry of the job and its policy as loaded. *)
Definition context_of {C} (type : string) (global : option (list NetworkItem))
  (entry : option ConfigurationJob) (raw : JSON) : ExecutionContext C :=
  {| jobCommand_type := type;
     configuration := {| global_network_trustedItems := global |};
     configurationJob := entry;
     jobConfiguration := Unvalidated raw;
     rawJobConfiguration := None;
     commands := {| install := []; unInstall := [] |} |}.

(* ------------------------------------------------------------------------- *)
(** ** The contexts and lists of whole runs *)

(** [context.jobCommand = {type}], as [generic-main] sets it before it calls
    [execute]. *)
Definition set_jobCommand {C} (context : ExecutionContext C) (type : string)
  : ExecutionContext C :=
  {| jobCommand_type := type;
     configuration := configuration context;
     configurationJob := configurationJob context;
     jobConfiguration := jobConfiguration context;
     rawJobConfiguration := rawJobConfiguration context;
     commands := commands context |}.

(** The context after a run whose steps all resolved. *)
Definition after_run {C} (context : ExecutionContext C) (raw : JSON) (policy : C)
  (i u : list SecurityCommand) : ExecutionContext C :=
  {| jobCommand_type := jobCommand_type context;
     configuration := configuration context;
     configurationJob := configurationJob context;
     jobConfiguration := Validated policy;
     rawJobConfiguration := Some raw;
     commands := {| install := i; unInstall := u |} |}.

(** The lists the five generators of prepare-netfilter leave in the context,
    in the order of an installation and in the order of a removal. *)
Definition install_forward (context : ExecutionContext PrepareNetfilterJob.Policy) (policy : PrepareNetfilterJob.Policy)
  : list SecurityCommand :=
  PrepareNetfilterJob.vital_install policy ++ PrepareNetfilterJob.block_install ++ PrepareNetfilterJob.services_install
  ++ PrepareNetfilterJob.trusted_install context policy ++ PrepareNetfilterJob.root_install policy.

Definition unInstall_forward (policy : PrepareNetfilterJob.Policy) : list SecurityCommand :=
  PrepareNetfilterJob.vital_unInstall ++ PrepareNetfilterJob.block_unInstall ++ PrepareNetfilterJob.services_unInstall
  ++ PrepareNetfilterJob.trusted_unInstall ++ PrepareNetfilterJob.root_unInstall policy.

Definition install_backward (context : ExecutionContext PrepareNetfilterJob.Policy) (policy : PrepareNetfilterJob.Policy)
  : list SecurityCommand :=
  PrepareNetfilterJob.root_install policy ++ PrepareNetfilterJob.trusted_install context policy ++ PrepareNetfilterJob.services_install
  ++ PrepareNetfilterJob.block_install ++ PrepareNetfilterJob.vital_install policy.

Definition unInstall_backward (policy : PrepareNetfilterJob.Policy) : list SecurityCommand :=
  PrepareNetfilterJob.root_unInstall policy ++ PrepareNetfilterJob.trusted_unInstall ++ PrepareNetfilterJob.services_unInstall
  ++ PrepareNetfilterJob.block_unInstall ++ PrepareNetfilterJob.vital_unInstall.

(** The activations on INPUT that [generateRootAccessChains] installs. *)
Definition activation_trusted : SecurityCommand :=
  asIptables4Command "-I INPUT 1 -j IN_trusted_access_0".

Definition activation_vital : SecurityCommand :=
  asIptables4Command "-I INPUT 2 -j IN_vital_access_0".

Definition activation_block : SecurityCommand :=
  asIptables4Command "-I INPUT 3 -m set --match-set block_net src -j IN_block_access_0".

Definition activation_services : SecurityCommand :=
  asIptables4Command "-I INPUT 4 -j IN_services_access_0".

(** In the order they are pushed: trusted, vital, block, services. *)
Definition input_activations : list SecurityCommand :=
  [ activation_trusted; activation_vital; activation_block; activation_services ].

(** Their deletions. *)
Definition deactivation_trusted : SecurityCommand :=
  asIptables4Command "-D INPUT -j IN_trusted_access_0".

Definition deactivation_vital : SecurityCommand :=
  asIptables4Command "-D INPUT -j IN_vital_access_0".

Definition deactivation_block : SecurityCommand :=
  asIptables4Command "-D INPUT -m set --match-set block_net src -j IN_block_access_0".

Definition deactivation_services : SecurityCommand :=
  asIptables4Command "-D INPUT -j IN_services_access_0".

(** In the order they are pushed, which is the same. *)
Definition input_deactivations : list SecurityCommand :=
  [ deactivation_trusted; deactivation_vital; deactivation_block; deactivation_services ].

(** The link an interface's default action makes on INPUT. *)
Definition input_default_link (i : PrepareNetfilterJob.PrimaryInterface) : Link :=
  ("INPUT", ("--in-interface " ++ PrepareNetfilterJob.name i ++ " -j "
             ++ PrepareNetfilterJob.rules_input_defaultAction i)%string).

(** The links of [generateRootAccessChains]. *)
Definition root_links (policy : PrepareNetfilterJob.Policy) : list Link :=
  [ ("INPUT", "-j IN_trusted_access_0");
    ("INPUT", "-j IN_vital_access_0");
    ("INPUT", "-m set --match-set block_net src -j IN_block_access_0");
    ("INPUT", "-j IN_services_access_0") ]
  ++ map input_default_link
       (PrepareNetfilterJob.primaryInterfaces (PrepareNetfilterJob.network policy))
  ++ [ ("OUTPUT", "-j OUT_trusted_access_0");
       ("OUTPUT", "-j OUT_vital_access_0");
       ("OUTPUT", "-j OUT_services_access_0") ].

(** The one command of the uninstall list of sync-blacklist-ips. *)
Definition flush_block_net : SecurityCommand :=
  {| type := ipset; value := "flush block_net" |}.

(** A workflow of validation and generation steps never rejects with the error
    of an invalid direction. *)
Definition never_direction_error {C} (step : Step C) : Prop :=
  forall context context' e,
    step context = (context', inl e) -> ~ InvalidDirectionError e.

(* ------------------------------------------------------------------------- *)
(** ** Example policies *)

(** A policy of prepare-netfilter: one trusted network of the job and the
    interface eth0 with one network. *)
Definition example_prepare_policy : JSON :=
  JObj [ ("network",
          JObj [ ("trustedItems", JArr [ JObj [ ("value", JStr "172.16.0.0/12") ] ]);
                 ("primaryInterfaces",
                  JArr [ JObj [ ("name", JStr "eth0");
                                ("networks", JArr [ JObj [ ("value", JStr "192.168.0.0/24") ] ]);
                                ("rules",
                                 JObj [ ("input", JObj [ ("defaultAction", JStr "DROP") ]);
                                        ("output", JObj [ ("defaultAction", JStr "ACCEPT") ]) ]) ] ]) ]) ].

Definition example_eth0 : PrepareNetfilterJob.PrimaryInterface :=
  {| PrepareNetfilterJob.name := "eth0";
     PrepareNetfilterJob.networks := [ {| network_value := "192.168.0.0/24" |} ];
     PrepareNetfilterJob.rules_input_defaultAction := "DROP";
     PrepareNetfilterJob.rules_output_defaultAction := "ACCEPT" |}.

Definition example_prepare_validated : PrepareNetfilterJob.Policy :=
  {| PrepareNetfilterJob.network :=
       {| PrepareNetfilterJob.trustedItems := Some [ {| network_value := "172.16.0.0/12" |} ];
          PrepareNetfilterJob.primaryInterfaces := [ example_eth0 ] |} |}.

(** The trusted networks of the whole configuration, for the examples. *)
Definition example_global_trusted : list NetworkItem :=
  [ {| network_value := "10.0.0.0/8" |}; {| network_value := "10.1.0.0/16" |} ].

Definition example_prepare_context (type : string)
  : ExecutionContext PrepareNetfilterJob.Policy :=
  context_of type (Some example_global_trusted) None example_prepare_policy.

(** A policy of the generic service job: port 443 over tcp from two networks. *)
Definition example_service_item : JSON :=
  JObj [ ("portNumber", JNum 443);
         ("protocol", JStr "tcp");
         ("sourceNetworks", JArr [ JStr "10.0.0.0/8"; JStr "10.1.0.0/16" ]) ].

Definition example_service_policy : JSON :=
  JObj [ ("network", JObj [ ("items", JArr [ example_service_item ]) ]) ].

(** The same policy with a chain name of its own. *)
Definition example_service_policy_named : JSON :=
  JObj [ ("chainName", JStr "web");
         ("network", JObj [ ("items", JArr [ example_service_item ]) ]) ].

(** The same item without its port number. *)
Definition example_service_policy_without_port : JSON :=
  JObj [ ("network",
          JObj [ ("items", JArr [ JObj [ ("protocol", JStr "tcp") ] ]) ]) ].

(** The entry of a job in the configuration file, with no [chainName] of its
    own. *)
Definition example_entry (name : string) : ConfigurationJob :=
  {| name := name; chainName := None |}.

Definition example_service_context (type : string) (raw : JSON)
  : ExecutionContext GenericServiceJob.Policy :=
  context_of type None (Some (example_entry "generic-service")) raw.

(** A policy of the docker DNS job: one mapping, without [sourcePortNumber]. *)
Definition example_dns_policy : JSON :=
  JObj [ ("chainName", JStr "resolver");
         ("network",
          JObj [ ("items",
                  JArr [ JObj [ ("sourceLinkName", JStr "eth0");
                                ("sourceIpAddress", JStr "192.168.0.2");
                                ("destinationPortNumber", JNum 5353);
                                ("destinationIpAddress", JStr "172.17.0.2") ] ]) ]) ].

Definition example_dns_context (type : string)
  : ExecutionContext DockerDnsServiceJob.Policy :=
  context_of type None (Some (example_entry "docker-dns-service")) example_dns_policy.

(** A policy of sync-blacklist-ips and a data source with two networks. *)
Definition example_blacklist_policy : JSON :=
  JObj [ ("database", JObj [ ("connectionString", JStr "postgres://localhost/security") ]) ].

Definition example_data_source : DataSource :=
  {| query_blacklist_networks := fun _ =>
       inr [ {| network_value := "198.51.100.0/24" |};
             {| network_value := "203.0.113.7/32" |} ] |}.

(** A data source that is down. *)
Definition example_data_source_down : DataSource :=
  {| query_blacklist_networks := fun _ => inl "connect ECONNREFUSED"%string |}.

Definition example_blacklist_context (type : string)
  : ExecutionContext SynchronizeBlacklistIps.Policy :=
  context_of type None (Some (example_entry "sync-blacklist-ips")) example_blacklist_policy.

(** The order the uninstall transcript of prepare-netfilter would have on
    INPUT if it were the reverse of the install order: defaults of the
    interfaces first, then services, block, vital, and trusted last. *)
Definition reversed_on_INPUT (policy : PrepareNetfilterJob.Policy)
  (transcript : list SecurityCommand) : Prop :=
  filter on_INPUT transcript =
  rev (input_deactivations
       ++ map PrepareNetfilterJob.input_default_unInstall
            (PrepareNetfilterJob.primaryInterfaces (PrepareNetfilterJob.network policy))).

(* ------------------------------------------------------------------------- *)
(** ** Reading what the command line writes *)

(** The line of a command in the printed text and in the script. *)
Definition command_line (command : SecurityCommand) : string :=
  (match type command with
   | iptables_4 => "iptables "
   | ipset => "ipset "
   end ++ value command ++ GenericMain.LF)%string.

(** The lines of the commands, one after the other. *)
Definition script_body (securityCommands : list SecurityCommand) : string :=
  fold_right (fun command rest => (command_line command ++ rest)%string) EmptyString
    securityCommands.

(** The line the printed text starts and ends with, twice each. *)
Definition rule_line : string := ("--------------------" ++ GenericMain.LF)%string.

(** The first lines of the script. *)
Definition script_header : string :=
  ("#! /bin/sh" ++ GenericMain.LF ++ GenericMain.LF)%string.

(** The text has no line feed. *)
Fixpoint no_line_feed (s : string) : bool :=
  match s with
  | EmptyString => true
  | String c r => negb (Ascii.eqb c (ascii_of_nat 10)) && no_line_feed r
  end.

(** The lines of a text, each ended by a line feed; [line] holds the
    characters of the current line read so far. *)
Fixpoint read_lines_from (line : string -> string) (s : string) : list string :=
  match s with
  | EmptyString => []
  | String c r =>
      if Ascii.eqb c (ascii_of_nat 10)
      then line EmptyString :: read_lines_from (fun t => t) r
      else read_lines_from (fun t => line (String c t)) r
  end.

Definition read_lines (s : string) : list string := read_lines_from (fun t => t) s.

(** The command of a line, as a shell reads it: the tool then its arguments. *)
Definition read_command (line : string) : option SecurityCommand :=
  match strip_prefix "iptables " line with
  | Some v => Some (asIptables4Command v)
  | None =>
      match strip_prefix "ipset " line with
      | Some v => Some (asIpSetCommand v)
      | None => None
      end
  end.

Fixpoint read_commands (lines : list string) : option (list SecurityCommand) :=
  match lines with
  | [] => Some []
  | line :: r =>
      match read_command line, read_commands r with
      | Some c, Some l => Some (c :: l)
      | _, _ => None
      end
  end.

(** The commands of a script: its lines after the header. *)
Definition read_script (s : string) : option (list SecurityCommand) :=
  match strip_prefix script_header s with
  | Some body => read_commands (read_lines body)
  | None => None
  end.

(* ------------------------------------------------------------------------- *)
(** ** An example of a run of the command line *)

(** A configuration file with two trusted networks for all jobs and one
    configuration, of the job prepare-netfilter. *)
Definition example_main_configuration : JSON :=
  JObj [ ("version", JStr "1.0.0");
         ("fileVersion", JStr "1");
         ("global",
          JObj [ ("network",
                  JObj [ ("trustedItems",
                          JArr [ JObj [ ("value", JStr "10.0.0.0/8") ];
                                 JObj [ ("value", JStr "10.1.0.0/16") ] ]) ]) ]);
         ("configurations",
          JArr [ JObj [ ("id", JStr "gateway");
                        ("jobs",
                         JArr [ JObj [ ("name", JStr "prepare-netfilter");
                                       ("engine", JObj [ ("name", JStr "iptables") ]);
                                       ("configuration", example_prepare_policy) ] ]) ] ]) ].

(** The same file, with the entry of the job without its [engine]. *)
Definition example_main_configuration_without_engine : JSON :=
  JObj [ ("version", JStr "1.0.0");
         ("fileVersion", JStr "1");
         ("configurations",
          JArr [ JObj [ ("id", JStr "gateway");
                        ("jobs",
                         JArr [ JObj [ ("name", JStr "prepare-netfilter");
                                       ("configuration", example_prepare_policy) ] ]) ] ]) ].

(** The module of the job prepare-netfilter, whose initialisation resolves. *)
Definition example_job_module : GenericMain.JobModule :=
  {| GenericMain.initialize := inr tt;
     GenericMain.execute := @GenericMain.prepare_netfilter_execute example_joi |}.

(** An outside where the file is at /etc/netfilter.yml, the only job is
    prepare-netfilter, and writing and running the script succeed. *)
Definition example_host (document : JSON) : GenericMain.Host :=
  {| GenericMain.loadYaml := fun path =>
       if (path =? "/etc/netfilter.yml")%string then inr document
       else inl "ENOENT: no such file or directory"%string;
     GenericMain.requireJob := fun name =>
       if (name =? "prepare-netfilter")%string then Some example_job_module else None;
     GenericMain.now := 1500000000000%Z;
     GenericMain.uuid := "110ec58a-a0f2-4ac4-8393-c866d813b8d1";
     GenericMain.outputFile := fun _ _ => None;
     GenericMain.exec := fun _ => None |}.

(** The same outside, where running the script fails. *)
Definition example_host_exec_fails : GenericMain.Host :=
  {| GenericMain.loadYaml := fun _ => inr example_main_configuration;
     GenericMain.requireJob := fun _ => Some example_job_module;
     GenericMain.now := 1500000000000%Z;
     GenericMain.uuid := "110ec58a-a0f2-4ac4-8393-c866d813b8d1";
     GenericMain.outputFile := fun _ _ => None;
     GenericMain.exec := fun _ => Some "Command failed"%string |}.

Definition example_usage (configurationId jobName : string) (printRules apply : bool)
  : GenericMain.UsageArgs :=
  {| GenericMain.configurationId := configurationId;
     GenericMain.configurationFilePath := "/etc/netfilter.yml";
     GenericMain.action := "install";
     GenericMain.jobName := jobName;
     GenericMain.printRules := printRules;
     GenericMain.apply := apply |}.

(* ------------------------------------------------------------------------- *)
(** ** What a command operates on, and the order of commands

    A chain must exist when a command appends to it, inserts in it, deletes
    from it, flushes or destroys it, and a set when a command adds to it,
    flushes or destroys it. The definitions below read that chain or set from
    the first argument of the command. They do not read the rule that follows
    it: parts of a rule are the policy's own text (the name of an interface, a
    default action, a protocol), so what a rule matches on or jumps to is told
    command by command, by [precedes] on the commands themselves. *)

Inductive Resource : Type :=
| Chain (name : string)
| IpSet (name : string).

Definition Resource_eqb (a b : Resource) : bool :=
  match a, b with
  | Chain x, Chain y | IpSet x, IpSet y => (x =? y)%string
  | _, _ => false
  end.

(** The text has no space. *)
Fixpoint no_space (s : string) : bool :=
  match s with
  | EmptyString => true
  | String c r => negb (Ascii.eqb c " ") && no_space r
  end.

(** The first word of a text. *)
Definition first_word (s : string) : string :=
  match split_space s with
  | Some (word, _) => word
  | None => s
  end.

(** [iptables -A chain rule] *)
Definition appended_rule (c : SecurityCommand) : option Link :=
  match type c with
  | iptables_4 =>
      match strip_prefix "-A " (value c) with
      | Some r => split_space r
      | None => None
      end
  | ipset => None
  end.

(** [ipset -! add set entry] *)
Definition added_to_set (c : SecurityCommand) : option string :=
  match type c with
  | ipset =>
      match strip_prefix "-! add " (value c) with
      | Some r => Some (first_word r)
      | None => None
      end
  | iptables_4 => None
  end.

(** [ipset flush set] *)
Definition flushed_set (c : SecurityCommand) : option string :=
  match type c with
  | ipset => strip_prefix "flush " (value c)
  | iptables_4 => None
  end.

(** The chain of a link, without its rule. *)
Definition chain_of (l : option Link) : list Resource :=
  match l with
  | Some (chain, _) => [ Chain chain ]
  | None => []
  end.

Definition named {A} (kind : A -> Resource) (o : option A) : list Resource :=
  match o with
  | Some n => [ kind n ]
  | None => []
  end.

(** The chain a command appends to, inserts in, deletes from, flushes or
    destroys; the set it adds to, flushes or destroys. *)
Definition operates_on (c : SecurityCommand) : list Resource :=
  chain_of (appended_rule c) ++ chain_of (inserted_link c) ++ chain_of (deleted_link c)
  ++ named Chain (flushed_chain c) ++ named Chain (destroyed_chain c)
  ++ named IpSet (added_to_set c) ++ named IpSet (flushed_set c)
  ++ named IpSet (destroyed_set c).

(** The chain or set a command creates. *)
Definition creates (c : SecurityCommand) : option Resource :=
  match created_chain c with
  | Some n => Some (Chain n)
  | None =>
      match created_set c with
      | Some n => Some (IpSet n)
      | None => None
      end
  end.

Definition with_new (o : option Resource) (known : list Resource) : list Resource :=
  match o with
  | Some x => x :: known
  | None => known
  end.

(** A chain of netfilter itself, or a chain or set of [known]. *)
Definition known_to (known : list Resource) (x : Resource) : bool :=
  match x with
  | Chain n => existsb (String.eqb n) builtin_chains
  | IpSet _ => false
  end
  || existsb (Resource_eqb x) known.

(** Every command of the transcript operates on a chain or set that exists
    when it runs: one of [known] or one created earlier in the transcript. *)
Fixpoint created_before_use (known : list Resource) (l : list SecurityCommand) : bool :=
  match l with
  | [] => true
  | c :: r =>
      forallb (known_to known) (operates_on c)
      && created_before_use (with_new (creates c) known) r
  end.

(** What exists after the transcript, when [known] existed before it. *)
Definition known_after (known : list Resource) (l : list SecurityCommand) : list Resource :=
  fold_left (fun k c => with_new (creates c) k) l known.

(** The chains and sets the install transcript of prepare-netfilter leaves,
    the last created first. *)
Definition prepared : list Resource :=
  [ Chain "OUT_trusted_access_0"; Chain "IN_trusted_access_0"; IpSet "trusted_net";
    Chain "OUT_services_access_0"; Chain "IN_services_access_0";
    IpSet "block_net"; Chain "IN_block_access_0";
    Chain "OUT_vital_access_0"; Chain "IN_vital_access_0" ].

(** What exists once a service job has created its two chains over what
    prepare-netfilter installed. *)
Definition generic_built (chain : string) : list Resource :=
  Chain ("OUT_" ++ chain) :: Chain ("IN_" ++ chain) :: prepared.

Definition dns_built (chain : string) : list Resource :=
  Chain ("OUT_dns_" ++ chain) :: Chain ("IN_dns_" ++ chain) :: prepared.

(** A command on the chain OUTPUT: a rule inserted, appended or deleted. *)
Definition on_OUTPUT (c : SecurityCommand) : bool :=
  match type c with
  | iptables_4 =>
      starts_with "-I OUTPUT " (value c) || starts_with "-A OUTPUT " (value c)
      || starts_with "-D OUTPUT " (value c)
  | ipset => false
  end.

(** A command on one of the two chains every packet of the host crosses. *)
Definition on_root (c : SecurityCommand) : bool := on_INPUT c || on_OUTPUT c.

(** The command occurs in the transcript. *)
Definition occurs (c : SecurityCommand) (l : list SecurityCommand) : bool :=
  match index_of c l with
  | Some _ => true
  | None => false
  end.

(** The commands of [steps] all occur in the transcript, each one first met
    before the next one is. *)
Fixpoint in_this_order (steps transcript : list SecurityCommand) : bool :=
  match steps with
  | [] => true
  | a :: later =>
      match later with
      | [] => occurs a transcript
      | b :: _ => precedes a b transcript && in_this_order later transcript
      end
  end.

(* ------------------------------------------------------------------------- *)
(** ** The input of the converter of country networks *)

(** *** The lines of the input (the step Convert) *)

Module CountryNetworksInput.

Definition CR : string := String (ascii_of_nat 13) EmptyString.
Definition LF : string := String (ascii_of_nat 10) EmptyString.

(** [s.replace('\r', '')]: a pattern that is a string replaces its first
    occurrence only. *)
Fixpoint replace_CR (s : string) : string :=
  match s with
  | EmptyString => EmptyString
  | String c r =>
      if Ascii.eqb c (ascii_of_nat 13) then r else String c (replace_CR r)
  end.

(** [s.split('\n')]; [current] holds the characters of the current piece. *)
Fixpoint split_from (current : string -> string) (s : string) : list string :=
  match s with
  | EmptyString => [ current EmptyString ]
  | String c r =>
      if Ascii.eqb c (ascii_of_nat 10)
      then current EmptyString :: split_from (fun t => t) r
      else split_from (fun t => current (String c t)) r
  end.

Definition split_LF (s : string) : list string := split_from (fun t => t) s.

(** [let lines = context.rawInputData.replace('\r', '').split('\n');
     lines = _.filter(lines, line => !_.startsWith(line, '#') && line.length > 0)] *)
Definition lines (rawInputData : string) : list string :=
  filter (fun line => negb (starts_with "#" line) && (0 <? String.length line)%nat)
    (split_LF (replace_CR rawInputData)).

End CountryNetworksInput.

(** The text has no carriage return. *)
Fixpoint no_carriage_return (s : string) : bool :=
  match s with
  | EmptyString => true
  | String c r => negb (Ascii.eqb c (ascii_of_nat 13)) && no_carriage_return r
  end.

(** The line is kept by the filter of the step Convert. *)
Definition kept_line (line : string) : bool :=
  negb (starts_with "#" line) && (0 <? String.length line)%nat.

(** A file of the given lines, each ended by [ending]. *)
Definition file_of (ending : string) (l : list string) : string :=
  fold_right (fun line rest => (line ++ ending ++ rest)%string) EmptyString l.

(* ------------------------------------------------------------------------- *)
(** ** Lists and strings *)

Lemma filter_map_app {A B} (f : A -> option B) (l1 l2 : list A) :
  filter_map f (l1 ++ l2) = filter_map f l1 ++ filter_map f l2.
Proof.
  induction l1 as [|x l1 IH]; simpl; [reflexivity|].
  destruct (f x); simpl; now rewrite IH.
Qed.

Lemma filter_map_flat_map {A B X} (f : A -> option B) (g : X -> list A) (l : list X) :
  filter_map f (flat_map g l) = flat_map (fun x => filter_map f (g x)) l.
Proof.
  induction l as [|x l IH]; simpl; [reflexivity|].
  now rewrite filter_map_app, IH.
Qed.

Lemma flat_map_nil {A B} (g : A -> list B) (l : list A) :
  (forall x, g x = []) -> flat_map g l = [].
Proof.
  intros H. induction l as [|x l IH]; simpl; [reflexivity|].
  now rewrite H, IH.
Qed.

Lemma filter_map_map {A B X} (f : A -> option B) (g : X -> A) (h : X -> B) (l : list X) :
  (forall x, f (g x) = Some (h x)) -> filter_map f (map g l) = map h l.
Proof.
  intros H. induction l as [|x l IH]; simpl; [reflexivity|].
  now rewrite H, IH.
Qed.

Lemma filter_map_map_none {A B X} (f : A -> option B) (g : X -> A) (l : list X) :
  (forall x, f (g x) = None) -> filter_map f (map g l) = [].
Proof.
  intros H. induction l as [|x l IH]; simpl; [reflexivity|].
  now rewrite H, IH.
Qed.

Lemma filter_flat_map_nil {A X} (f : A -> bool) (g : X -> list A) (l : list X) :
  (forall x, filter f (g x) = []) -> filter f (flat_map g l) = [].
Proof.
  intros H. induction l as [|x l IH]; simpl; [reflexivity|].
  now rewrite filter_app, H, IH.
Qed.

Lemma filter_map_all {A X} (f : A -> bool) (g : X -> A) (l : list X) :
  (forall x, f (g x) = true) -> filter f (map g l) = map g l.
Proof.
  intros H. induction l as [|x l IH]; simpl; [reflexivity|].
  now rewrite H, IH.
Qed.

Lemma filter_map_none {A X} (f : A -> bool) (g : X -> A) (l : list X) :
  (forall x, f (g x) = false) -> filter f (map g l) = [].
Proof.
  intros H. induction l as [|x l IH]; simpl; [reflexivity|].
  now rewrite H, IH.
Qed.

Lemma SecurityCommand_eqb_eq (a b : SecurityCommand) :
  SecurityCommand_eqb a b = true -> a = b.
Proof.
  destruct a as [ta va], b as [tb vb]. unfold SecurityCommand_eqb. cbn [type value].
  intros H. apply andb_true_iff in H. destruct H as [Ht Hv].
  apply String.eqb_eq in Hv. subst vb.
  destruct ta, tb; try discriminate Ht; reflexivity.
Qed.

Lemma SecurityCommand_eqb_refl (a : SecurityCommand) : SecurityCommand_eqb a a = true.
Proof.
  destruct a as [ta va]. unfold SecurityCommand_eqb. cbn [type value].
  rewrite String.eqb_refl. now destruct ta.
Qed.

(** A command a filter keeps is none of the commands of a list the filter
    empties. *)
Lemma kept_is_off {f : SecurityCommand -> bool} (c : SecurityCommand)
  (l : list SecurityCommand) :
  filter f l = [] -> f c = true ->
  forall x, In x l -> SecurityCommand_eqb c x = false.
Proof.
  intros Hl Hc x Hx. destruct (SecurityCommand_eqb c x) eqn:E; [|reflexivity].
  apply SecurityCommand_eqb_eq in E. subst x.
  assert (Hin : In c (filter f l)) by (apply filter_In; now split).
  rewrite Hl in Hin. destruct Hin.
Qed.

Lemma index_of_app_off (c : SecurityCommand) (before l : list SecurityCommand) :
  (forall x, In x before -> SecurityCommand_eqb c x = false) ->
  index_of c (before ++ l) = option_map (Nat.add (length before)) (index_of c l).
Proof.
  induction before as [|x r IH]; intros Hoff.
  - cbn. now destruct (index_of c l).
  - cbn [app index_of length]. rewrite (Hoff x (or_introl eq_refl)).
    rewrite IH by (intros y Hy; apply Hoff; now right).
    now destruct (index_of c l).
Qed.

(** The order of two commands is not changed by what comes before them. *)
Lemma precedes_app_off (a b : SecurityCommand) (before l : list SecurityCommand) :
  (forall x, In x before -> SecurityCommand_eqb a x = false) ->
  (forall x, In x before -> SecurityCommand_eqb b x = false) ->
  precedes a b (before ++ l) = precedes a b l.
Proof.
  intros Ha Hb. unfold precedes.
  rewrite (index_of_app_off a before l Ha), (index_of_app_off b before l Hb).
  destruct (index_of a l) as [i|], (index_of b l) as [j|]; cbn [option_map]; try reflexivity.
  destruct (Nat.ltb_spec i j), (Nat.ltb_spec (length before + i) (length before + j));
    try reflexivity; lia.
Qed.

Lemma index_of_In (c : SecurityCommand) (l r : list SecurityCommand) :
  In c l -> exists k, index_of c (l ++ r) = Some k.
Proof.
  induction l as [|x l IH]; intros Hin; [destruct Hin|].
  cbn [app index_of]. destruct (SecurityCommand_eqb c x) eqn:E; [now exists 0%nat|].
  destruct Hin as [->|Hin]; [now rewrite SecurityCommand_eqb_refl in E|].
  destruct (IH Hin) as [k Hk]. rewrite Hk. now exists (S k).
Qed.

(* ------------------------------------------------------------------------- *)
(** ** What a run of [execute] leaves and returns *)

Module PrepareNetfilterFacts.
Import PrepareNetfilterJob.

Section Runs.
Context {joi : JoiLibrary}.
Variable context : ExecutionContext Policy.
Variable raw : JSON.
Variable policy : Policy.
Hypothesis loaded : jobConfiguration context = Unvalidated raw.
Hypothesis valid : schema raw = inr policy.

Lemma run_forward :
  toLowerCase (jobCommand_type context) = "install" ->
  execute context =
    finish (after_run context raw policy
              (install_forward context policy) (unInstall_forward policy), inr tt).
Proof.
  intros Hd. unfold execute, reset_commands, set_commands.
  cbn [jobCommand_type]. rewrite Hd.
  cbn [String.eqb Ascii.eqb Bool.eqb app run_steps].
  unfold validateConfiguration, validate_with.
  cbn [jobConfiguration]. rewrite loaded, valid.
  unfold generateVitalAccessChain, generateBlockNetworkChain, generateServiceAccessChain,
    generateTrustedNetworkChain, generateRootAccessChains, generate_with,
    set_validated, concat_commands, set_commands.
  cbn [jobConfiguration commands install unInstall
       configuration configurationJob rawJobConfiguration jobCommand_type].
  unfold after_run, install_forward, unInstall_forward.
  rewrite !app_nil_l, <- !app_assoc. reflexivity.
Qed.

Lemma run_backward :
  toLowerCase (jobCommand_type context) = "uninstall" ->
  execute context =
    finish (after_run context raw policy
              (install_backward context policy) (unInstall_backward policy), inr tt).
Proof.
  intros Hd. unfold execute, reset_commands, set_commands.
  cbn [jobCommand_type]. rewrite Hd.
  cbn [String.eqb Ascii.eqb Bool.eqb app run_steps].
  unfold validateConfiguration, validate_with.
  cbn [jobConfiguration]. rewrite loaded, valid.
  unfold generateVitalAccessChain, generateBlockNetworkChain, generateServiceAccessChain,
    generateTrustedNetworkChain, generateRootAccessChains, generate_with,
    set_validated, concat_commands, set_commands.
  cbn [jobConfiguration commands install unInstall
       configuration configurationJob rawJobConfiguration jobCommand_type].
  unfold after_run, install_backward, unInstall_backward.
  rewrite !app_nil_l, <- !app_assoc. reflexivity.
Qed.

End Runs.
End PrepareNetfilterFacts.

Module PrepareNetfilterOrder.
Import PrepareNetfilterJob PrepareNetfilterFacts.

Lemma vital_install_off_INPUT (policy : Policy) :
  filter on_INPUT (vital_install policy) = [].
Proof.
  unfold vital_install. rewrite !filter_app.
  rewrite filter_flat_map_nil; [reflexivity|].
  intros i. unfold vital_interface_rules. rewrite filter_app.
  rewrite filter_flat_map_nil; [reflexivity|].
  intros n. reflexivity.
Qed.

Lemma trusted_install_off_INPUT (context : ExecutionContext Policy) (policy : Policy) :
  filter on_INPUT (trusted_install context policy) = [].
Proof.
  unfold trusted_install. rewrite !filter_app.
  rewrite filter_map_none; [reflexivity|].
  intros n. reflexivity.
Qed.

Lemma root_install_on_INPUT (policy : Policy) :
  filter on_INPUT (root_install policy) =
  input_activations ++ map input_default_install (primaryInterfaces (network policy)).
Proof.
  unfold root_install. rewrite !filter_app.
  rewrite filter_map_all by (intros i; reflexivity).
  cbn. now rewrite app_nil_r.
Qed.

Lemma root_unInstall_on_INPUT (policy : Policy) :
  filter on_INPUT (root_unInstall policy) =
  input_deactivations ++ map input_default_unInstall (primaryInterfaces (network policy)).
Proof.
  unfold root_unInstall. rewrite !filter_app.
  rewrite filter_map_all by (intros i; reflexivity).
  cbn. now rewrite app_nil_r.
Qed.

Lemma install_forward_on_INPUT (context : ExecutionContext Policy) (policy : Policy) :
  filter on_INPUT (install_forward context policy) =
  input_activations ++ map input_default_install (primaryInterfaces (network policy)).
Proof.
  unfold install_forward. rewrite !filter_app.
  rewrite vital_install_off_INPUT, trusted_install_off_INPUT, root_install_on_INPUT.
  reflexivity.
Qed.

Lemma unInstall_backward_on_INPUT (policy : Policy) :
  filter on_INPUT (unInstall_backward policy) =
  input_deactivations ++ map input_default_unInstall (primaryInterfaces (network policy)).
Proof.
  unfold unInstall_backward. rewrite !filter_app.
  rewrite root_unInstall_on_INPUT. cbn. now rewrite app_nil_r.
Qed.

(** After the four commands [a], [b], [c], [d], a command of the list that
    follows them comes after [d]. *)
Lemma precedes_after_four (a b c d x : SecurityCommand) (l r : list SecurityCommand) :
  SecurityCommand_eqb d a = false -> SecurityCommand_eqb d b = false ->
  SecurityCommand_eqb d c = false ->
  SecurityCommand_eqb x a = false -> SecurityCommand_eqb x b = false ->
  SecurityCommand_eqb x c = false -> SecurityCommand_eqb x d = false ->
  In x l ->
  precedes d x (a :: b :: c :: d :: l ++ r) = true.
Proof.
  intros da db dc xa xb xc xd Hin. unfold precedes. cbn [index_of].
  rewrite da, db, dc, xa, xb, xc, xd, SecurityCommand_eqb_refl.
  destruct (index_of_In x l r Hin) as [k ->]. reflexivity.
Qed.

Lemma root_install_order (policy : Policy) :
  precedes activation_trusted activation_vital (root_install policy) = true
  /\ precedes activation_vital activation_block (root_install policy) = true
  /\ precedes activation_block activation_services (root_install policy) = true
  /\ forall i, In i (primaryInterfaces (network policy)) ->
       precedes activation_services (input_default_install i) (root_install policy) = true.
Proof.
  repeat split. intros i Hi. unfold root_install. cbn [app].
  apply (@precedes_after_four _ _ _ _ _
           (map input_default_install (primaryInterfaces (network policy))) _);
    try reflexivity.
  now apply in_map.
Qed.

Lemma root_unInstall_order (policy : Policy) (rest : list SecurityCommand) :
  precedes deactivation_trusted deactivation_vital (root_unInstall policy ++ rest) = true
  /\ precedes deactivation_vital deactivation_block (root_unInstall policy ++ rest) = true
  /\ precedes deactivation_block deactivation_services (root_unInstall policy ++ rest) = true
  /\ forall i, In i (primaryInterfaces (network policy)) ->
       precedes deactivation_services (input_default_unInstall i)
         (root_unInstall policy ++ rest) = true.
Proof.
  repeat split. intros i Hi. unfold root_unInstall.
  cbn [app]. rewrite <- app_assoc.
  apply (@precedes_after_four _ _ _ _ _
           (map input_default_unInstall (primaryInterfaces (network policy))) _);
    try reflexivity.
  now apply in_map.
Qed.

(** What the four other generators install has nothing on INPUT. *)
Lemma chains_install_off_INPUT (context : ExecutionContext Policy) (policy : Policy) :
  filter on_INPUT (vital_install policy ++ block_install ++ services_install
                   ++ trusted_install context policy) = [].
Proof.
  rewrite !filter_app, vital_install_off_INPUT, trusted_install_off_INPUT. reflexivity.
Qed.

Lemma install_forward_order (context : ExecutionContext Policy) (policy : Policy) :
  precedes activation_trusted activation_vital (install_forward context policy) = true
  /\ precedes activation_vital activation_block (install_forward context policy) = true
  /\ precedes activation_block activation_services (install_forward context policy) = true
  /\ forall i, In i (primaryInterfaces (network policy)) ->
       precedes activation_services (input_default_install i)
         (install_forward context policy) = true.
Proof.
  assert (shape : install_forward context policy
                  = (vital_install policy ++ block_install ++ services_install
                     ++ trusted_install context policy) ++ root_install policy).
  { unfold install_forward. now rewrite <- !app_assoc. }
  pose proof (chains_install_off_INPUT context policy) as Hoff.
  destruct (root_install_order policy) as (tv & vb & bs & sd).
  rewrite shape.
  repeat split; [| | |intros i Hi];
    rewrite precedes_app_off by (apply (kept_is_off _ _ Hoff); reflexivity);
    auto.
Qed.

End PrepareNetfilterOrder.

Lemma valid_direction_existsb (token : string) :
  valid_direction token ->
  existsb (String.eqb (toLowerCase token)) ["install"; "uninstall"] = true.
Proof. intros [H|H]; rewrite H; reflexivity. Qed.

Lemma existsb_valid_direction (token : string) :
  existsb (String.eqb (toLowerCase token)) ["install"; "uninstall"] = true ->
  valid_direction token.
Proof.
  cbn [existsb]. rewrite orb_false_r.
  intros H. apply orb_true_iff in H. destruct H as [H|H]; apply String.eqb_eq in H.
  - now left.
  - now right.
Qed.

Module GenericServiceFacts.
Import GenericServiceJob.

Section Runs.
Context {joi : JoiLibrary}.
Variable context : ExecutionContext Policy.
Variable raw : JSON.
Hypothesis loaded : jobConfiguration context = Unvalidated raw.

Lemma generic_run (policy : Policy) (entry : ConfigurationJob) :
  schema raw = inr policy ->
  configurationJob context = Some entry ->
  valid_direction (jobCommand_type context) ->
  let chain := or_text (chainName entry) _getServiceChainName in
  execute context =
    finish (after_run context raw policy (rules_install chain policy) (rules_unInstall chain),
            inr tt).
Proof.
  intros valid Hentry Hd. unfold execute, reset_commands, set_commands.
  cbn [jobCommand_type]. rewrite (valid_direction_existsb Hd).
  cbn [negb run_steps].
  unfold _validateConfiguration, validate_with.
  cbn [jobConfiguration]. rewrite loaded, valid.
  unfold _generateRules, generate_with, service_chainName, set_validated.
  cbn [jobConfiguration configurationJob]. rewrite Hentry.
  unfold concat_commands, set_commands, after_run.
  cbn [jobConfiguration commands install unInstall
       configuration configurationJob rawJobConfiguration jobCommand_type app].
  rewrite <- Hentry. reflexivity.
Qed.

(** Without the entry of the job in the context the generation throws. *)
Lemma generic_run_without_entry (policy : Policy) :
  schema raw = inr policy ->
  configurationJob context = None ->
  valid_direction (jobCommand_type context) ->
  snd (execute context) = inl (TypeError "Cannot read property 'chainName' of undefined").
Proof.
  intros valid Hentry Hd. unfold execute, reset_commands, set_commands.
  cbn [jobCommand_type]. rewrite (valid_direction_existsb Hd).
  cbn [negb run_steps].
  unfold _validateConfiguration, validate_with.
  cbn [jobConfiguration]. rewrite loaded, valid.
  unfold _generateRules, generate_with, service_chainName, set_validated.
  cbn [jobConfiguration configurationJob]. rewrite Hentry.
  reflexivity.
Qed.

End Runs.
End GenericServiceFacts.

Module DockerDnsServiceFacts.
Import DockerDnsServiceJob.

Section Runs.
Context {joi : JoiLibrary}.
Variable context : ExecutionContext Policy.
Variable raw : JSON.
Hypothesis loaded : jobConfiguration context = Unvalidated raw.

Lemma dns_run (policy : Policy) :
  schema raw = inr policy ->
  valid_direction (jobCommand_type context) ->
  let chain := service_chainName policy in
  execute context =
    finish (after_run context raw policy
              (rules_install chain policy) (rules_unInstall chain policy), inr tt).
Proof.
  intros valid Hd. unfold execute, reset_commands, set_commands.
  cbn [jobCommand_type]. rewrite (valid_direction_existsb Hd).
  cbn [negb run_steps].
  unfold _validateConfiguration, validate_with.
  cbn [jobConfiguration]. rewrite loaded, valid.
  unfold _generateRules, generate_with, set_validated.
  cbn [jobConfiguration].
  unfold concat_commands, set_commands, after_run.
  cbn [jobConfiguration commands install unInstall
       configuration configurationJob rawJobConfiguration jobCommand_type app].
  reflexivity.
Qed.

End Runs.
End DockerDnsServiceFacts.

Module SynchronizeBlacklistFacts.
Import SynchronizeBlacklistIps.

Section Runs.
Context {joi : JoiLibrary} {db : DataSource}.
Variable context : ExecutionContext Policy.
Variable raw : JSON.
Hypothesis loaded : jobConfiguration context = Unvalidated raw.

Lemma blacklist_run (policy : Policy) (result : list NetworkItem) :
  schema raw = inr policy ->
  query_blacklist_networks (database_connectionString policy) = inr result ->
  valid_direction (jobCommand_type context) ->
  execute context =
    finish (after_run context raw policy (map block_add result) [flush_block_net], inr tt).
Proof.
  intros valid Hq Hd. unfold execute, reset_commands, set_commands.
  cbn [jobCommand_type].
  assert (Hrun : finish (run_steps ([validateConfiguration] ++ [fetchNetworks])
                  {| jobCommand_type := jobCommand_type context;
                     configuration := configuration context;
                     configurationJob := configurationJob context;
                     jobConfiguration := jobConfiguration context;
                     rawJobConfiguration := rawJobConfiguration context;
                     commands := {| install := []; unInstall := [] |} |})
                = finish (after_run context raw policy (map block_add result)
                            [flush_block_net], inr tt)).
  { cbn [app run_steps]. unfold validateConfiguration, validate_with.
    cbn [jobConfiguration]. rewrite loaded, valid.
    unfold fetchNetworks, set_validated. cbn [jobConfiguration]. rewrite Hq.
    reflexivity. }
  destruct Hd as [Hd|Hd]; rewrite Hd; cbn [String.eqb Ascii.eqb Bool.eqb]; exact Hrun.
Qed.

(** A failure of the data source is the rejection of [execute], as it is. *)
Lemma blacklist_run_data_source_error (policy : Policy) (message : string) :
  schema raw = inr policy ->
  query_blacklist_networks (database_connectionString policy) = inl message ->
  valid_direction (jobCommand_type context) ->
  snd (execute context) = inl (DataSourceError message).
Proof.
  intros valid Hq Hd. unfold execute, reset_commands, set_commands.
  cbn [jobCommand_type].
  destruct Hd as [Hd|Hd]; rewrite Hd; cbn [String.eqb Ascii.eqb Bool.eqb app run_steps];
    unfold validateConfiguration, validate_with;
    cbn [jobConfiguration]; rewrite loaded, valid;
    unfold fetchNetworks, set_validated; cbn [jobConfiguration]; rewrite Hq;
    reflexivity.
Qed.

End Runs.
End SynchronizeBlacklistFacts.

(* ------------------------------------------------------------------------- *)
(** ** Rejections *)

Lemma validation_is_not_direction (message : string) :
  ~ InvalidDirectionError (IllegalArgumentError ("Invalid configuration: " ++ message)).
Proof. intros [t H]. cbn in H. discriminate H. Qed.

Lemma type_error_is_not_direction (message : string) :
  ~ InvalidDirectionError (TypeError message).
Proof. intros [t H]. discriminate H. Qed.

Lemma data_source_error_is_not_direction (message : string) :
  ~ InvalidDirectionError (DataSourceError message).
Proof. intros [t H]. discriminate H. Qed.

Lemma not_valid_direction (token : string) :
  ~ valid_direction token ->
  (toLowerCase token =? "install")%string = false
  /\ (toLowerCase token =? "uninstall")%string = false.
Proof.
  intros H. split; apply String.eqb_neq; intros E; apply H; [now left|now right].
Qed.

Lemma not_valid_direction_existsb (token : string) :
  ~ valid_direction token ->
  existsb (String.eqb (toLowerCase token)) ["install"; "uninstall"] = false.
Proof.
  intros H. destruct (not_valid_direction H) as [H1 H2].
  cbn [existsb]. now rewrite H1, H2.
Qed.

(** The steps of a workflow that starts with a validation that fails. *)
Lemma run_steps_invalid {C} (schema : JSON -> JoiResult C) (as_object : C -> JSON)
  (rest : list (Step C))
  (context : ExecutionContext C) (raw : JSON) (message : string) :
  jobConfiguration context = Unvalidated raw ->
  schema raw = inl message ->
  finish (run_steps (validate_with schema as_object :: rest) (reset_commands context)) =
  (reset_commands context,
   inl (IllegalArgumentError ("Invalid configuration: " ++ message))).
Proof.
  intros loaded invalid. cbn [run_steps]. unfold validate_with, reset_commands, set_commands.
  cbn [jobConfiguration]. rewrite loaded, invalid. reflexivity.
Qed.

Lemma validate_with_never_direction_error {C} (schema : JSON -> JoiResult C)
  (as_object : C -> JSON) :
  never_direction_error (validate_with schema as_object).
Proof.
  intros context context' e. unfold validate_with.
  destruct (jobConfiguration context) as [raw|c].
  - destruct (schema raw) as [m|c]; intros H; inversion H; subst.
    apply validation_is_not_direction.
  - destruct (schema (as_object c)) as [m|c']; intros H; inversion H; subst.
    apply validation_is_not_direction.
Qed.

Lemma generate_with_never_direction_error {C}
  (generate : ExecutionContext C -> C -> Promise (list SecurityCommand * list SecurityCommand)) :
  (forall context c e, generate context c = inl e -> ~ InvalidDirectionError e) ->
  never_direction_error (generate_with generate).
Proof.
  intros Hg context context' e. unfold generate_with.
  destruct (jobConfiguration context) as [raw|c].
  - intros H; inversion H; subst. apply type_error_is_not_direction.
  - destruct (generate context c) as [e'|[i u]] eqn:E; intros H; inversion H; subst.
    eapply Hg; eassumption.
Qed.

Lemma run_steps_never_direction_error {C} (steps : list (Step C)) :
  Forall never_direction_error steps ->
  forall context context' e,
    finish (run_steps steps context) = (context', inl e) -> ~ InvalidDirectionError e.
Proof.
  induction 1 as [|step rest Hstep _ IH]; intros context context' e.
  - cbn. intros H; inversion H.
  - cbn [run_steps]. destruct (step context) as [c1 [e1|[]]] eqn:E.
    + cbn. intros H; inversion H; subst. eapply Hstep; eassumption.
    + apply IH.
Qed.

Module Rejections.

Section Prepare.
Import PrepareNetfilterJob.
Context {joi : JoiLibrary}.
Variable context : ExecutionContext Policy.

Lemma prepare_invalid_policy (raw : JSON) (message : string) :
  jobConfiguration context = Unvalidated raw ->
  schema raw = inl message ->
  valid_direction (jobCommand_type context) ->
  execute context =
    (reset_commands context,
     inl (IllegalArgumentError ("Invalid configuration: " ++ message))).
Proof.
  intros loaded invalid Hd. unfold execute. cbv zeta.
  change (jobCommand_type (reset_commands context)) with (jobCommand_type context).
  destruct Hd as [Hd|Hd]; rewrite Hd; cbn [String.eqb Ascii.eqb Bool.eqb app];
    exact (run_steps_invalid _ _ _ _ loaded invalid).
Qed.

Lemma prepare_invalid_direction :
  ~ valid_direction (jobCommand_type context) ->
  execute context =
    (reset_commands context,
     inl (IllegalArgumentError ("Invalid command " ++ jobCommand_type context))).
Proof.
  intros Hd. destruct (not_valid_direction Hd) as [H1 H2].
  unfold execute. cbv zeta.
  change (jobCommand_type (reset_commands context)) with (jobCommand_type context).
  now rewrite H1, H2.
Qed.

Lemma prepare_valid_direction_rejection (e : JobError) :
  valid_direction (jobCommand_type context) ->
  snd (execute context) = inl e -> ~ InvalidDirectionError e.
Proof.
  intros Hd. unfold execute. cbv zeta.
  change (jobCommand_type (reset_commands context)) with (jobCommand_type context).
  destruct Hd as [Hd|Hd]; rewrite Hd; cbn [String.eqb Ascii.eqb Bool.eqb];
    match goal with |- snd ?r = _ -> _ => destruct r as [c' p] eqn:E end;
    cbn [snd]; intros ->;
    (eapply run_steps_never_direction_error; [|exact E]);
    repeat constructor;
    try apply validate_with_never_direction_error;
    apply generate_with_never_direction_error; intros ? ? ? H; inversion H.
Qed.

End Prepare.

Section Generic.
Import GenericServiceJob.
Context {joi : JoiLibrary}.
Variable context : ExecutionContext Policy.

Lemma generic_invalid_policy (raw : JSON) (message : string) :
  jobConfiguration context = Unvalidated raw ->
  schema raw = inl message ->
  valid_direction (jobCommand_type context) ->
  execute context =
    (reset_commands context,
     inl (IllegalArgumentError ("Invalid configuration: " ++ message))).
Proof.
  intros loaded invalid Hd. unfold execute. cbv zeta.
  change (jobCommand_type (reset_commands context)) with (jobCommand_type context).
  rewrite (valid_direction_existsb Hd). cbn [negb].
  exact (run_steps_invalid _ _ _ _ loaded invalid).
Qed.

Lemma generic_invalid_direction :
  ~ valid_direction (jobCommand_type context) ->
  execute context =
    (reset_commands context,
     inl (IllegalArgumentError ("Invalid command " ++ jobCommand_type context))).
Proof.
  intros Hd. unfold execute. cbv zeta.
  change (jobCommand_type (reset_commands context)) with (jobCommand_type context).
  now rewrite (not_valid_direction_existsb Hd).
Qed.

Lemma generic_valid_direction_rejection (e : JobError) :
  valid_direction (jobCommand_type context) ->
  snd (execute context) = inl e -> ~ InvalidDirectionError e.
Proof.
  intros Hd. unfold execute. cbv zeta.
  change (jobCommand_type (reset_commands context)) with (jobCommand_type context).
  rewrite (valid_direction_existsb Hd). cbn [negb].
  match goal with |- snd ?r = _ -> _ => destruct r as [c' p] eqn:E end.
  cbn [snd]. intros ->.
  eapply run_steps_never_direction_error; [|exact E].
  repeat constructor.
  - apply validate_with_never_direction_error.
  - apply generate_with_never_direction_error. intros c p e'. unfold service_chainName.
    destruct (configurationJob c); intros H; inversion H; subst.
    apply type_error_is_not_direction.
Qed.

End Generic.

Section DockerDns.
Import DockerDnsServiceJob.
Context {joi : JoiLibrary}.
Variable context : ExecutionContext Policy.

Lemma dns_invalid_policy (raw : JSON) (message : string) :
  jobConfiguration context = Unvalidated raw ->
  schema raw = inl message ->
  valid_direction (jobCommand_type context) ->
  execute context =
    (reset_commands context,
     inl (IllegalArgumentError ("Invalid configuration: " ++ message))).
Proof.
  intros loaded invalid Hd. unfold execute. cbv zeta.
  change (jobCommand_type (reset_commands context)) with (jobCommand_type context).
  rewrite (valid_direction_existsb Hd). cbn [negb].
  exact (run_steps_invalid _ _ _ _ loaded invalid).
Qed.

Lemma dns_invalid_direction :
  ~ valid_direction (jobCommand_type context) ->
  execute context =
    (reset_commands context,
     inl (IllegalArgumentError ("Invalid command " ++ jobCommand_type context))).
Proof.
  intros Hd. unfold execute. cbv zeta.
  change (jobCommand_type (reset_commands context)) with (jobCommand_type context).
  now rewrite (not_valid_direction_existsb Hd).
Qed.

Lemma dns_valid_direction_rejection (e : JobError) :
  valid_direction (jobCommand_type context) ->
  snd (execute context) = inl e -> ~ InvalidDirectionError e.
Proof.
  intros Hd. unfold execute. cbv zeta.
  change (jobCommand_type (reset_commands context)) with (jobCommand_type context).
  rewrite (valid_direction_existsb Hd). cbn [negb].
  match goal with |- snd ?r = _ -> _ => destruct r as [c' p] eqn:E end.
  cbn [snd]. intros ->.
  eapply run_steps_never_direction_error; [|exact E].
  repeat constructor.
  - apply validate_with_never_direction_error.
  - apply generate_with_never_direction_error. intros c p e' H. inversion H.
Qed.

End DockerDns.

Section Blacklist.
Import SynchronizeBlacklistIps.
Context {joi : JoiLibrary} {db : DataSource}.
Variable context : ExecutionContext Policy.

Lemma blacklist_invalid_policy (raw : JSON) (message : string) :
  jobConfiguration context = Unvalidated raw ->
  schema raw = inl message ->
  valid_direction (jobCommand_type context) ->
  execute context =
    (reset_commands context,
     inl (IllegalArgumentError ("Invalid configuration: " ++ message))).
Proof.
  intros loaded invalid Hd. unfold execute. cbv zeta.
  change (jobCommand_type (reset_commands context)) with (jobCommand_type context).
  destruct Hd as [Hd|Hd]; rewrite Hd; cbn [String.eqb Ascii.eqb Bool.eqb app];
    exact (run_steps_invalid _ _ _ _ loaded invalid).
Qed.

Lemma blacklist_invalid_direction :
  ~ valid_direction (jobCommand_type context) ->
  execute context =
    (reset_commands context,
     inl (IllegalArgumentError ("Invalid command " ++ jobCommand_type context))).
Proof.
  intros Hd. destruct (not_valid_direction Hd) as [H1 H2].
  unfold execute. cbv zeta.
  change (jobCommand_type (reset_commands context)) with (jobCommand_type context).
  now rewrite H1, H2.
Qed.

Lemma fetchNetworks_never_direction_error : never_direction_error fetchNetworks.
Proof.
  intros c c' e. unfold fetchNetworks.
  destruct (jobConfiguration c) as [raw|p].
  - intros H; inversion H; subst. apply type_error_is_not_direction.
  - destruct (query_blacklist_networks (database_connectionString p));
      intros H; inversion H; subst.
    apply data_source_error_is_not_direction.
Qed.

Lemma blacklist_valid_direction_rejection (e : JobError) :
  valid_direction (jobCommand_type context) ->
  snd (execute context) = inl e -> ~ InvalidDirectionError e.
Proof.
  intros Hd. unfold execute. cbv zeta.
  change (jobCommand_type (reset_commands context)) with (jobCommand_type context).
  destruct Hd as [Hd|Hd]; rewrite Hd; cbn [String.eqb Ascii.eqb Bool.eqb];
    match goal with |- snd ?r = _ -> _ => destruct r as [c' p] eqn:E end;
    cbn [snd]; intros ->;
    (eapply run_steps_never_direction_error; [|exact E]);
    repeat constructor;
    first [ apply validate_with_never_direction_error
          | apply fetchNetworks_never_direction_error ].
Qed.

End Blacklist.
End Rejections.

(* ------------------------------------------------------------------------- *)
(** ** What the transcripts build and tear down *)

(** A permutation of two lists given in full: each head is looked up in the
    other list. *)
Ltac permutation_by_lookup :=
  lazymatch goal with
  | |- Permutation [] [] => apply perm_nil
  | |- @Permutation ?T (?a :: ?l) ?r =>
      let rec search pre post :=
        lazymatch post with
        | a :: ?post' =>
            apply (@Permutation_cons_app T l pre post' a); cbn [app];
            permutation_by_lookup
        | ?b :: ?post' =>
            let pre' := eval cbn [app] in (app pre (cons b nil)) in
            search pre' post'
        end in
      search (@nil T) r
  end.

Module Symmetry.

Section Prepare.
Import PrepareNetfilterJob PrepareNetfilterFacts.
Variable context : ExecutionContext Policy.
Variable policy : Policy.

Lemma vital_interface_rules_build_nothing (i : PrimaryInterface) :
  filter_map created_chain (vital_interface_rules vital_chainName i) = []
  /\ filter_map created_set (vital_interface_rules vital_chainName i) = []
  /\ filter_map inserted_link (vital_interface_rules vital_chainName i) = [].
Proof.
  unfold vital_interface_rules. rewrite !filter_map_app, !filter_map_flat_map.
  rewrite !flat_map_nil by (intros; reflexivity).
  repeat split; reflexivity.
Qed.

Lemma vital_install_builds :
  filter_map created_chain (vital_install policy) = ["IN_vital_access_0"; "OUT_vital_access_0"]
  /\ filter_map created_set (vital_install policy) = []
  /\ filter_map inserted_link (vital_install policy) = [].
Proof.
  unfold vital_install. rewrite !filter_map_app, !filter_map_flat_map.
  rewrite !flat_map_nil by (intros i; apply vital_interface_rules_build_nothing).
  repeat split; reflexivity.
Qed.

Lemma trusted_install_builds :
  filter_map created_chain (trusted_install context policy)
    = ["IN_trusted_access_0"; "OUT_trusted_access_0"]
  /\ filter_map created_set (trusted_install context policy) = ["trusted_net"]
  /\ filter_map inserted_link (trusted_install context policy) = [].
Proof.
  unfold trusted_install. rewrite !filter_map_app.
  rewrite !filter_map_map_none by (intros; reflexivity).
  repeat split; reflexivity.
Qed.

Lemma root_install_builds :
  filter_map created_chain (root_install policy) = []
  /\ filter_map created_set (root_install policy) = []
  /\ filter_map inserted_link (root_install policy) = root_links policy.
Proof.
  unfold root_install, root_links. rewrite !filter_map_app.
  rewrite !filter_map_map_none by (intros; reflexivity).
  rewrite (filter_map_map inserted_link input_default_install input_default_link)
    by (intros; reflexivity).
  repeat split; reflexivity.
Qed.

Lemma root_unInstall_tears_down :
  filter_map destroyed_chain (root_unInstall policy) = []
  /\ filter_map flushed_chain (root_unInstall policy) = []
  /\ filter_map destroyed_set (root_unInstall policy) = []
  /\ filter_map deleted_link (root_unInstall policy) = root_links policy.
Proof.
  unfold root_unInstall, root_links. rewrite !filter_map_app.
  rewrite !filter_map_map_none by (intros; reflexivity).
  rewrite (filter_map_map deleted_link input_default_unInstall input_default_link)
    by (intros; reflexivity).
  repeat split; reflexivity.
Qed.

Lemma install_forward_builds :
  filter_map created_chain (install_forward context policy)
    = [ "IN_vital_access_0"; "OUT_vital_access_0"; "IN_block_access_0";
        "IN_services_access_0"; "OUT_services_access_0";
        "IN_trusted_access_0"; "OUT_trusted_access_0" ]
  /\ filter_map created_set (install_forward context policy) = ["block_net"; "trusted_net"]
  /\ filter_map inserted_link (install_forward context policy) = root_links policy.
Proof.
  destruct vital_install_builds as (v1 & v2 & v3).
  destruct trusted_install_builds as (t1 & t2 & t3).
  destruct root_install_builds as (r1 & r2 & r3).
  unfold install_forward. rewrite !filter_map_app.
  rewrite v1, v2, v3, t1, t2, t3, r1, r2, r3.
  repeat split; reflexivity.
Qed.

Lemma unInstall_backward_tears_down :
  filter_map destroyed_chain (unInstall_backward policy)
    = [ "IN_trusted_access_0"; "OUT_trusted_access_0";
        "IN_services_access_0"; "OUT_services_access_0"; "IN_block_access_0";
        "IN_vital_access_0"; "OUT_vital_access_0" ]
  /\ filter_map flushed_chain (unInstall_backward policy)
    = [ "IN_trusted_access_0"; "OUT_trusted_access_0";
        "IN_services_access_0"; "OUT_services_access_0"; "IN_block_access_0";
        "IN_vital_access_0"; "OUT_vital_access_0" ]
  /\ filter_map destroyed_set (unInstall_backward policy) = ["trusted_net"; "block_net"]
  /\ filter_map deleted_link (unInstall_backward policy) = root_links policy.
Proof.
  destruct root_unInstall_tears_down as (r1 & r2 & r3 & r4).
  unfold unInstall_backward. rewrite !filter_map_app.
  rewrite r1, r2, r3, r4.
  repeat split; cbn; now rewrite ?app_nil_r.
Qed.

Lemma prepare_symmetric :
  symmetric (install_forward context policy) (unInstall_backward policy).
Proof.
  destruct install_forward_builds as (i1 & i2 & i3).
  destruct unInstall_backward_tears_down as (u1 & u2 & u3 & u4).
  unfold symmetric. rewrite i1, i2, i3, u1, u2, u3, u4.
  repeat split; try permutation_by_lookup. apply Permutation_refl.
Qed.

End Prepare.

Section Generic.
Import GenericServiceJob.
Variable chain : string.
Variable policy : Policy.

Lemma item_rules_build_nothing (item : Item) :
  filter_map created_chain (item_rules chain item) = []
  /\ filter_map created_set (item_rules chain item) = []
  /\ filter_map inserted_link (item_rules chain item) = [].
Proof.
  unfold item_rules. destruct (length (or_empty (sourceNetworks item)) =? 0)%nat.
  - repeat split; reflexivity.
  - rewrite !filter_map_map_none by (intros; reflexivity). repeat split.
Qed.

Lemma generic_symmetric :
  symmetric (rules_install chain policy) (rules_unInstall chain).
Proof.
  unfold symmetric, rules_install. rewrite !filter_map_app, !filter_map_flat_map.
  rewrite !flat_map_nil by (intros i; apply item_rules_build_nothing).
  repeat split; apply Permutation_refl.
Qed.

End Generic.

Section DockerDns.
Import DockerDnsServiceJob.
Variable chain : string.
Variable policy : Policy.

Lemma item_install_builds (item : Item) :
  filter_map created_chain (item_install chain item) = []
  /\ filter_map created_set (item_install chain item) = []
  /\ filter_map inserted_link (item_install chain item)
     = filter_map deleted_link (item_unInstall item).
Proof. repeat split; reflexivity. Qed.

Lemma item_unInstall_tears_down (item : Item) :
  filter_map destroyed_chain (item_unInstall item) = []
  /\ filter_map flushed_chain (item_unInstall item) = []
  /\ filter_map destroyed_set (item_unInstall item) = [].
Proof. repeat split; reflexivity. Qed.

Lemma dns_symmetric :
  symmetric (rules_install chain policy) (rules_unInstall chain policy).
Proof.
  unfold symmetric, rules_install, rules_unInstall.
  rewrite !filter_map_app, !filter_map_flat_map.
  rewrite !flat_map_nil by (intros i; first [ apply item_install_builds
                                            | apply item_unInstall_tears_down ]).
  rewrite (flat_map_ext _ _ (fun i => proj2 (proj2 (item_install_builds i)))).
  repeat split; try apply Permutation_refl.
  cbn. apply (Permutation_app_comm _ [_; _]).
Qed.

End DockerDns.

Section Blacklist.
Import SynchronizeBlacklistIps SynchronizeBlacklistFacts.

Lemma blacklist_symmetric (result : list NetworkItem) :
  symmetric (map block_add result) [flush_block_net].
Proof.
  unfold symmetric. rewrite !filter_map_map_none by (intros; reflexivity).
  repeat split; apply perm_nil.
Qed.

End Blacklist.
End Symmetry.

(* ------------------------------------------------------------------------- *)
(** ** Validation and responses *)

(** What [execute] resolves to after a run whose steps all resolved. *)
Lemma finish_install {C} (context : ExecutionContext C) (raw : JSON) (policy : C)
  (i u : list SecurityCommand) :
  jobCommand_type context = "install" ->
  snd (finish (after_run context raw policy i u, inr tt)) = inr {| securityCommands := i |}.
Proof.
  intros H. unfold finish, response, after_run. cbn [snd jobCommand_type commands install].
  now rewrite H.
Qed.

Lemma finish_other {C} (context : ExecutionContext C) (raw : JSON) (policy : C)
  (i u : list SecurityCommand) :
  jobCommand_type context <> "install" ->
  snd (finish (after_run context raw policy i u, inr tt)) = inr {| securityCommands := u |}.
Proof.
  intros H. apply String.eqb_neq in H.
  unfold finish, response, after_run. cbn [snd jobCommand_type commands unInstall].
  now rewrite H.
Qed.

Lemma finish_context {C} (context : ExecutionContext C) (raw : JSON) (policy : C)
  (i u : list SecurityCommand) :
  fst (finish (after_run context raw policy i u, inr tt)) = after_run context raw policy i u.
Proof. reflexivity. Qed.

Lemma valid_direction_dec (token : string) :
  {valid_direction token} + {~ valid_direction token}.
Proof.
  destruct (existsb (String.eqb (toLowerCase token)) ["install"; "uninstall"]) eqn:E.
  - left. now apply existsb_valid_direction.
  - right. intros H. apply valid_direction_existsb in H. congruence.
Qed.

(** An array with an element the schema of its items rejects is rejected. *)
Lemma Joi_items_rejects {A} (schema : JSON -> JoiResult A) (elements : list JSON)
  (e : JSON) (message : string) :
  In e elements -> schema e = inl message ->
  exists message', Joi_items schema elements = inl message'.
Proof.
  induction elements as [|x r IH]; intros Hin He; [destruct Hin|].
  cbn [Joi_items]. unfold joi_bind at 1. destruct (schema x) as [m|a] eqn:Ex.
  - now exists m.
  - destruct Hin as [->|Hin]; [congruence|].
    destruct (IH Hin He) as [m' Hm']. unfold joi_bind. rewrite Hm'. now exists m'.
Qed.

(** The validated elements of an array are those of the array, one for one. *)
Lemma Joi_items_pointwise {A} (schema : JSON -> JoiResult A) (elements : list JSON)
  (validated : list A) :
  Joi_items schema elements = inr validated ->
  Forall2 (fun e a => schema e = inr a) elements validated.
Proof.
  revert validated. induction elements as [|x r IH]; intros validated; cbn [Joi_items].
  - intros H; inversion H. constructor.
  - unfold joi_bind at 1. destruct (schema x) as [m|a] eqn:Ex; [discriminate|].
    unfold joi_bind. destruct (Joi_items schema r) as [m|l] eqn:Er; [discriminate|].
    intros H; inversion H; subst. constructor; [assumption|now apply IH].
Qed.

(** The items of a validated policy of the generic service job are the items
    of the policy, validated one by one. *)
Lemma generic_validated_items (joi : JoiLibrary)
  (root network : list (string * JSON)) (elements : list JSON)
  (policy : GenericServiceJob.Policy) :
  GenericServiceJob.schema (JObj root) = inr policy ->
  property "network" root = Some (JObj network) ->
  property "items" network = Some (JArr elements) ->
  Forall2 (fun e item => GenericServiceJob.item_schema e = inr item)
    elements (GenericServiceJob.network_items policy).
Proof.
  intros valid Hnetwork Hitems. revert valid.
  unfold GenericServiceJob.schema. cbn [Joi_object joi_bind].
  destruct (optional Joi_string (property "chainName" root)) as [m|chain]; [discriminate|].
  rewrite Hnetwork. cbn [required]. unfold GenericServiceJob.network_schema.
  cbn [Joi_object joi_bind]. rewrite Hitems. cbn [required Joi_array joi_bind].
  destruct (Joi_items GenericServiceJob.item_schema elements) as [m|items] eqn:E;
    [discriminate|].
  intros H; inversion H; subst. cbn. now apply Joi_items_pointwise.
Qed.

(** The same for the docker DNS job. *)
Lemma dns_validated_items (joi : JoiLibrary)
  (root network : list (string * JSON)) (elements : list JSON)
  (policy : DockerDnsServiceJob.Policy) :
  DockerDnsServiceJob.schema (JObj root) = inr policy ->
  property "network" root = Some (JObj network) ->
  property "items" network = Some (JArr elements) ->
  Forall2 (fun e item => DockerDnsServiceJob.item_schema e = inr item)
    elements (DockerDnsServiceJob.network_items policy).
Proof.
  intros valid Hnetwork Hitems. revert valid.
  unfold DockerDnsServiceJob.schema. cbn [Joi_object joi_bind].
  destruct (optional Joi_string (property "chainName" root)) as [m|chain]; [discriminate|].
  rewrite Hnetwork. cbn [required]. unfold DockerDnsServiceJob.network_schema.
  cbn [Joi_object joi_bind]. rewrite Hitems. cbn [required Joi_array joi_bind].
  destruct (Joi_items DockerDnsServiceJob.item_schema elements) as [m|items] eqn:E;
    [discriminate|].
  intros H; inversion H; subst. cbn. now apply Joi_items_pointwise.
Qed.

(** The generic service job rejects a policy with an item that has no
    [portNumber]. *)
Lemma generic_schema_requires_portNumber (joi : JoiLibrary)
  (root network : list (string * JSON)) (elements : list JSON)
  (fields : list (string * JSON)) :
  property "network" root = Some (JObj network) ->
  property "items" network = Some (JArr elements) ->
  In (JObj fields) elements ->
  property "portNumber" fields = None ->
  exists message, GenericServiceJob.schema (JObj root) = inl message.
Proof.
  intros Hnetwork Hitems Hin Hport.
  destruct (@Joi_items_rejects _ GenericServiceJob.item_schema elements (JObj fields)
              "is required" Hin) as [m Hm].
  { unfold GenericServiceJob.item_schema. cbn [Joi_object joi_bind]. now rewrite Hport. }
  unfold GenericServiceJob.schema. cbn [Joi_object joi_bind].
  destruct (optional Joi_string (property "chainName" root)) as [m'|chain]; [now exists m'|].
  rewrite Hnetwork. cbn [required]. unfold GenericServiceJob.network_schema.
  cbn [Joi_object joi_bind]. rewrite Hitems. cbn [required Joi_array joi_bind].
  rewrite Hm. now exists m.
Qed.

Module TrustedOrder.
Import PrepareNetfilterJob PrepareNetfilterFacts.

Lemma vital_install_adds_nothing (policy : Policy) :
  filter adds_to_trusted_net (vital_install policy) = [].
Proof.
  unfold vital_install. rewrite !filter_app.
  rewrite filter_flat_map_nil; [reflexivity|].
  intros i. unfold vital_interface_rules. rewrite filter_app.
  rewrite filter_flat_map_nil; [reflexivity|].
  intros n. reflexivity.
Qed.

Lemma trusted_install_adds (context : ExecutionContext Policy) (policy : Policy) :
  filter adds_to_trusted_net (trusted_install context policy)
  = map trusted_add (trustedNetworks context policy).
Proof.
  unfold trusted_install. rewrite !filter_app.
  rewrite filter_map_all by (intros n; reflexivity).
  cbn. now rewrite app_nil_r.
Qed.

Lemma root_install_adds_nothing (policy : Policy) :
  filter adds_to_trusted_net (root_install policy) = [].
Proof.
  unfold root_install. rewrite !filter_app.
  rewrite filter_map_none by (intros i; reflexivity).
  reflexivity.
Qed.

Lemma install_forward_adds (context : ExecutionContext Policy) (policy : Policy) :
  filter adds_to_trusted_net (install_forward context policy)
  = map trusted_add (trustedNetworks context policy).
Proof.
  unfold install_forward. rewrite !filter_app.
  rewrite vital_install_adds_nothing, trusted_install_adds, root_install_adds_nothing.
  cbn. now rewrite app_nil_r.
Qed.

End TrustedOrder.

(** The example policy of the generic service job is valid when Joi accepts its
    two networks. *)
Lemma example_service_policy_valid (joi : JoiLibrary) :
  ip_matches cidr_optional "10.0.0.0/8" = true ->
  ip_matches cidr_optional "10.1.0.0/16" = true ->
  GenericServiceJob.schema example_service_policy =
  inr {| GenericServiceJob.policy_chainName := None;
         GenericServiceJob.network_items :=
           [ {| GenericServiceJob.portNumber := 443;
                GenericServiceJob.sourceNetworks := Value ["10.0.0.0/8"; "10.1.0.0/16"];
                GenericServiceJob.protocol := "tcp";
                GenericServiceJob.destinationNetwork := Undefined |} ] |}.
Proof.
  intros H1 H2. unfold GenericServiceJob.schema, example_service_policy.
  cbn. unfold Joi_string_ip. cbn. now rewrite H1, H2.
Qed.

(** The validated item of a mapping without [sourcePortNumber] has the port
    53. *)
Lemma dns_item_default_port (joi : JoiLibrary) (fields : list (string * JSON))
  (item : DockerDnsServiceJob.Item) :
  property "sourcePortNumber" fields = None ->
  DockerDnsServiceJob.item_schema (JObj fields) = inr item ->
  DockerDnsServiceJob.sourcePortNumber item = 53%Z.
Proof.
  intros Hport. unfold DockerDnsServiceJob.item_schema.
  cbn [Joi_object joi_bind]. rewrite Hport. cbn [default].
  destruct (required Joi_string (property "sourceLinkName" fields)); [discriminate|].
  destruct (required (Joi_string_ip cidr_forbidden) (property "sourceIpAddress" fields));
    [discriminate|].
  destruct (required Joi_number (property "destinationPortNumber" fields)); [discriminate|].
  destruct (optional_allow_null (Joi_string_ip cidr_forbidden)
              (property "destinationIpAddress" fields)); [discriminate|].
  intros H. inversion H. reflexivity.
Qed.

(** The docker DNS job names its chains after the [chainName] of the validated
    policy when there is one. *)
Lemma dns_chain_name_from_policy (joi : JoiLibrary) (raw : JSON)
  (policy : DockerDnsServiceJob.Policy) (chain : string) :
  DockerDnsServiceJob.schema raw = inr policy ->
  DockerDnsServiceJob.policy_chainName policy = Some chain ->
  DockerDnsServiceJob.service_chainName policy = chain.
Proof.
  unfold DockerDnsServiceJob.schema, DockerDnsServiceJob.service_chainName.
  destruct (Joi_object raw) as [m|fields]; cbn [joi_bind]; [discriminate|].
  unfold optional. destruct (property "chainName" fields) as [j|]; cbn [joi_bind].
  - unfold Joi_string. destruct j; cbn [joi_bind]; try discriminate.
    destruct (String.eqb_spec s ""); cbn [joi_bind]; [discriminate|].
    destruct (required DockerDnsServiceJob.network_schema (property "network" fields));
      cbn [joi_bind]; [discriminate|].
    intros H; inversion H; subst. cbn. intros H'; inversion H'; subst.
    unfold or_string. destruct (String.eqb_spec chain ""); [contradiction|reflexivity].
  - destruct (required DockerDnsServiceJob.network_schema (property "network" fields));
      cbn [joi_bind]; [discriminate|].
    intros H; inversion H; subst. cbn. discriminate.
Qed.

(** The generic service job names its chains after the entry of the job, whatever
    the [chainName] of the policy. *)
Lemma generic_chain_name_from_entry (joi : JoiLibrary)
  (context : ExecutionContext GenericServiceJob.Policy) (raw : JSON)
  (policy : GenericServiceJob.Policy) (entry : ConfigurationJob) :
  jobConfiguration context = Unvalidated raw ->
  GenericServiceJob.schema raw = inr policy ->
  configurationJob context = Some entry ->
  chainName entry = None ->
  snd (GenericServiceJob.execute (set_jobCommand context "install"))
  = inr {| securityCommands := GenericServiceJob.rules_install "genericServiceName" policy |}.
Proof.
  intros loaded valid Hentry Hchain.
  rewrite (@GenericServiceFacts.generic_run joi (set_jobCommand context "install")
             raw loaded policy entry valid Hentry (or_introl eq_refl)).
  rewrite finish_install by reflexivity. now rewrite Hchain.
Qed.

(* ------------------------------------------------------------------------- *)
(** ** Properties of the transcripts *)

(** C1, the install half and the uninstall order as the code has it. For a
    valid policy the install transcript of prepare-netfilter has, on INPUT, the
    activation of the trusted chain, then of the vital chain, then of the block
    chain, then of the services chain, then the default action of each primary
    interface in the order of the policy, one after the other and nothing else
    on INPUT. The uninstall transcript starts with the deletions of the same
    rules in the same order (trusted, vital, block, services, then the
    defaults), and has no other command on INPUT. *)
Theorem prepare_input_wiring_order (joi : JoiLibrary)
  (context : ExecutionContext PrepareNetfilterJob.Policy) (raw : JSON)
  (policy : PrepareNetfilterJob.Policy) :
  jobConfiguration context = Unvalidated raw ->
  PrepareNetfilterJob.schema raw = inr policy ->
  let interfaces := PrepareNetfilterJob.primaryInterfaces (PrepareNetfilterJob.network policy) in
  (exists transcript before after,
     snd (PrepareNetfilterJob.execute (set_jobCommand context "install"))
       = inr {| securityCommands := transcript |}
     /\ transcript =
        before ++ input_activations
        ++ map PrepareNetfilterJob.input_default_install interfaces ++ after
     /\ filter on_INPUT transcript =
        input_activations
        ++ map PrepareNetfilterJob.input_default_install interfaces
     /\ precedes activation_trusted activation_vital transcript = true
     /\ precedes activation_vital activation_block transcript = true
     /\ precedes activation_block activation_services transcript = true
     /\ forall i, In i interfaces ->
          precedes activation_services (PrepareNetfilterJob.input_default_install i)
            transcript = true)
  /\ (exists transcript rest,
        snd (PrepareNetfilterJob.execute (set_jobCommand context "uninstall"))
          = inr {| securityCommands := transcript |}
        /\ transcript =
           input_deactivations
           ++ map PrepareNetfilterJob.input_default_unInstall interfaces ++ rest
        /\ filter on_INPUT transcript =
           input_deactivations
           ++ map PrepareNetfilterJob.input_default_unInstall interfaces
        /\ precedes deactivation_trusted deactivation_vital transcript = true
        /\ precedes deactivation_vital deactivation_block transcript = true
        /\ precedes deactivation_block deactivation_services transcript = true
        /\ forall i, In i interfaces ->
             precedes deactivation_services (PrepareNetfilterJob.input_default_unInstall i)
               transcript = true).
Proof.
  intros loaded valid interfaces. split.
  - exists (install_forward (set_jobCommand context "install") policy).
    exists (PrepareNetfilterJob.vital_install policy ++ PrepareNetfilterJob.block_install
            ++ PrepareNetfilterJob.services_install
            ++ PrepareNetfilterJob.trusted_install (set_jobCommand context "install") policy).
    eexists. split; [|split].
    + rewrite (@PrepareNetfilterFacts.run_forward joi (set_jobCommand context "install")
                 raw policy loaded valid eq_refl).
      reflexivity.
    + unfold install_forward, PrepareNetfilterJob.root_install.
      rewrite <- !app_assoc. reflexivity.
    + split; [apply PrepareNetfilterOrder.install_forward_on_INPUT|].
      apply PrepareNetfilterOrder.install_forward_order.
  - eexists. eexists. split; [|split].
    + rewrite (@PrepareNetfilterFacts.run_backward joi (set_jobCommand context "uninstall")
                 raw policy loaded valid eq_refl).
      reflexivity.
    + unfold unInstall_backward, PrepareNetfilterJob.root_unInstall.
      rewrite <- !app_assoc. reflexivity.
    + split; [apply PrepareNetfilterOrder.unInstall_backward_on_INPUT|].
      apply PrepareNetfilterOrder.root_unInstall_order.
Qed.

(** C1 as stated fails: on the example policy the uninstall transcript has the
    deletion of the trusted activation first and that of the services
    activation after it, not the reverse of the install order. *)
Lemma prepare_uninstall_order_not_reversed :
  exists transcript,
    snd (@PrepareNetfilterJob.execute example_joi (example_prepare_context "uninstall"))
      = inr {| securityCommands := transcript |}
    /\ ~ reversed_on_INPUT example_prepare_validated transcript
    /\ precedes deactivation_services deactivation_trusted transcript = false
    /\ precedes deactivation_trusted deactivation_services transcript = true.
Proof.
  eexists. split; [reflexivity|]. split; [|split].
  - unfold reversed_on_INPUT. intros H. vm_compute in H. discriminate H.
  - reflexivity.
  - reflexivity.
Qed.

(** The two orders on the example policy. *)
Lemma prepare_input_wiring_order_witness :
  (exists transcript,
     snd (@PrepareNetfilterJob.execute example_joi (example_prepare_context "install"))
       = inr {| securityCommands := transcript |}
     /\ filter on_INPUT transcript =
        [ asIptables4Command "-I INPUT 1 -j IN_trusted_access_0";
          asIptables4Command "-I INPUT 2 -j IN_vital_access_0";
          asIptables4Command "-I INPUT 3 -m set --match-set block_net src -j IN_block_access_0";
          asIptables4Command "-I INPUT 4 -j IN_services_access_0";
          asIptables4Command "-A INPUT --in-interface eth0 -j DROP" ])
  /\ (exists transcript,
     snd (@PrepareNetfilterJob.execute example_joi (example_prepare_context "uninstall"))
       = inr {| securityCommands := transcript |}
     /\ filter on_INPUT transcript =
        [ asIptables4Command "-D INPUT -j IN_trusted_access_0";
          asIptables4Command "-D INPUT -j IN_vital_access_0";
          asIptables4Command "-D INPUT -m set --match-set block_net src -j IN_block_access_0";
          asIptables4Command "-D INPUT -j IN_services_access_0";
          asIptables4Command "-D INPUT --in-interface eth0 -j DROP" ]).
Proof.
  destruct (@prepare_input_wiring_order example_joi (example_prepare_context "install")
              example_prepare_policy example_prepare_validated eq_refl eq_refl)
    as ((ti & before & after & Hi & _ & Hfi & _) & (tu & rest & Hu & _ & Hfu & _)).
  split.
  - exists ti. split; [exact Hi|exact Hfi].
  - exists tu. split; [exact Hu|exact Hfu].
Defined.

(** C2. For each of the four jobs and every valid policy, what the uninstall
    transcript tears down is, as a multiset and on the same names, what the
    install transcript builds: the chains flushed and the chains destroyed are
    the chains created, the sets destroyed are the sets created, and the links
    deleted are the links inserted (activations, and rules put in the chains of
    netfilter itself). The generic service job needs the job's entry in the
    context, and sync-blacklist-ips an answer from its data source. *)
Theorem uninstall_tears_down_what_install_builds (joi : JoiLibrary) (db : DataSource) :
  (forall (context : ExecutionContext PrepareNetfilterJob.Policy) raw policy,
      jobConfiguration context = Unvalidated raw ->
      PrepareNetfilterJob.schema raw = inr policy ->
      exists installed unInstalled,
        snd (PrepareNetfilterJob.execute (set_jobCommand context "install"))
          = inr {| securityCommands := installed |}
        /\ snd (PrepareNetfilterJob.execute (set_jobCommand context "uninstall"))
          = inr {| securityCommands := unInstalled |}
        /\ symmetric installed unInstalled)
  /\ (forall (context : ExecutionContext GenericServiceJob.Policy) raw policy entry,
      jobConfiguration context = Unvalidated raw ->
      GenericServiceJob.schema raw = inr policy ->
      configurationJob context = Some entry ->
      exists installed unInstalled,
        snd (GenericServiceJob.execute (set_jobCommand context "install"))
          = inr {| securityCommands := installed |}
        /\ snd (GenericServiceJob.execute (set_jobCommand context "uninstall"))
          = inr {| securityCommands := unInstalled |}
        /\ symmetric installed unInstalled)
  /\ (forall (context : ExecutionContext DockerDnsServiceJob.Policy) raw policy,
      jobConfiguration context = Unvalidated raw ->
      DockerDnsServiceJob.schema raw = inr policy ->
      exists installed unInstalled,
        snd (DockerDnsServiceJob.execute (set_jobCommand context "install"))
          = inr {| securityCommands := installed |}
        /\ snd (DockerDnsServiceJob.execute (set_jobCommand context "uninstall"))
          = inr {| securityCommands := unInstalled |}
        /\ symmetric installed unInstalled)
  /\ (forall (context : ExecutionContext SynchronizeBlacklistIps.Policy) raw policy result,
      jobConfiguration context = Unvalidated raw ->
      SynchronizeBlacklistIps.schema raw = inr policy ->
      query_blacklist_networks (SynchronizeBlacklistIps.database_connectionString policy)
        = inr result ->
      exists installed unInstalled,
        snd (SynchronizeBlacklistIps.execute (set_jobCommand context "install"))
          = inr {| securityCommands := installed |}
        /\ snd (SynchronizeBlacklistIps.execute (set_jobCommand context "uninstall"))
          = inr {| securityCommands := unInstalled |}
        /\ symmetric installed unInstalled).
Proof.
  repeat split.
  - intros context raw policy loaded valid. do 2 eexists. split; [|split].
    + rewrite (@PrepareNetfilterFacts.run_forward joi (set_jobCommand context "install")
                 raw policy loaded valid eq_refl).
      now apply finish_install.
    + rewrite (@PrepareNetfilterFacts.run_backward joi (set_jobCommand context "uninstall")
                 raw policy loaded valid eq_refl).
      now apply finish_other.
    + apply Symmetry.prepare_symmetric.
  - intros context raw policy entry loaded valid Hentry. do 2 eexists. split; [|split].
    + rewrite (@GenericServiceFacts.generic_run joi (set_jobCommand context "install")
                 raw loaded policy entry valid Hentry (or_introl eq_refl)).
      now apply finish_install.
    + rewrite (@GenericServiceFacts.generic_run joi (set_jobCommand context "uninstall")
                 raw loaded policy entry valid Hentry (or_intror eq_refl)).
      now apply finish_other.
    + apply Symmetry.generic_symmetric.
  - intros context raw policy loaded valid. do 2 eexists. split; [|split].
    + rewrite (@DockerDnsServiceFacts.dns_run joi (set_jobCommand context "install")
                 raw loaded policy valid (or_introl eq_refl)).
      now apply finish_install.
    + rewrite (@DockerDnsServiceFacts.dns_run joi (set_jobCommand context "uninstall")
                 raw loaded policy valid (or_intror eq_refl)).
      now apply finish_other.
    + apply Symmetry.dns_symmetric.
  - intros context raw policy result loaded valid Hq. do 2 eexists. split; [|split].
    + rewrite (@SynchronizeBlacklistFacts.blacklist_run joi db
                 (set_jobCommand context "install")
                 raw loaded policy result valid Hq (or_introl eq_refl)).
      now apply finish_install.
    + rewrite (@SynchronizeBlacklistFacts.blacklist_run joi db
                 (set_jobCommand context "uninstall")
                 raw loaded policy result valid Hq (or_intror eq_refl)).
      now apply finish_other.
    + apply Symmetry.blacklist_symmetric.
Qed.

(** The four jobs on the example policies. *)
Lemma uninstall_tears_down_what_install_builds_witness :
  (exists installed unInstalled,
      snd (@PrepareNetfilterJob.execute example_joi (example_prepare_context "install"))
        = inr {| securityCommands := installed |}
      /\ snd (@PrepareNetfilterJob.execute example_joi (example_prepare_context "uninstall"))
        = inr {| securityCommands := unInstalled |}
      /\ symmetric installed unInstalled)
  /\ (exists installed unInstalled,
      snd (@GenericServiceJob.execute example_joi
             (example_service_context "install" example_service_policy))
        = inr {| securityCommands := installed |}
      /\ snd (@GenericServiceJob.execute example_joi
                (example_service_context "uninstall" example_service_policy))
        = inr {| securityCommands := unInstalled |}
      /\ symmetric installed unInstalled)
  /\ (exists installed unInstalled,
      snd (@DockerDnsServiceJob.execute example_joi (example_dns_context "install"))
        = inr {| securityCommands := installed |}
      /\ snd (@DockerDnsServiceJob.execute example_joi (example_dns_context "uninstall"))
        = inr {| securityCommands := unInstalled |}
      /\ symmetric installed unInstalled)
  /\ (exists installed unInstalled,
      snd (@SynchronizeBlacklistIps.execute example_joi example_data_source
             (example_blacklist_context "install"))
        = inr {| securityCommands := installed |}
      /\ snd (@SynchronizeBlacklistIps.execute example_joi example_data_source
                (example_blacklist_context "uninstall"))
        = inr {| securityCommands := unInstalled |}
      /\ symmetric installed unInstalled).
Proof.
  destruct (uninstall_tears_down_what_install_builds example_joi example_data_source)
    as (prepare & generic & dns & blacklist).
  split; [|split; [|split]].
  - exact (prepare (example_prepare_context "install") _ _ eq_refl eq_refl).
  - exact (generic (example_service_context "install" example_service_policy)
             _ _ _ eq_refl eq_refl eq_refl).
  - exact (dns (example_dns_context "install") _ _ eq_refl eq_refl).
  - exact (blacklist (example_blacklist_context "install") _ _ _ eq_refl eq_refl eq_refl).
Defined.

(** C3. For each job, a policy that fails the schema of the job makes
    [execute] reject: there is no response, and the install and uninstall lists
    of the context are both empty. The rejection is the validation error
    whenever the direction is one the job accepts (otherwise the direction is
    refused first). A policy of the generic service job with an item without
    [portNumber] is such a policy. *)
Theorem invalid_policy_rejected_without_commands (joi : JoiLibrary) (db : DataSource) :
  (forall (context : ExecutionContext PrepareNetfilterJob.Policy) raw message,
      jobConfiguration context = Unvalidated raw ->
      PrepareNetfilterJob.schema raw = inl message ->
      exists e,
        snd (PrepareNetfilterJob.execute context) = inl e
        /\ commands (fst (PrepareNetfilterJob.execute context))
           = {| install := []; unInstall := [] |}
        /\ (valid_direction (jobCommand_type context) -> ValidationError e))
  /\ (forall (context : ExecutionContext GenericServiceJob.Policy) raw message,
      jobConfiguration context = Unvalidated raw ->
      GenericServiceJob.schema raw = inl message ->
      exists e,
        snd (GenericServiceJob.execute context) = inl e
        /\ commands (fst (GenericServiceJob.execute context))
           = {| install := []; unInstall := [] |}
        /\ (valid_direction (jobCommand_type context) -> ValidationError e))
  /\ (forall (context : ExecutionContext DockerDnsServiceJob.Policy) raw message,
      jobConfiguration context = Unvalidated raw ->
      DockerDnsServiceJob.schema raw = inl message ->
      exists e,
        snd (DockerDnsServiceJob.execute context) = inl e
        /\ commands (fst (DockerDnsServiceJob.execute context))
           = {| install := []; unInstall := [] |}
        /\ (valid_direction (jobCommand_type context) -> ValidationError e))
  /\ (forall (context : ExecutionContext SynchronizeBlacklistIps.Policy) raw message,
      jobConfiguration context = Unvalidated raw ->
      SynchronizeBlacklistIps.schema raw = inl message ->
      exists e,
        snd (SynchronizeBlacklistIps.execute context) = inl e
        /\ commands (fst (SynchronizeBlacklistIps.execute context))
           = {| install := []; unInstall := [] |}
        /\ (valid_direction (jobCommand_type context) -> ValidationError e))
  /\ (forall (context : ExecutionContext GenericServiceJob.Policy)
        root network elements fields,
      jobConfiguration context = Unvalidated (JObj root) ->
      property "network" root = Some (JObj network) ->
      property "items" network = Some (JArr elements) ->
      In (JObj fields) elements ->
      property "portNumber" fields = None ->
      exists e,
        snd (GenericServiceJob.execute context) = inl e
        /\ commands (fst (GenericServiceJob.execute context))
           = {| install := []; unInstall := [] |}
        /\ (valid_direction (jobCommand_type context) -> ValidationError e)).
Proof.
  assert (generic : forall (context : ExecutionContext GenericServiceJob.Policy) raw message,
      jobConfiguration context = Unvalidated raw ->
      GenericServiceJob.schema raw = inl message ->
      exists e,
        snd (GenericServiceJob.execute context) = inl e
        /\ commands (fst (GenericServiceJob.execute context))
           = {| install := []; unInstall := [] |}
        /\ (valid_direction (jobCommand_type context) -> ValidationError e)).
  { intros context raw message loaded invalid.
    destruct (valid_direction_dec (jobCommand_type context)) as [Hd|Hd].
    - rewrite (Rejections.generic_invalid_policy context loaded invalid Hd).
      eexists. split; [reflexivity|]. split; [reflexivity|]. now exists message.
    - rewrite (Rejections.generic_invalid_direction context Hd).
      eexists. split; [reflexivity|]. split; [reflexivity|]. contradiction. }
  split; [|split; [exact generic|split; [|split]]].
  - intros context raw message loaded invalid.
    destruct (valid_direction_dec (jobCommand_type context)) as [Hd|Hd].
    + rewrite (Rejections.prepare_invalid_policy context loaded invalid Hd).
      eexists. split; [reflexivity|]. split; [reflexivity|]. now exists message.
    + rewrite (Rejections.prepare_invalid_direction context Hd).
      eexists. split; [reflexivity|]. split; [reflexivity|]. contradiction.
  - intros context raw message loaded invalid.
    destruct (valid_direction_dec (jobCommand_type context)) as [Hd|Hd].
    + rewrite (Rejections.dns_invalid_policy context loaded invalid Hd).
      eexists. split; [reflexivity|]. split; [reflexivity|]. now exists message.
    + rewrite (Rejections.dns_invalid_direction context Hd).
      eexists. split; [reflexivity|]. split; [reflexivity|]. contradiction.
  - intros context raw message loaded invalid.
    destruct (valid_direction_dec (jobCommand_type context)) as [Hd|Hd].
    + rewrite (Rejections.blacklist_invalid_policy context loaded invalid Hd).
      eexists. split; [reflexivity|]. split; [reflexivity|]. now exists message.
    + rewrite (Rejections.blacklist_invalid_direction context Hd).
      eexists. split; [reflexivity|]. split; [reflexivity|]. contradiction.
  - intros context root network elements fields loaded Hnetwork Hitems Hin Hport.
    destruct (@generic_schema_requires_portNumber joi root network elements fields
                Hnetwork Hitems Hin Hport) as [message invalid].
    exact (generic context _ message loaded invalid).
Qed.

(** Policies without their required keys, and the service item without its
    port number. *)
Lemma invalid_policy_rejected_without_commands_witness :
  (exists e,
      snd (@PrepareNetfilterJob.execute example_joi (context_of "install" None None (JObj [])))
        = inl e /\ ValidationError e
      /\ commands (fst (@PrepareNetfilterJob.execute example_joi
                          (context_of "install" None None (JObj []))))
         = {| install := []; unInstall := [] |})
  /\ (exists e,
      snd (@DockerDnsServiceJob.execute example_joi (context_of "uninstall" None None (JObj [])))
        = inl e /\ ValidationError e
      /\ commands (fst (@DockerDnsServiceJob.execute example_joi
                          (context_of "uninstall" None None (JObj []))))
         = {| install := []; unInstall := [] |})
  /\ (exists e,
      snd (@SynchronizeBlacklistIps.execute example_joi example_data_source
             (context_of "install" None None (JObj [])))
        = inl e /\ ValidationError e
      /\ commands (fst (@SynchronizeBlacklistIps.execute example_joi example_data_source
                          (context_of "install" None None (JObj []))))
         = {| install := []; unInstall := [] |})
  /\ (exists e,
      snd (@GenericServiceJob.execute example_joi
             (example_service_context "install" example_service_policy_without_port))
        = inl e /\ ValidationError e
      /\ commands (fst (@GenericServiceJob.execute example_joi
                          (example_service_context "install"
                             example_service_policy_without_port)))
         = {| install := []; unInstall := [] |}).
Proof.
  destruct (invalid_policy_rejected_without_commands example_joi example_data_source)
    as (prepare & generic & dns & blacklist & port).
  split; [|split; [|split]].
  - destruct (prepare (context_of "install" None None (JObj [])) _ _ eq_refl eq_refl)
      as (e & Hrun & Hlists & Hkind).
    exists e. split; [exact Hrun|]. split; [|exact Hlists].
    apply Hkind. left. reflexivity.
  - destruct (dns (context_of "uninstall" None None (JObj [])) _ _ eq_refl eq_refl)
      as (e & Hrun & Hlists & Hkind).
    exists e. split; [exact Hrun|]. split; [|exact Hlists].
    apply Hkind. right. reflexivity.
  - destruct (blacklist (context_of "install" None None (JObj [])) _ _ eq_refl eq_refl)
      as (e & Hrun & Hlists & Hkind).
    exists e. split; [exact Hrun|]. split; [|exact Hlists].
    apply Hkind. left. reflexivity.
  - destruct (port (example_service_context "install" example_service_policy_without_port)
                _ _ _ [ ("protocol", JStr "tcp") ]
                eq_refl eq_refl eq_refl (or_introl eq_refl) eq_refl)
      as (e & Hrun & Hlists & Hkind).
    exists e. split; [exact Hrun|]. split; [|exact Hlists].
    apply Hkind. left. reflexivity.
Defined.

(** C4. For each job, [execute] rejects with the error of an invalid direction
    exactly when the lowercased type of the command is neither "install" nor
    "uninstall"; in that case no step has run: the context is the one given,
    with both command lists empty and the policy not validated. *)
Theorem invalid_direction_rejected_before_any_step (joi : JoiLibrary) (db : DataSource) :
  (forall context : ExecutionContext PrepareNetfilterJob.Policy,
      ((exists e, snd (PrepareNetfilterJob.execute context) = inl e
                  /\ InvalidDirectionError e)
       <-> toLowerCase (jobCommand_type context) <> "install"
           /\ toLowerCase (jobCommand_type context) <> "uninstall")
      /\ (toLowerCase (jobCommand_type context) <> "install" ->
          toLowerCase (jobCommand_type context) <> "uninstall" ->
          fst (PrepareNetfilterJob.execute context) = reset_commands context))
  /\ (forall context : ExecutionContext GenericServiceJob.Policy,
      ((exists e, snd (GenericServiceJob.execute context) = inl e
                  /\ InvalidDirectionError e)
       <-> toLowerCase (jobCommand_type context) <> "install"
           /\ toLowerCase (jobCommand_type context) <> "uninstall")
      /\ (toLowerCase (jobCommand_type context) <> "install" ->
          toLowerCase (jobCommand_type context) <> "uninstall" ->
          fst (GenericServiceJob.execute context) = reset_commands context))
  /\ (forall context : ExecutionContext DockerDnsServiceJob.Policy,
      ((exists e, snd (DockerDnsServiceJob.execute context) = inl e
                  /\ InvalidDirectionError e)
       <-> toLowerCase (jobCommand_type context) <> "install"
           /\ toLowerCase (jobCommand_type context) <> "uninstall")
      /\ (toLowerCase (jobCommand_type context) <> "install" ->
          toLowerCase (jobCommand_type context) <> "uninstall" ->
          fst (DockerDnsServiceJob.execute context) = reset_commands context))
  /\ (forall context : ExecutionContext SynchronizeBlacklistIps.Policy,
      ((exists e, snd (SynchronizeBlacklistIps.execute context) = inl e
                  /\ InvalidDirectionError e)
       <-> toLowerCase (jobCommand_type context) <> "install"
           /\ toLowerCase (jobCommand_type context) <> "uninstall")
      /\ (toLowerCase (jobCommand_type context) <> "install" ->
          toLowerCase (jobCommand_type context) <> "uninstall" ->
          fst (SynchronizeBlacklistIps.execute context) = reset_commands context)).
Proof.
  assert (neither : forall token,
             toLowerCase token <> "install" /\ toLowerCase token <> "uninstall"
             <-> ~ valid_direction token).
  { intros token. unfold valid_direction. tauto. }
  split; [|split; [|split]]; intros context; (split; [split|]).
  - intros (e & He & Hdir). apply neither. intros Hd.
    exact (Rejections.prepare_valid_direction_rejection context Hd He Hdir).
  - intros H. apply neither in H.
    rewrite (Rejections.prepare_invalid_direction context H).
    eexists. split; [reflexivity|]. now exists (jobCommand_type context).
  - intros H1 H2. rewrite (Rejections.prepare_invalid_direction context); [reflexivity|].
    now apply neither.
  - intros (e & He & Hdir). apply neither. intros Hd.
    exact (Rejections.generic_valid_direction_rejection context Hd He Hdir).
  - intros H. apply neither in H.
    rewrite (Rejections.generic_invalid_direction context H).
    eexists. split; [reflexivity|]. now exists (jobCommand_type context).
  - intros H1 H2. rewrite (Rejections.generic_invalid_direction context); [reflexivity|].
    now apply neither.
  - intros (e & He & Hdir). apply neither. intros Hd.
    exact (Rejections.dns_valid_direction_rejection context Hd He Hdir).
  - intros H. apply neither in H.
    rewrite (Rejections.dns_invalid_direction context H).
    eexists. split; [reflexivity|]. now exists (jobCommand_type context).
  - intros H1 H2. rewrite (Rejections.dns_invalid_direction context); [reflexivity|].
    now apply neither.
  - intros (e & He & Hdir). apply neither. intros Hd.
    exact (Rejections.blacklist_valid_direction_rejection context Hd He Hdir).
  - intros H. apply neither in H.
    rewrite (Rejections.blacklist_invalid_direction context H).
    eexists. split; [reflexivity|]. now exists (jobCommand_type context).
  - intros H1 H2. rewrite (Rejections.blacklist_invalid_direction context); [reflexivity|].
    now apply neither.
Qed.

(** Types of command that are no direction. *)
Lemma invalid_direction_rejected_before_any_step_witness :
  (exists e,
      snd (@PrepareNetfilterJob.execute example_joi (example_prepare_context "reinstall"))
        = inl e /\ InvalidDirectionError e)
  /\ fst (@PrepareNetfilterJob.execute example_joi (example_prepare_context "reinstall"))
     = reset_commands (example_prepare_context "reinstall")
  /\ fst (@GenericServiceJob.execute example_joi
            (example_service_context "remove" example_service_policy))
     = reset_commands (example_service_context "remove" example_service_policy)
  /\ fst (@DockerDnsServiceJob.execute example_joi (example_dns_context ""))
     = reset_commands (example_dns_context "")
  /\ fst (@SynchronizeBlacklistIps.execute example_joi example_data_source
            (example_blacklist_context "Install "))
     = reset_commands (example_blacklist_context "Install ").
Proof.
  destruct (invalid_direction_rejected_before_any_step example_joi example_data_source)
    as (prepare & generic & dns & blacklist).
  split; [|split; [|split; [|split]]].
  - apply (proj2 (proj1 (prepare (example_prepare_context "reinstall")))).
    split; intros H; discriminate H.
  - apply (proj2 (prepare (example_prepare_context "reinstall")));
      intros H; discriminate H.
  - apply (proj2 (generic (example_service_context "remove" example_service_policy)));
      intros H; discriminate H.
  - apply (proj2 (dns (example_dns_context ""))); intros H; discriminate H.
  - apply (proj2 (blacklist (example_blacklist_context "Install ")));
      intros H; discriminate H.
Defined.

(** C5. The commands of the install transcript of prepare-netfilter that add
    to the set trusted_net are, in order, one per trusted network of the whole
    configuration then one per trusted network of the job: for the global
    networks A, B and the job's network C they are the additions of A, B, C in
    this order. *)
Theorem trusted_networks_global_before_local (joi : JoiLibrary)
  (context : ExecutionContext PrepareNetfilterJob.Policy) (raw : JSON)
  (policy : PrepareNetfilterJob.Policy) :
  jobConfiguration context = Unvalidated raw ->
  PrepareNetfilterJob.schema raw = inr policy ->
  exists transcript,
    snd (PrepareNetfilterJob.execute (set_jobCommand context "install"))
      = inr {| securityCommands := transcript |}
    /\ filter adds_to_trusted_net transcript
       = map (fun n => asIpSetCommand ("-! add trusted_net " ++ network_value n))
           (PrepareNetfilterJob.get_or_empty
              (global_network_trustedItems (configuration context))
            ++ PrepareNetfilterJob.get_or_empty
                 (PrepareNetfilterJob.trustedItems (PrepareNetfilterJob.network policy)))
    /\ (forall A B C : NetworkItem,
           global_network_trustedItems (configuration context) = Some [A; B] ->
           PrepareNetfilterJob.trustedItems (PrepareNetfilterJob.network policy) = Some [C] ->
           filter adds_to_trusted_net transcript
           = [ asIpSetCommand ("-! add trusted_net " ++ network_value A);
               asIpSetCommand ("-! add trusted_net " ++ network_value B);
               asIpSetCommand ("-! add trusted_net " ++ network_value C) ]).
Proof.
  intros loaded valid. eexists. split; [|split].
  - rewrite (@PrepareNetfilterFacts.run_forward joi (set_jobCommand context "install")
               raw policy loaded valid eq_refl).
    now apply finish_install.
  - rewrite TrustedOrder.install_forward_adds. reflexivity.
  - intros A B C HA HC. rewrite TrustedOrder.install_forward_adds.
    unfold PrepareNetfilterJob.trustedNetworks. cbn [configuration set_jobCommand].
    rewrite HA, HC. reflexivity.
Qed.

(** Two global networks and one of the job. *)
Lemma trusted_networks_global_before_local_witness :
  exists transcript,
    snd (@PrepareNetfilterJob.execute example_joi (example_prepare_context "install"))
      = inr {| securityCommands := transcript |}
    /\ filter adds_to_trusted_net transcript
       = [ asIpSetCommand "-! add trusted_net 10.0.0.0/8";
           asIpSetCommand "-! add trusted_net 10.1.0.0/16";
           asIpSetCommand "-! add trusted_net 172.16.0.0/12" ].
Proof.
  destruct (@trusted_networks_global_before_local example_joi
              (example_prepare_context "install") example_prepare_policy
              example_prepare_validated eq_refl eq_refl)
    as (transcript & Hrun & _ & Habc).
  exists transcript. split; [exact Hrun|].
  exact (Habc _ _ _ eq_refl eq_refl).
Defined.

(** C6. The generic service job, on the policy with the one item
    [{portNumber: 443, protocol: tcp, sourceNetworks: [10.0.0.0/8,
    10.1.0.0/16]}] and the type install, returns the creation of the two chains
    of the service, one ACCEPT per source network in the order of the list, the
    two RETURN, then the two activations at position 1 of the services chains.
    For every valid policy the transcript has this shape: creations, the rules
    of the items in order, RETURN, activations at position 1; an item with
    source networks gives one ACCEPT per network, an item without gives one
    ACCEPT with no source; the items are those of the policy, validated one by
    one. *)
Theorem generic_service_rules_structure (joi : JoiLibrary) :
  let iptables (text : string) := {| type := iptables_4; value := text |} in
  (forall (context : ExecutionContext GenericServiceJob.Policy) entry,
      jobConfiguration context = Unvalidated example_service_policy ->
      configurationJob context = Some entry ->
      chainName entry = None ->
      ip_matches cidr_optional "10.0.0.0/8" = true ->
      ip_matches cidr_optional "10.1.0.0/16" = true ->
      snd (GenericServiceJob.execute (set_jobCommand context "install"))
      = inr {| securityCommands :=
          [ iptables "-N IN_genericServiceName";
            iptables "-N OUT_genericServiceName";
            iptables "-A IN_genericServiceName -s 10.0.0.0/8  -p tcp --sport 1024:65535 --dport 443 -j ACCEPT";
            iptables "-A IN_genericServiceName -s 10.1.0.0/16  -p tcp --sport 1024:65535 --dport 443 -j ACCEPT";
            iptables "-A IN_genericServiceName -j RETURN";
            iptables "-A OUT_genericServiceName -j RETURN";
            iptables "-I IN_services_access_0 1 -j IN_genericServiceName";
            iptables "-I OUT_services_access_0 1 -j OUT_genericServiceName" ] |})
  /\ (forall (context : ExecutionContext GenericServiceJob.Policy) raw policy entry,
      jobConfiguration context = Unvalidated raw ->
      GenericServiceJob.schema raw = inr policy ->
      configurationJob context = Some entry ->
      let chain := or_text (chainName entry) "genericServiceName" in
      snd (GenericServiceJob.execute (set_jobCommand context "install"))
      = inr {| securityCommands :=
          [ iptables ("-N IN_" ++ chain)%string;
            iptables ("-N OUT_" ++ chain)%string ]
          ++ flat_map (GenericServiceJob.item_rules chain)
               (GenericServiceJob.network_items policy)
          ++ [ iptables ("-A IN_" ++ chain ++ " -j RETURN")%string;
               iptables ("-A OUT_" ++ chain ++ " -j RETURN")%string;
               iptables ("-I IN_services_access_0 1 -j IN_" ++ chain)%string;
               iptables ("-I OUT_services_access_0 1 -j OUT_" ++ chain)%string ] |}
      /\ forall item,
          let destination :=
            match GenericServiceJob.destinationNetwork item with
            | Value d => (" -d " ++ d)%string
            | Undefined | Null => ""%string
            end in
          let port :=
            (" -p " ++ GenericServiceJob.protocol item ++ " --sport 1024:65535 --dport "
             ++ Number_toString (GenericServiceJob.portNumber item))%string in
          let sources := or_empty (GenericServiceJob.sourceNetworks item) in
          (sources = [] ->
           GenericServiceJob.item_rules chain item
           = [ iptables ("-A IN_" ++ chain ++ " " ++ destination ++ port
                                   ++ " -j ACCEPT")%string ])
          /\ (sources <> [] ->
              GenericServiceJob.item_rules chain item
              = map (fun n => iptables ("-A IN_" ++ chain ++ " -s " ++ n ++ " "
                                                  ++ destination ++ port ++ " -j ACCEPT")%string)
                  sources
              /\ length (GenericServiceJob.item_rules chain item) = length sources))
  /\ (forall (root network : list (string * JSON)) (elements : list JSON) policy,
      GenericServiceJob.schema (JObj root) = inr policy ->
      property "network" root = Some (JObj network) ->
      property "items" network = Some (JArr elements) ->
      Forall2 (fun e item => GenericServiceJob.item_schema e = inr item)
        elements (GenericServiceJob.network_items policy)).
Proof.
  intros iptables. subst iptables. cbv beta.
  split; [|split; [|exact (@generic_validated_items joi)]].
  - intros context entry loaded Hentry Hchain H1 H2.
    rewrite (@GenericServiceFacts.generic_run joi (set_jobCommand context "install")
               example_service_policy loaded _ entry
               (example_service_policy_valid joi H1 H2) Hentry (or_introl eq_refl)).
    rewrite finish_install by reflexivity. rewrite Hchain. reflexivity.
  - intros context raw policy entry loaded valid Hentry chain. split.
    + rewrite (@GenericServiceFacts.generic_run joi (set_jobCommand context "install")
                 raw loaded policy entry valid Hentry (or_introl eq_refl)).
      now apply finish_install.
    + intros item destination port sources. unfold GenericServiceJob.item_rules.
      replace (if isNil (GenericServiceJob.destinationNetwork item) then ""%string
               else (" -d " ++ Nullable_toString (GenericServiceJob.destinationNetwork item))%string)
        with destination
        by (subst destination; now destruct (GenericServiceJob.destinationNetwork item)).
      fold sources. fold port. split.
      * intros ->. reflexivity.
      * intros Hs. destruct sources as [|s r]; [congruence|].
        cbn [length Nat.eqb]. split; [reflexivity|]. now rewrite length_map.
Qed.

(** The transcript of the example with a Joi that accepts its networks. *)
Lemma generic_service_rules_structure_witness :
  let iptables (text : string) := {| type := iptables_4; value := text |} in
  snd (@GenericServiceJob.execute example_joi
         (example_service_context "install" example_service_policy))
  = inr {| securityCommands :=
      [ iptables "-N IN_genericServiceName";
        iptables "-N OUT_genericServiceName";
        iptables "-A IN_genericServiceName -s 10.0.0.0/8  -p tcp --sport 1024:65535 --dport 443 -j ACCEPT";
        iptables "-A IN_genericServiceName -s 10.1.0.0/16  -p tcp --sport 1024:65535 --dport 443 -j ACCEPT";
        iptables "-A IN_genericServiceName -j RETURN";
        iptables "-A OUT_genericServiceName -j RETURN";
        iptables "-I IN_services_access_0 1 -j IN_genericServiceName";
        iptables "-I OUT_services_access_0 1 -j OUT_genericServiceName" ] |}.
Proof.
  intros iptables. subst iptables. cbv beta.
  exact (proj1 (generic_service_rules_structure example_joi)
           (example_service_context "install" example_service_policy)
           (example_entry "generic-service") eq_refl eq_refl eq_refl eq_refl eq_refl).
Defined.

(** C7. For every valid policy the install transcript of the docker DNS job is
    the creation of its two chains, then for each mapping, in the order of the
    policy, six commands (the redirection in PREROUTING over tcp then udp, the
    acceptance in FORWARD over tcp then udp, the acceptance in the DNS chain
    over tcp then udp), then the two RETURN and the two activations. The
    items these commands are made from are the mappings of the policy,
    validated one by one, and a mapping without [sourcePortNumber] is validated
    with the port 53, which its commands then carry. *)
Theorem docker_dns_six_commands_per_mapping (joi : JoiLibrary) :
  let iptables (text : string) := {| type := iptables_4; value := text |} in
  (forall (context : ExecutionContext DockerDnsServiceJob.Policy) raw policy,
      jobConfiguration context = Unvalidated raw ->
      DockerDnsServiceJob.schema raw = inr policy ->
      let chain := or_string (DockerDnsServiceJob.policy_chainName policy) "dockerDnsService" in
      let mapping (item : DockerDnsServiceJob.Item) :=
        let link := DockerDnsServiceJob.sourceLinkName item in
        let sip := DockerDnsServiceJob.sourceIpAddress item in
        let sport := Number_toString (DockerDnsServiceJob.sourcePortNumber item) in
        let dip := Nullable_toString (DockerDnsServiceJob.destinationIpAddress item) in
        let dport := Number_toString (DockerDnsServiceJob.destinationPortNumber item) in
        [ iptables ("-I PREROUTING 1 -t nat -i " ++ link ++ " -p tcp -d " ++ sip
                              ++ " --dport " ++ sport ++ " -j DNAT --to " ++ dip ++ ":" ++ dport)%string;
          iptables ("-I PREROUTING 1 -t nat -i " ++ link ++ " -p udp -d " ++ sip
                              ++ " --dport " ++ sport ++ " -j DNAT --to " ++ dip ++ ":" ++ dport)%string;
          iptables ("-I FORWARD 1 -p tcp -d " ++ dip ++ " --dport " ++ dport
                              ++ " -j ACCEPT")%string;
          iptables ("-I FORWARD 1 -p udp -d " ++ dip ++ " --dport " ++ dport
                              ++ " -j ACCEPT")%string;
          iptables ("-A IN_dns_" ++ chain ++ " -p tcp -d " ++ sip ++ " --dport "
                              ++ sport ++ " -j ACCEPT")%string;
          iptables ("-A IN_dns_" ++ chain ++ " -p udp -d " ++ sip ++ " --dport "
                              ++ sport ++ " -j ACCEPT")%string ] in
      snd (DockerDnsServiceJob.execute (set_jobCommand context "install"))
      = inr {| securityCommands :=
          [ iptables ("-N IN_dns_" ++ chain)%string;
            iptables ("-N OUT_dns_" ++ chain)%string ]
          ++ flat_map mapping (DockerDnsServiceJob.network_items policy)
          ++ [ iptables ("-A IN_dns_" ++ chain ++ " -j RETURN")%string;
               iptables ("-A OUT_dns_" ++ chain ++ " -j RETURN")%string;
               iptables ("-I IN_services_access_0 1 -j IN_dns_" ++ chain)%string;
               iptables ("-I OUT_services_access_0 1 -j OUT_dns_" ++ chain)%string ] |}
      /\ (forall item, length (mapping item) = 6%nat))
  /\ (forall (root network : list (string * JSON)) (elements : list JSON) policy,
      DockerDnsServiceJob.schema (JObj root) = inr policy ->
      property "network" root = Some (JObj network) ->
      property "items" network = Some (JArr elements) ->
      Forall2 (fun e item => DockerDnsServiceJob.item_schema e = inr item)
        elements (DockerDnsServiceJob.network_items policy))
  /\ (forall (fields : list (string * JSON)) (item : DockerDnsServiceJob.Item),
      property "sourcePortNumber" fields = None ->
      DockerDnsServiceJob.item_schema (JObj fields) = inr item ->
      DockerDnsServiceJob.sourcePortNumber item = 53%Z
      /\ Number_toString (DockerDnsServiceJob.sourcePortNumber item) = "53").
Proof.
  intros iptables. subst iptables. cbv beta.
  split; [|split; [exact (@dns_validated_items joi)|]].
  - intros context raw policy loaded valid chain mapping. split; [|reflexivity].
    rewrite (@DockerDnsServiceFacts.dns_run joi (set_jobCommand context "install")
               raw loaded policy valid (or_introl eq_refl)).
    now apply finish_install.
  - intros fields item Hport Hitem.
    rewrite (dns_item_default_port joi fields Hport Hitem). split; reflexivity.
Qed.

(** One mapping without [sourcePortNumber]. *)
Lemma docker_dns_six_commands_per_mapping_witness :
  let iptables (text : string) := {| type := iptables_4; value := text |} in
  snd (@DockerDnsServiceJob.execute example_joi (example_dns_context "install"))
  = inr {| securityCommands :=
      [ iptables "-N IN_dns_resolver";
        iptables "-N OUT_dns_resolver";
        iptables "-I PREROUTING 1 -t nat -i eth0 -p tcp -d 192.168.0.2 --dport 53 -j DNAT --to 172.17.0.2:5353";
        iptables "-I PREROUTING 1 -t nat -i eth0 -p udp -d 192.168.0.2 --dport 53 -j DNAT --to 172.17.0.2:5353";
        iptables "-I FORWARD 1 -p tcp -d 172.17.0.2 --dport 5353 -j ACCEPT";
        iptables "-I FORWARD 1 -p udp -d 172.17.0.2 --dport 5353 -j ACCEPT";
        iptables "-A IN_dns_resolver -p tcp -d 192.168.0.2 --dport 53 -j ACCEPT";
        iptables "-A IN_dns_resolver -p udp -d 192.168.0.2 --dport 53 -j ACCEPT";
        iptables "-A IN_dns_resolver -j RETURN";
        iptables "-A OUT_dns_resolver -j RETURN";
        iptables "-I IN_services_access_0 1 -j IN_dns_resolver";
        iptables "-I OUT_services_access_0 1 -j OUT_dns_resolver" ] |}
  /\ Number_toString 53 = "53".
Proof.
  intros iptables. subst iptables. cbv beta.
  destruct (docker_dns_six_commands_per_mapping example_joi) as (shape & _ & port).
  split.
  - exact (proj1 (shape (example_dns_context "install") example_dns_policy _
                    eq_refl eq_refl)).
  - exact (proj2 (port [ ("sourceLinkName", JStr "eth0");
                         ("sourceIpAddress", JStr "192.168.0.2");
                         ("destinationPortNumber", JNum 5353);
                         ("destinationIpAddress", JStr "172.17.0.2") ] _
                    eq_refl eq_refl)).
Defined.

(** C8, with the condition the code puts on the removal. With a valid policy
    and an answer of the data source, the install transcript of
    sync-blacklist-ips is one addition to block_net per entry of the answer, in
    the order of the answer, and the uninstall transcript is the one command
    that flushes block_net. Two runs whose data sources give the same answer
    return the same install transcript. When the data source fails there is no
    transcript, for a removal as for an installation: the job asks the data
    source in both directions and rejects with its failure. *)
Theorem blacklist_sync_transcripts (joi : JoiLibrary) :
  (forall (db : DataSource) (context : ExecutionContext SynchronizeBlacklistIps.Policy)
      raw policy result,
      jobConfiguration context = Unvalidated raw ->
      SynchronizeBlacklistIps.schema raw = inr policy ->
      query_blacklist_networks (SynchronizeBlacklistIps.database_connectionString policy)
        = inr result ->
      snd (SynchronizeBlacklistIps.execute (set_jobCommand context "install"))
      = inr {| securityCommands :=
                 map (fun item => {| type := ipset;
                                     value := "-! add block_net " ++ network_value item |})
                   result |}
      /\ snd (SynchronizeBlacklistIps.execute (set_jobCommand context "uninstall"))
         = inr {| securityCommands := [ {| type := ipset; value := "flush block_net" |} ] |})
  /\ (forall (db1 db2 : DataSource)
        (context1 context2 : ExecutionContext SynchronizeBlacklistIps.Policy)
        raw1 raw2 policy1 policy2 result,
      jobConfiguration context1 = Unvalidated raw1 ->
      jobConfiguration context2 = Unvalidated raw2 ->
      SynchronizeBlacklistIps.schema raw1 = inr policy1 ->
      SynchronizeBlacklistIps.schema raw2 = inr policy2 ->
      @query_blacklist_networks db1
        (SynchronizeBlacklistIps.database_connectionString policy1) = inr result ->
      @query_blacklist_networks db2
        (SynchronizeBlacklistIps.database_connectionString policy2) = inr result ->
      snd (@SynchronizeBlacklistIps.execute joi db1 (set_jobCommand context1 "install"))
      = snd (@SynchronizeBlacklistIps.execute joi db2 (set_jobCommand context2 "install")))
  /\ (forall (db : DataSource) (context : ExecutionContext SynchronizeBlacklistIps.Policy)
        raw policy message,
      jobConfiguration context = Unvalidated raw ->
      SynchronizeBlacklistIps.schema raw = inr policy ->
      query_blacklist_networks (SynchronizeBlacklistIps.database_connectionString policy)
        = inl message ->
      snd (SynchronizeBlacklistIps.execute (set_jobCommand context "install"))
      = inl (DataSourceError message)
      /\ snd (SynchronizeBlacklistIps.execute (set_jobCommand context "uninstall"))
         = inl (DataSourceError message)).
Proof.
  assert (one : forall (db : DataSource)
      (context : ExecutionContext SynchronizeBlacklistIps.Policy) raw policy result,
      jobConfiguration context = Unvalidated raw ->
      SynchronizeBlacklistIps.schema raw = inr policy ->
      query_blacklist_networks (SynchronizeBlacklistIps.database_connectionString policy)
        = inr result ->
      snd (SynchronizeBlacklistIps.execute (set_jobCommand context "install"))
      = inr {| securityCommands := map SynchronizeBlacklistIps.block_add result |}).
  { intros db context raw policy result loaded valid Hq.
    rewrite (@SynchronizeBlacklistFacts.blacklist_run joi db
               (set_jobCommand context "install")
               raw loaded policy result valid Hq (or_introl eq_refl)).
    now apply finish_install. }
  split; [|split].
  - intros db context raw policy result loaded valid Hq. split.
    + exact (one db context raw policy result loaded valid Hq).
    + rewrite (@SynchronizeBlacklistFacts.blacklist_run joi db
                 (set_jobCommand context "uninstall")
                 raw loaded policy result valid Hq (or_intror eq_refl)).
      now apply finish_other.
  - intros db1 db2 context1 context2 raw1 raw2 policy1 policy2 result
      loaded1 loaded2 valid1 valid2 Hq1 Hq2.
    rewrite (one db1 context1 raw1 policy1 result loaded1 valid1 Hq1).
    rewrite (one db2 context2 raw2 policy2 result loaded2 valid2 Hq2).
    reflexivity.
  - intros db context raw policy message loaded valid Hq. split.
    + exact (@SynchronizeBlacklistFacts.blacklist_run_data_source_error joi db
               (set_jobCommand context "install") raw loaded policy message valid Hq
               (or_introl eq_refl)).
    + exact (@SynchronizeBlacklistFacts.blacklist_run_data_source_error joi db
               (set_jobCommand context "uninstall") raw loaded policy message valid Hq
               (or_intror eq_refl)).
Qed.

(** C8 as stated fails: with a data source that is down, the removal on the
    example policy, which is valid, returns no transcript: it rejects with the
    failure of the data source. *)
Lemma blacklist_uninstall_rejects_when_the_source_fails :
  @SynchronizeBlacklistIps.schema example_joi example_blacklist_policy
  = inr {| SynchronizeBlacklistIps.database_connectionString :=
             "postgres://localhost/security" |}
  /\ snd (@SynchronizeBlacklistIps.execute example_joi example_data_source_down
            (example_blacklist_context "uninstall"))
     = inl (DataSourceError "connect ECONNREFUSED")
  /\ snd (@SynchronizeBlacklistIps.execute example_joi example_data_source_down
            (example_blacklist_context "uninstall"))
     <> inr {| securityCommands := [ {| type := ipset; value := "flush block_net" |} ] |}.
Proof.
  split; [reflexivity|]. split; [reflexivity|]. intros H. discriminate H.
Qed.

(** A data source with two networks. *)
Lemma blacklist_sync_transcripts_witness :
  snd (@SynchronizeBlacklistIps.execute example_joi example_data_source
         (example_blacklist_context "install"))
  = inr {| securityCommands :=
             [ {| type := ipset; value := "-! add block_net 198.51.100.0/24" |};
               {| type := ipset; value := "-! add block_net 203.0.113.7/32" |} ] |}
  /\ snd (@SynchronizeBlacklistIps.execute example_joi example_data_source
            (example_blacklist_context "uninstall"))
     = inr {| securityCommands := [ {| type := ipset; value := "flush block_net" |} ] |}.
Proof.
  exact (proj1 (blacklist_sync_transcripts example_joi) example_data_source
           (example_blacklist_context "install") example_blacklist_policy _ _
           eq_refl eq_refl eq_refl).
Defined.

(** C9, at the input where the code departs from it. The policy of the generic
    service job gives the chain name "web", and validates with it; the commands
    returned name the chains after the default "genericServiceName" all the
    same, because [_generateRules] reads [context.configurationJob.chainName]
    where the docker DNS job reads [context.jobConfiguration.chainName]. *)
Theorem generic_service_ignores_policy_chainName :
  let iptables (text : string) := {| type := iptables_4; value := text |} in
  @GenericServiceJob.schema example_joi example_service_policy_named
  = inr {| GenericServiceJob.policy_chainName := Some "web";
           GenericServiceJob.network_items :=
             [ {| GenericServiceJob.portNumber := 443;
                  GenericServiceJob.sourceNetworks := Value ["10.0.0.0/8"; "10.1.0.0/16"];
                  GenericServiceJob.protocol := "tcp";
                  GenericServiceJob.destinationNetwork := Undefined |} ] |}
  /\ snd (@GenericServiceJob.execute example_joi
            (example_service_context "install" example_service_policy_named))
     = inr {| securityCommands :=
         [ iptables "-N IN_genericServiceName";
           iptables "-N OUT_genericServiceName";
           iptables "-A IN_genericServiceName -s 10.0.0.0/8  -p tcp --sport 1024:65535 --dport 443 -j ACCEPT";
           iptables "-A IN_genericServiceName -s 10.1.0.0/16  -p tcp --sport 1024:65535 --dport 443 -j ACCEPT";
           iptables "-A IN_genericServiceName -j RETURN";
           iptables "-A OUT_genericServiceName -j RETURN";
           iptables "-I IN_services_access_0 1 -j IN_genericServiceName";
           iptables "-I OUT_services_access_0 1 -j OUT_genericServiceName" ] |}
  /\ snd (@GenericServiceJob.execute example_joi
            (example_service_context "uninstall" example_service_policy_named))
     = inr {| securityCommands :=
         [ iptables "-D IN_services_access_0 -j IN_genericServiceName";
           iptables "-D OUT_services_access_0 -j OUT_genericServiceName";
           iptables "-F IN_genericServiceName";
           iptables "-X IN_genericServiceName";
           iptables "-F OUT_genericServiceName";
           iptables "-X OUT_genericServiceName" ] |}.
Proof. intros iptables. repeat split. Qed.

(** C10. For each job, a type of command that lowercases to "install" without
    being "install" passes the check of the direction, runs the steps of an
    installation, and resolves to the uninstall list of the context, not to the
    install list. For the generic service, docker DNS and sync-blacklist-ips
    jobs that list is the transcript the type "uninstall" returns; for
    prepare-netfilter it holds the same commands with the generators in the
    order of the installation (vital, block, services, trusted, root). *)
Theorem mixed_case_install_returns_unInstall (joi : JoiLibrary) (db : DataSource) :
  (forall (context : ExecutionContext PrepareNetfilterJob.Policy) raw policy,
      jobConfiguration context = Unvalidated raw ->
      PrepareNetfilterJob.schema raw = inr policy ->
      toLowerCase (jobCommand_type context) = "install" ->
      jobCommand_type context <> "install" ->
      let result := PrepareNetfilterJob.execute context in
      snd result = inr {| securityCommands := unInstall (commands (fst result)) |}
      /\ unInstall (commands (fst result))
         = PrepareNetfilterJob.vital_unInstall ++ PrepareNetfilterJob.block_unInstall
           ++ PrepareNetfilterJob.services_unInstall ++ PrepareNetfilterJob.trusted_unInstall
           ++ PrepareNetfilterJob.root_unInstall policy
      /\ unInstall (commands (fst result)) <> install (commands (fst result))
      /\ snd (PrepareNetfilterJob.execute (set_jobCommand context "uninstall"))
         = inr {| securityCommands :=
             PrepareNetfilterJob.root_unInstall policy ++ PrepareNetfilterJob.trusted_unInstall
             ++ PrepareNetfilterJob.services_unInstall ++ PrepareNetfilterJob.block_unInstall
             ++ PrepareNetfilterJob.vital_unInstall |})
  /\ (forall (context : ExecutionContext GenericServiceJob.Policy) raw policy entry,
      jobConfiguration context = Unvalidated raw ->
      GenericServiceJob.schema raw = inr policy ->
      configurationJob context = Some entry ->
      toLowerCase (jobCommand_type context) = "install" ->
      jobCommand_type context <> "install" ->
      let result := GenericServiceJob.execute context in
      snd result = inr {| securityCommands := unInstall (commands (fst result)) |}
      /\ unInstall (commands (fst result)) <> install (commands (fst result))
      /\ snd result = snd (GenericServiceJob.execute (set_jobCommand context "uninstall")))
  /\ (forall (context : ExecutionContext DockerDnsServiceJob.Policy) raw policy,
      jobConfiguration context = Unvalidated raw ->
      DockerDnsServiceJob.schema raw = inr policy ->
      toLowerCase (jobCommand_type context) = "install" ->
      jobCommand_type context <> "install" ->
      let result := DockerDnsServiceJob.execute context in
      snd result = inr {| securityCommands := unInstall (commands (fst result)) |}
      /\ unInstall (commands (fst result)) <> install (commands (fst result))
      /\ snd result = snd (DockerDnsServiceJob.execute (set_jobCommand context "uninstall")))
  /\ (forall (context : ExecutionContext SynchronizeBlacklistIps.Policy) raw policy items,
      jobConfiguration context = Unvalidated raw ->
      SynchronizeBlacklistIps.schema raw = inr policy ->
      query_blacklist_networks (SynchronizeBlacklistIps.database_connectionString policy)
        = inr items ->
      toLowerCase (jobCommand_type context) = "install" ->
      jobCommand_type context <> "install" ->
      let result := SynchronizeBlacklistIps.execute context in
      snd result = inr {| securityCommands := unInstall (commands (fst result)) |}
      /\ unInstall (commands (fst result)) <> install (commands (fst result))
      /\ snd result
         = snd (SynchronizeBlacklistIps.execute (set_jobCommand context "uninstall"))).
Proof.
  split; [|split; [|split]].
  - intros context raw policy loaded valid Hlower Hexact result. subst result.
    rewrite (@PrepareNetfilterFacts.run_forward joi context raw policy loaded valid Hlower).
    rewrite (@PrepareNetfilterFacts.run_backward joi (set_jobCommand context "uninstall")
               raw policy loaded valid eq_refl).
    rewrite finish_other by assumption. rewrite finish_other by discriminate.
    rewrite finish_context. cbn [after_run commands install unInstall].
    repeat split. intros H. discriminate H.
  - intros context raw policy entry loaded valid Hentry Hlower Hexact result. subst result.
    rewrite (@GenericServiceFacts.generic_run joi context raw loaded policy entry valid
               Hentry (or_introl Hlower)).
    rewrite (@GenericServiceFacts.generic_run joi (set_jobCommand context "uninstall")
               raw loaded policy entry valid Hentry (or_intror eq_refl)).
    rewrite finish_other by assumption. rewrite finish_other by discriminate.
    rewrite finish_context. cbn [after_run commands install unInstall].
    repeat split. intros H. discriminate H.
  - intros context raw policy loaded valid Hlower Hexact result. subst result.
    rewrite (@DockerDnsServiceFacts.dns_run joi context raw loaded policy valid
               (or_introl Hlower)).
    rewrite (@DockerDnsServiceFacts.dns_run joi (set_jobCommand context "uninstall")
               raw loaded policy valid (or_intror eq_refl)).
    rewrite finish_other by assumption. rewrite finish_other by discriminate.
    rewrite finish_context. cbn [after_run commands install unInstall].
    repeat split. intros H. discriminate H.
  - intros context raw policy items loaded valid Hq Hlower Hexact result. subst result.
    rewrite (@SynchronizeBlacklistFacts.blacklist_run joi db context raw loaded policy items
               valid Hq (or_introl Hlower)).
    rewrite (@SynchronizeBlacklistFacts.blacklist_run joi db
               (set_jobCommand context "uninstall")
               raw loaded policy items valid Hq (or_intror eq_refl)).
    rewrite finish_other by assumption. rewrite finish_other by discriminate.
    rewrite finish_context. cbn [after_run commands install unInstall].
    repeat split. destruct items; intros H; discriminate H.
Qed.

(** The types INSTALL, Install and iNSTALL. *)
Lemma mixed_case_install_returns_unInstall_witness :
  snd (@PrepareNetfilterJob.execute example_joi (example_prepare_context "INSTALL"))
  = inr {| securityCommands :=
      [ asIptables4Command "-F IN_vital_access_0";
        asIptables4Command "-X IN_vital_access_0";
        asIptables4Command "-F OUT_vital_access_0";
        asIptables4Command "-X OUT_vital_access_0";
        asIptables4Command "-F IN_block_access_0";
        asIptables4Command "-X IN_block_access_0";
        asIpSetCommand "-! destroy block_net";
        asIptables4Command "-F IN_services_access_0";
        asIptables4Command "-X IN_services_access_0";
        asIptables4Command "-F OUT_services_access_0";
        asIptables4Command "-X OUT_services_access_0";
        asIptables4Command "-F IN_trusted_access_0";
        asIptables4Command "-X IN_trusted_access_0";
        asIptables4Command "-F OUT_trusted_access_0";
        asIptables4Command "-X OUT_trusted_access_0";
        asIpSetCommand "-! destroy trusted_net";
        asIptables4Command "-D INPUT -j IN_trusted_access_0";
        asIptables4Command "-D INPUT -j IN_vital_access_0";
        asIptables4Command "-D INPUT -m set --match-set block_net src -j IN_block_access_0";
        asIptables4Command "-D INPUT -j IN_services_access_0";
        asIptables4Command "-D INPUT --in-interface eth0 -j DROP";
        asIptables4Command "-D OUTPUT -j OUT_trusted_access_0";
        asIptables4Command "-D OUTPUT -j OUT_vital_access_0";
        asIptables4Command "-D OUTPUT -j OUT_services_access_0" ] |}
  /\ snd (@GenericServiceJob.execute example_joi
            (example_service_context "Install" example_service_policy))
     = snd (@GenericServiceJob.execute example_joi
              (example_service_context "uninstall" example_service_policy))
  /\ snd (@DockerDnsServiceJob.execute example_joi (example_dns_context "iNSTALL"))
     = snd (@DockerDnsServiceJob.execute example_joi (example_dns_context "uninstall"))
  /\ snd (@SynchronizeBlacklistIps.execute example_joi example_data_source
            (example_blacklist_context "INSTALL"))
     = inr {| securityCommands := [ {| type := ipset; value := "flush block_net" |} ] |}.
Proof.
  destruct (mixed_case_install_returns_unInstall example_joi example_data_source)
    as (prepare & generic & dns & blacklist).
  split; [|split; [|split]].
  - destruct (prepare (example_prepare_context "INSTALL") example_prepare_policy
                example_prepare_validated eq_refl eq_refl eq_refl)
      as (Hrun & Hlist & _).
    + intros H. discriminate H.
    + rewrite Hrun, Hlist. reflexivity.
  - apply (generic (example_service_context "Install" example_service_policy)
             example_service_policy _ (example_entry "generic-service")
             eq_refl eq_refl eq_refl eq_refl).
    intros H. discriminate H.
  - apply (dns (example_dns_context "iNSTALL") example_dns_policy _
             eq_refl eq_refl eq_refl).
    intros H. discriminate H.
  - destruct (blacklist (example_blacklist_context "INSTALL") example_blacklist_policy _ _
                eq_refl eq_refl eq_refl eq_refl)
      as (Hrun & _).
    + intros H. discriminate H.
    + rewrite Hrun. reflexivity.
Defined.

(* ------------------------------------------------------------------------- *)
(** ** The converter of country networks: addresses and prefix lengths *)

Module CountryNetworksFacts.
Import CountryNetworksToSql.
Local Open Scope Z_scope.

Lemma ToInt32_range (n : Z) : - 2 ^ 31 <= ToInt32 n < 2 ^ 31.
Proof.
  unfold ToInt32. pose proof (Z.mod_pos_bound (n + 2 ^ 31) (2 ^ 32) ltac:(lia)). lia.
Qed.

Lemma ToInt32_small (n : Z) : - 2 ^ 31 <= n < 2 ^ 31 -> ToInt32 n = n.
Proof. intros H. unfold ToInt32. rewrite Z.mod_small by lia. lia. Qed.

Lemma ToInt32_congruent (n : Z) : exists q, ToInt32 n = n - 2 ^ 32 * q.
Proof.
  unfold ToInt32. exists ((n + 2 ^ 31) / 2 ^ 32).
  pose proof (Z.div_mod (n + 2 ^ 31) (2 ^ 32) ltac:(lia)). lia.
Qed.

Lemma ToInt32_bits (n i : Z) : 0 <= i < 32 -> Z.testbit (ToInt32 n) i = Z.testbit n i.
Proof.
  intros Hi. destruct (ToInt32_congruent n) as [q ->].
  rewrite <- (Z.mod_pow2_bits_low (n - 2 ^ 32 * q) 32 i) by lia.
  rewrite <- (Z.mod_pow2_bits_low n 32 i) by lia.
  f_equal. replace (n - 2 ^ 32 * q) with (n + (- q) * 2 ^ 32) by lia.
  apply Z.mod_add. lia.
Qed.

(** A byte of a number, as [intToIpStr] takes it. *)
Lemma octet (num k : Z) :
  0 <= k <= 24 -> bitAnd (shiftRight num k) 255 = (num / 2 ^ k) mod 256.
Proof.
  intros Hk. unfold bitAnd, shiftRight.
  rewrite (Z.mod_small k 32) by lia.
  rewrite (@ToInt32_small 255) by lia.
  change 255 with (Z.ones 8). rewrite Z.land_ones by lia.
  change (2 ^ 8) with 256.
  destruct (ToInt32_congruent (Z.shiftr (ToInt32 num) k)) as [q ->].
  replace (Z.shiftr (ToInt32 num) k - 2 ^ 32 * q)
    with (Z.shiftr (ToInt32 num) k + (- q * 2 ^ 24) * 256) by lia.
  rewrite Z.mod_add by lia.
  rewrite Z.shiftr_div_pow2 by lia.
  destruct (ToInt32_congruent num) as [p ->].
  replace (num - 2 ^ 32 * p) with (num + (- p * 2 ^ (32 - k)) * 2 ^ k).
  2:{ replace (2 ^ 32) with (2 ^ (32 - k) * 2 ^ k); [lia|].
      rewrite <- Z.pow_add_r by lia. f_equal. lia. }
  rewrite Z.div_add by lia.
  replace (- p * 2 ^ (32 - k)) with ((- p * 2 ^ (24 - k)) * 256).
  2:{ replace (2 ^ (32 - k)) with (2 ^ (24 - k) * 2 ^ 8); [lia|].
      rewrite <- Z.pow_add_r by lia. f_equal. lia. }
  apply Z.mod_add. lia.
Qed.

Lemma low_octet (num : Z) : bitAnd num 255 = num mod 256.
Proof.
  unfold bitAnd. rewrite (@ToInt32_small 255) by lia.
  change 255 with (Z.ones 8). rewrite Z.land_ones by lia. change (2 ^ 8) with 256.
  destruct (ToInt32_congruent num) as [p ->].
  replace (num - 2 ^ 32 * p) with (num + (- p * 2 ^ 24) * 256) by lia.
  apply Z.mod_add. lia.
Qed.

Lemma bitAnd_one (v : Z) : bitAnd v 1 = if Z.testbit (ToInt32 v) 0 then 1 else 0.
Proof.
  unfold bitAnd. rewrite (@ToInt32_small 1) by lia.
  change 1 with (Z.ones 1) at 1. rewrite Z.land_ones by lia.
  change (2 ^ 1) with 2. rewrite <- Z.bit0_mod.
  now destruct (Z.testbit (ToInt32 v) 0).
Qed.

Lemma shiftRight_one_bits (v i : Z) :
  0 <= i -> Z.testbit (ToInt32 (shiftRight v 1)) i = Z.testbit (ToInt32 v) (i + 1).
Proof.
  intros Hi. unfold shiftRight. change (1 mod 32) with 1.
  rewrite ToInt32_small.
  - now rewrite Z.shiftr_spec by lia.
  - pose proof (ToInt32_range v). rewrite Z.shiftr_div_pow2 by lia.
    change (2 ^ 1) with 2. split.
    + apply Z.div_le_lower_bound; lia.
    + apply Z.div_lt_upper_bound; lia.
Qed.

(** The loop counts the ones at the low end of [v], up to the number of its
    rounds. *)
Lemma maskToNum_loop_counts (iterations : nat) (v n : Z) :
  exists k : nat,
    (k <= iterations)%nat
    /\ maskToNum_loop iterations v n = n + Z.of_nat k
    /\ (forall i : nat, (i < k)%nat -> Z.testbit (ToInt32 v) (Z.of_nat i) = true)
    /\ ((k < iterations)%nat -> Z.testbit (ToInt32 v) (Z.of_nat k) = false).
Proof.
  revert v n. induction iterations as [|it IH]; intros v n.
  - exists 0%nat. cbn. repeat split; try lia.
  - cbn [maskToNum_loop]. rewrite bitAnd_one.
    destruct (Z.testbit (ToInt32 v) 0) eqn:E0; cbn [Z.eqb].
    + destruct (IH (shiftRight v 1) (n + 1)) as (k & Hk & Hloop & Hones & Hzero).
      exists (S k). repeat split.
      * lia.
      * rewrite Hloop. lia.
      * intros [|i] Hi; [exact E0|].
        rewrite <- (Hones i) by lia. rewrite shiftRight_one_bits by lia.
        f_equal. lia.
      * intros Hlt. rewrite <- Hzero by lia. rewrite shiftRight_one_bits by lia.
        f_equal. lia.
    + exists 0%nat. repeat split; try lia. intros _. exact E0.
Qed.

(** The same on the bits of the size itself. *)
Lemma maskToNum_low_ones (size : Z) :
  exists k : nat,
    (k <= 32)%nat
    /\ maskToNum size = 32 - Z.of_nat k
    /\ (forall i : nat, (i < k)%nat -> Z.testbit size (Z.of_nat i) = true)
    /\ ((k < 32)%nat -> Z.testbit size (Z.of_nat k) = false).
Proof.
  destruct (maskToNum_loop_counts 32 size 0) as (k & Hk & Hloop & Hones & Hzero).
  exists k. unfold maskToNum. rewrite Hloop. repeat split; try lia.
  - intros i Hi. rewrite <- ToInt32_bits by lia. now apply Hones.
  - intros Hlt. rewrite <- ToInt32_bits by lia. now apply Hzero.
Qed.

(** A number whose [k] low bits are ones, reduced modulo [2 ^ k]. *)
Lemma low_ones_mod (size : Z) (k : nat) :
  (forall i : nat, (i < k)%nat -> Z.testbit size (Z.of_nat i) = true) ->
  size mod 2 ^ Z.of_nat k = 2 ^ Z.of_nat k - 1.
Proof.
  intros Hones. rewrite Z.sub_1_r, <- Z.ones_equiv.
  apply Z.bits_inj'. intros i Hi.
  destruct (Z.lt_ge_cases i (Z.of_nat k)) as [Hlt|Hge].
  - rewrite Z.mod_pow2_bits_low, Z.ones_spec_low by lia.
    rewrite <- (Z2Nat.id i) by lia. apply Hones. lia.
  - now rewrite Z.mod_pow2_bits_high, Z.ones_spec_high by lia.
Qed.

Lemma string_append_assoc (a b c : string) : ((a ++ b) ++ c = a ++ b ++ c)%string.
Proof. induction a as [|x a IH]; cbn; [reflexivity|now rewrite IH]. Qed.

(** The text of [intToIpStr]. *)
Lemma dotted_quad (num : Z) :
  intToIpStr num
  = (Number_toString ((num / 2 ^ 24) mod 256) ++ "."
     ++ Number_toString ((num / 2 ^ 16) mod 256) ++ "."
     ++ Number_toString ((num / 2 ^ 8) mod 256) ++ "."
     ++ Number_toString (num mod 256))%string.
Proof.
  unfold intToIpStr. rewrite !octet by lia. now rewrite low_octet.
Qed.

(** The four bytes of a number below 2^32 give the number back. *)
Lemma bytes_of_address (num : Z) :
  0 <= num < 2 ^ 32 ->
  num = 2 ^ 24 * ((num / 2 ^ 24) mod 256) + 2 ^ 16 * ((num / 2 ^ 16) mod 256)
        + 2 ^ 8 * ((num / 2 ^ 8) mod 256) + num mod 256.
Proof.
  intros Hnum.
  assert (H16 : num / 2 ^ 16 = num / 2 ^ 8 / 2 ^ 8)
    by (rewrite Z.div_div by lia; reflexivity).
  assert (H24 : num / 2 ^ 24 = num / 2 ^ 8 / 2 ^ 8 / 2 ^ 8)
    by (rewrite !Z.div_div by lia; reflexivity).
  assert (Hc : 0 <= num / 2 ^ 24 < 256).
  { split; [apply Z.div_pos; lia|]. apply Z.div_lt_upper_bound; lia. }
  rewrite (Z.mod_small (num / 2 ^ 24) 256) by exact Hc.
  rewrite H24, H16.
  pose proof (Z.div_mod num (2 ^ 8) ltac:(lia)) as D0.
  pose proof (Z.div_mod (num / 2 ^ 8) (2 ^ 8) ltac:(lia)) as D1.
  pose proof (Z.div_mod (num / 2 ^ 8 / 2 ^ 8) (2 ^ 8) ltac:(lia)) as D2.
  change (2 ^ 8) with 256 in *. lia.
Qed.

(** The bits of a number whose low end is [j] ones under a zero. *)
Lemma bits_of_low_ones (s j i : Z) :
  0 <= j -> s mod 2 ^ (j + 1) = 2 ^ j - 1 -> 0 <= i <= j ->
  Z.testbit s i = (i <? j).
Proof.
  intros Hj Hs Hi.
  rewrite <- (Z.mod_pow2_bits_low s (j + 1) i) by lia.
  rewrite Hs, Z.sub_1_r, <- Z.ones_equiv.
  destruct (Z.ltb_spec i j).
  - apply Z.ones_spec_low. lia.
  - apply Z.ones_spec_high. lia.
Qed.

Lemma maskToNum_ones_then_zero (size k : Z) :
  0 <= k < 32 -> size mod 2 ^ (k + 1) = 2 ^ k - 1 -> maskToNum size = 32 - k.
Proof.
  intros Hk Hs.
  destruct (maskToNum_low_ones size) as (n & Hn & Hmask & Hones & Hzero).
  rewrite Hmask. f_equal.
  destruct (Z.lt_trichotomy (Z.of_nat n) k) as [Hlt|[Heq|Hgt]]; [|exact Heq|].
  - rewrite (@bits_of_low_ones size k (Z.of_nat n)) in Hzero by lia.
    specialize (Hzero ltac:(lia)). apply Z.ltb_ge in Hzero. lia.
  - specialize (Hones (Z.to_nat k) ltac:(lia)). rewrite Z2Nat.id in Hones by lia.
    rewrite (@bits_of_low_ones size k k) in Hones by lia.
    apply Z.ltb_lt in Hones. lia.
Qed.

Lemma maskToNum_all_ones (size : Z) :
  size mod 2 ^ 32 = 2 ^ 32 - 1 -> maskToNum size = 0.
Proof.
  intros Hs.
  destruct (maskToNum_low_ones size) as (n & Hn & Hmask & Hones & Hzero).
  rewrite Hmask.
  destruct (Nat.eq_dec n 32) as [->|Hne]; [reflexivity|].
  specialize (Hzero ltac:(lia)).
  rewrite <- (Z.mod_pow2_bits_low size 32 (Z.of_nat n)) in Hzero by lia.
  rewrite Hs, Z.sub_1_r, <- Z.ones_equiv, Z.ones_spec_low in Hzero by lia.
  discriminate Hzero.
Qed.

Lemma maskToNum_block (k : Z) : 0 <= k <= 32 -> maskToNum (2 ^ k - 1) = 32 - k.
Proof.
  intros Hk. destruct (Z.eq_dec k 32) as [->|Hne].
  - apply maskToNum_all_ones. reflexivity.
  - apply maskToNum_ones_then_zero; [lia|].
    pose proof (Z.pow_pos_nonneg 2 k ltac:(lia) ltac:(lia)).
    apply Z.mod_small. rewrite Z.pow_add_r by lia. change (2 ^ 1) with 2. lia.
Qed.

End CountryNetworksFacts.

(* ------------------------------------------------------------------------- *)
(** ** Further properties: the converter of country networks *)

(** X1. [intToIpStr] writes the four bytes of the number, high byte first, for
    every integer: the signed shift does not spoil the addresses from 2^31 up.
    For a number below 2^32 the four bytes written give the number back. *)
Theorem intToIpStr_dotted_quad (num : Z) :
  CountryNetworksToSql.intToIpStr num
  = (Number_toString ((num / 2 ^ 24) mod 256) ++ "."
     ++ Number_toString ((num / 2 ^ 16) mod 256) ++ "."
     ++ Number_toString ((num / 2 ^ 8) mod 256) ++ "."
     ++ Number_toString (num mod 256))%string
  /\ ((0 <= num < 2 ^ 32)%Z ->
      num = (2 ^ 24 * ((num / 2 ^ 24) mod 256) + 2 ^ 16 * ((num / 2 ^ 16) mod 256)
             + 2 ^ 8 * ((num / 2 ^ 8) mod 256) + num mod 256)%Z).
Proof.
  split.
  - apply CountryNetworksFacts.dotted_quad.
  - apply CountryNetworksFacts.bytes_of_address.
Qed.

(** The address 192.168.1.0, which is above 2^31. *)
Lemma intToIpStr_dotted_quad_witness :
  CountryNetworksToSql.intToIpStr 3232235776 = "192.168.1.0"
  /\ (3232235776 = 2 ^ 24 * 192 + 2 ^ 16 * 168 + 2 ^ 8 * 1 + 0)%Z.
Proof.
  destruct (intToIpStr_dotted_quad 3232235776) as (text & bytes).
  split.
  - rewrite text. reflexivity.
  - apply bytes. lia.
Defined.

(** X2. [maskToNum] counts the ones at the low end of the size: a size whose
    [k] low bits are ones and whose next bit is zero gives the prefix length
    [32 - k], and a size with its 32 low bits at one gives 0. For the size
    [2 ^ k - 1] of a block of [2 ^ k] addresses this is the prefix length of the
    block. *)
Theorem maskToNum_counts_low_ones (size k : Z) :
  ((0 <= k < 32)%Z -> (size mod 2 ^ (k + 1) = 2 ^ k - 1)%Z ->
   CountryNetworksToSql.maskToNum size = (32 - k)%Z)
  /\ ((size mod 2 ^ 32 = 2 ^ 32 - 1)%Z -> CountryNetworksToSql.maskToNum size = 0%Z)
  /\ ((0 <= k <= 32)%Z -> CountryNetworksToSql.maskToNum (2 ^ k - 1) = (32 - k)%Z).
Proof.
  split; [|split].
  - apply CountryNetworksFacts.maskToNum_ones_then_zero.
  - apply CountryNetworksFacts.maskToNum_all_ones.
  - apply CountryNetworksFacts.maskToNum_block.
Qed.

(** A block of 256 addresses, the whole address space, and a size that is no
    block. *)
Lemma maskToNum_counts_low_ones_witness :
  CountryNetworksToSql.maskToNum 255 = 24%Z
  /\ CountryNetworksToSql.maskToNum 4294967295 = 0%Z
  /\ CountryNetworksToSql.maskToNum 11 = 30%Z.
Proof.
  split; [|split].
  - apply (proj2 (proj2 (maskToNum_counts_low_ones 0 8))). lia.
  - apply (proj1 (proj2 (maskToNum_counts_low_ones 4294967295 0))). reflexivity.
  - apply (proj1 (maskToNum_counts_low_ones 11 2)); [lia|reflexivity].
Defined.

(** X3. The prefix length [maskToNum] gives lies between 0 and 32, and the
    network it denotes never holds more addresses than the range: for a size
    that is not negative, [2 ^ (32 - maskToNum size) <= size + 1]. *)
Theorem maskToNum_never_wider_than_range (size : Z) :
  (0 <= CountryNetworksToSql.maskToNum size <= 32)%Z
  /\ ((0 <= size)%Z -> (2 ^ (32 - CountryNetworksToSql.maskToNum size) <= size + 1)%Z).
Proof.
  destruct (CountryNetworksFacts.maskToNum_low_ones size) as (n & Hn & Hmask & Hones & _).
  rewrite Hmask. split; [lia|].
  intros Hsize. replace (32 - (32 - Z.of_nat n))%Z with (Z.of_nat n) by lia.
  pose proof (@CountryNetworksFacts.low_ones_mod size n Hones) as Hmod.
  pose proof (Z.mod_le size (2 ^ Z.of_nat n) Hsize
                (Z.pow_pos_nonneg 2 (Z.of_nat n) ltac:(lia) ltac:(lia))).
  lia.
Qed.

(** A range of six addresses is written as a network of two. *)
Lemma maskToNum_never_wider_than_range_witness :
  (2 ^ (32 - CountryNetworksToSql.maskToNum 5) <= 5 + 1)%Z
  /\ CountryNetworksToSql.maskToNum 5 = 31%Z.
Proof.
  destruct (maskToNum_never_wider_than_range 5) as (bounds & narrow).
  split; [apply narrow; lia|reflexivity].
Defined.

(** X4. A range that is a block, from [from] to [from + 2 ^ k - 1], is written
    as the address of [from] followed by the prefix length [32 - k]. *)
Theorem range_cidr_of_block (from to k : Z) :
  (0 <= k <= 32)%Z ->
  (to = from + 2 ^ k - 1)%Z ->
  CountryNetworksToSql.range_cidr from to
  = (Number_toString ((from / 2 ^ 24) mod 256) ++ "."
     ++ Number_toString ((from / 2 ^ 16) mod 256) ++ "."
     ++ Number_toString ((from / 2 ^ 8) mod 256) ++ "."
     ++ Number_toString (from mod 256) ++ "/" ++ Number_toString (32 - k))%string.
Proof.
  intros Hk ->. unfold CountryNetworksToSql.range_cidr.
  replace (from + 2 ^ k - 1 - from)%Z with (2 ^ k - 1)%Z by lia.
  rewrite (CountryNetworksFacts.maskToNum_block Hk).
  rewrite CountryNetworksFacts.dotted_quad.
  now rewrite !CountryNetworksFacts.string_append_assoc.
Qed.

(** The range 10.0.0.0 to 10.255.255.255. *)
Lemma range_cidr_of_block_witness :
  CountryNetworksToSql.range_cidr 167772160 184549375 = "10.0.0.0/8".
Proof.
  rewrite (@range_cidr_of_block 167772160 184549375 24); [reflexivity|lia|reflexivity].
Defined.

(* ------------------------------------------------------------------------- *)
(** ** The command line: the chain of its steps *)

Module GenericMainFacts.
Import GenericMain.

Lemma fold_add_command (securityCommands : list SecurityCommand) (data : string) :
  fold_left add_command securityCommands data = (data ++ script_body securityCommands)%string.
Proof.
  revert data. induction securityCommands as [|c r IH]; intros data; cbn [fold_left script_body fold_right].
  - induction data as [|a d IHd]; cbn; [reflexivity|now rewrite <- IHd].
  - rewrite IH. unfold add_command, command_line.
    now rewrite !CountryNetworksFacts.string_append_assoc.
Qed.

Lemma shFileData_body (securityCommands : list SecurityCommand) :
  shFileData securityCommands = (script_header ++ script_body securityCommands)%string.
Proof. unfold shFileData. now rewrite fold_add_command. Qed.

Lemma printed_body (securityCommands : list SecurityCommand) :
  printed securityCommands
  = (rule_line ++ rule_line ++ script_body securityCommands ++ rule_line ++ rule_line)%string.
Proof.
  unfold printed. cbv zeta. rewrite fold_add_command. unfold rule_line.
  now rewrite !CountryNetworksFacts.string_append_assoc.
Qed.

Lemma strip_prefix_app (p s : string) : strip_prefix p (p ++ s) = Some s.
Proof.
  induction p as [|a p IH]; cbn; [reflexivity|]. now rewrite Ascii.eqb_refl.
Qed.

Lemma read_lines_from_line (line : string -> string) (a rest : string) :
  no_line_feed a = true ->
  read_lines_from line (a ++ LF ++ rest) = line a :: read_lines rest.
Proof.
  revert line. induction a as [|c a IH]; intros line Ha.
  - reflexivity.
  - cbn [no_line_feed] in Ha. apply andb_true_iff in Ha. destruct Ha as [Hc Ha].
    cbn [append read_lines_from]. apply negb_true_iff in Hc. rewrite Hc.
    now rewrite IH.
Qed.

Lemma read_lines_command (tool v rest : string) :
  no_line_feed (tool ++ v) = true ->
  read_lines ((tool ++ v ++ LF) ++ rest) = (tool ++ v)%string :: read_lines rest.
Proof.
  intros H. unfold read_lines.
  replace ((tool ++ v ++ LF) ++ rest)%string with ((tool ++ v) ++ LF ++ rest)%string
    by (now rewrite !CountryNetworksFacts.string_append_assoc).
  exact (@read_lines_from_line (fun t => t) (tool ++ v) rest H).
Qed.

Lemma read_lines_body (securityCommands : list SecurityCommand) :
  Forall (fun c => no_line_feed (value c) = true) securityCommands ->
  read_commands (read_lines (script_body securityCommands)) = Some securityCommands.
Proof.
  induction 1 as [|c r Hc Hr IH]; [reflexivity|].
  cbn [script_body fold_right]. fold (script_body r). unfold command_line.
  destruct c as [[|] v]; cbn [type value] in *.
  - rewrite read_lines_command by exact Hc.
    cbn [read_commands]. unfold read_command. rewrite strip_prefix_app.
    now rewrite IH.
  - rewrite read_lines_command by exact Hc.
    cbn [read_commands]. unfold read_command.
    replace (strip_prefix "iptables " ("ipset " ++ v)) with (@None string) by reflexivity.
    rewrite strip_prefix_app.
    now rewrite IH.
Qed.

Lemma read_script_shFileData (securityCommands : list SecurityCommand) :
  Forall (fun c => no_line_feed (value c) = true) securityCommands ->
  read_script (shFileData securityCommands) = Some securityCommands.
Proof.
  intros H. unfold read_script. rewrite shFileData_body, strip_prefix_app.
  now apply read_lines_body.
Qed.


Section Chain.
Context {joi : JoiLibrary} {host : Host}.

(** The chain stops before the step Print with no effect, or reaches it with
    the response of the job. *)
Lemma main_reaches_print (usageArgs : UsageArgs) :
  (exists e, main usageArgs = {| effects := []; status := Failed e |}
             /\ forall message, e <> ApplyError message)
  \/ (exists configuration configurationJob jobInstance executionResponse,
        loadConfig usageArgs = inr (configuration, configurationJob)
        /\ createJobInstance configurationJob = inr jobInstance
        /\ execute jobInstance (job_context usageArgs configuration configurationJob)
           = inr executionResponse
        /\ main usageArgs = printAndApply usageArgs (securityCommands executionResponse)).
Proof.
  unfold main.
  destruct (loadConfig usageArgs) as [e|[configuration configurationJob]] eqn:Hload.
  { left. exists e. split; [reflexivity|]. intros message ->. revert Hload.
    unfold loadConfig.
    destruct (loadYaml _); [discriminate|].
    destruct (configurationSchema _); [discriminate|].
    destruct (find _ _); [|discriminate].
    destruct (find _ _); discriminate. }
  destruct (createJobInstance configurationJob) as [e|jobInstance] eqn:Hcreate.
  { left. exists e. split; [reflexivity|]. intros message ->. revert Hcreate.
    unfold createJobInstance.
    destruct (requireJob _); [|discriminate].
    destruct (initialize _); discriminate. }
  destruct (execute jobInstance _) as [e|executionResponse] eqn:Hexecute.
  { left. exists (JobRejection e). split; [reflexivity|]. intros message H. discriminate H. }
  right. exists configuration, configurationJob, jobInstance, executionResponse.
  repeat split; assumption.
Qed.

Lemma printAndApply_without_print (usageArgs : UsageArgs)
  (securityCommands : list SecurityCommand) :
  printRules usageArgs = false ->
  printAndApply usageArgs securityCommands = {| effects := []; status := Pending |}.
Proof. intros H. unfold printAndApply. now rewrite H. Qed.

(** The effects of the steps Print and Apply, by the two options and the
    answers of the outside. *)
Lemma printAndApply_cases (usageArgs : UsageArgs) (securityCommands : list SecurityCommand) :
  let run := printAndApply usageArgs securityCommands in
  let path := temporaryFilePath in
  let shown := StdoutWrite (printed securityCommands) in
  let written := OutputFile path (shFileData securityCommands) in
  (printRules usageArgs = false /\ run = {| effects := []; status := Pending |})
  \/ (printRules usageArgs = true /\ apply usageArgs = false
      /\ run = {| effects := [ shown ]; status := Pending |})
  \/ (printRules usageArgs = true /\ apply usageArgs = true
      /\ ((exists message,
             outputFile path (shFileData securityCommands) = Some message
             /\ run = {| effects := [ shown; written; RemoveTemporaryFile path ];
                         status := Failed (ApplyError message) |})
          \/ (exists message,
                outputFile path (shFileData securityCommands) = None
                /\ exec path = Some message
                /\ run = {| effects := [ shown; written; Exec path; RemoveTemporaryFile path ];
                            status := Failed (ApplyError message) |})
          \/ (outputFile path (shFileData securityCommands) = None
              /\ exec path = None
              /\ run = {| effects := [ shown; written; Exec path; RemoveTemporaryFile path ];
                          status := Completed |}))).
Proof.
  cbv zeta. unfold printAndApply, applyRules.
  destruct (printRules usageArgs); cbn [negb]; [|now left].
  right. destruct (apply usageArgs); cbn [negb]; [|left; now repeat split].
  right. split; [reflexivity|]. split; [reflexivity|].
  destruct (outputFile _ _) as [message|] eqn:Hwrite.
  { left. exists message. now split. }
  right. destruct (exec _) as [message|] eqn:Hexec.
  { left. exists message. now repeat split. }
  right. now repeat split.
Qed.

Lemma find_first {A} (f : A -> bool) (before after : list A) (x : A) :
  (forall y, In y before -> f y = false) -> f x = true ->
  find f (before ++ x :: after) = Some x.
Proof.
  induction before as [|y r IH]; intros Hbefore Hx; cbn [app find].
  - now rewrite Hx.
  - rewrite (Hbefore y (or_introl eq_refl)). apply IH; [|assumption].
    intros z Hz. apply Hbefore. now right.
Qed.

Lemma find_nothing {A} (f : A -> bool) (l : list A) :
  (forall y, In y l -> f y = false) -> find f l = None.
Proof.
  induction l as [|y r IH]; intros H; cbn [find]; [reflexivity|].
  rewrite (H y (or_introl eq_refl)). apply IH. intros z Hz. apply H. now right.
Qed.

(** The lookups of LoadConfig, on a file that is read and valid. *)
Lemma loadConfig_item_missing (usageArgs : UsageArgs) (raw : JSON)
  (configuration : MainConfiguration) :
  loadYaml (configurationFilePath usageArgs) = inr raw ->
  configurationSchema raw = inr configuration ->
  (forall item, In item (configurations configuration) ->
                id item <> configurationId usageArgs) ->
  loadConfig usageArgs
  = inl (Error ("Cannot find the configuration item " ++ configurationId usageArgs)).
Proof.
  intros Hload Hvalid Hnone. unfold loadConfig. rewrite Hload, Hvalid.
  rewrite find_nothing; [reflexivity|].
  intros item Hitem. apply String.eqb_neq. now apply Hnone.
Qed.

Lemma loadConfig_job_missing (usageArgs : UsageArgs) (raw : JSON)
  (configuration : MainConfiguration) (before after : list ConfigurationItem)
  (item : ConfigurationItem) :
  loadYaml (configurationFilePath usageArgs) = inr raw ->
  configurationSchema raw = inr configuration ->
  configurations configuration = before ++ item :: after ->
  (forall other, In other before -> id other <> configurationId usageArgs) ->
  id item = configurationId usageArgs ->
  (forall job, In job (jobs item) -> job_name job <> jobName usageArgs) ->
  loadConfig usageArgs
  = inl (Error ("Cannot find the configuration job " ++ jobName usageArgs)).
Proof.
  intros Hload Hvalid Hitems Hbefore Hid Hnone. unfold loadConfig.
  rewrite Hload, Hvalid, Hitems.
  rewrite find_first;
    [|intros other Hother; apply String.eqb_neq; now apply Hbefore
     |now apply String.eqb_eq].
  rewrite find_nothing; [reflexivity|].
  intros job Hjob. apply String.eqb_neq. now apply Hnone.
Qed.

(** What a step of a validation rejects, the validation rejects. *)
Lemma joi_bind_rejects {A B} (r : JoiResult A) (k : A -> JoiResult B) :
  (forall a, exists message, k a = inl message) ->
  exists message, joi_bind r k = inl message.
Proof.
  intros H. destruct r as [m|a]; cbn [joi_bind]; [now exists m|apply H].
Qed.

Lemma job_schema_requires_engine (entry : list (string * JSON)) :
  property "engine" entry = None ->
  exists message, job_schema (JObj entry) = inl message.
Proof.
  intros H. unfold job_schema. cbn [Joi_object joi_bind].
  apply joi_bind_rejects. intros n. rewrite H. cbn [required joi_bind]. now eexists.
Qed.

Lemma configurationSchema_requires_engine (root item entry : list (string * JSON))
  (items entries : list JSON) :
  property "configurations" root = Some (JArr items) ->
  In (JObj item) items ->
  property "jobs" item = Some (JArr entries) ->
  In (JObj entry) entries ->
  property "engine" entry = None ->
  exists message, configurationSchema (JObj root) = inl message.
Proof.
  intros Hitems Hitem Hjobs Hentry Hengine.
  unfold configurationSchema. cbn [Joi_object joi_bind].
  apply joi_bind_rejects. intros ver.
  apply joi_bind_rejects. intros fver.
  apply joi_bind_rejects. intros g.
  rewrite Hitems. cbn [required Joi_array joi_bind].
  destruct (job_schema_requires_engine entry Hengine) as [m Hm].
  destruct (@Joi_items_rejects _ job_schema entries (JObj entry) m Hentry Hm) as [m' Hm'].
  assert (Hrejected : exists message, configuration_item_schema (JObj item) = inl message).
  { unfold configuration_item_schema. cbn [Joi_object joi_bind].
    apply joi_bind_rejects. intros i. rewrite Hjobs. cbn [required Joi_array joi_bind].
    rewrite Hm'. cbn [joi_bind]. now eexists. }
  destruct Hrejected as [m'' Hm''].
  destruct (@Joi_items_rejects _ configuration_item_schema items (JObj item) m'' Hitem Hm'')
    as [m3 Hm3].
  rewrite Hm3. cbn [joi_bind]. now eexists.
Qed.

(** The module of prepare-netfilter run by the program, on a valid policy. *)
Lemma prepare_netfilter_execute_install (context : JobContext)
  (policy : PrepareNetfilterJob.Policy) :
  PrepareNetfilterJob.schema (jc_jobConfiguration context) = inr policy ->
  jc_jobCommand_type context = "install" ->
  prepare_netfilter_execute context
  = inr {| securityCommands := install_forward (execution_context context) policy |}.
Proof.
  intros Hvalid Htype. unfold prepare_netfilter_execute.
  rewrite (@PrepareNetfilterFacts.run_forward joi (execution_context context)
             (jc_jobConfiguration context) policy eq_refl Hvalid)
    by (cbn [execution_context jobCommand_type]; now rewrite Htype).
  now apply finish_install.
Qed.

Lemma prepare_netfilter_execute_uninstall (context : JobContext)
  (policy : PrepareNetfilterJob.Policy) :
  PrepareNetfilterJob.schema (jc_jobConfiguration context) = inr policy ->
  jc_jobCommand_type context = "uninstall" ->
  prepare_netfilter_execute context
  = inr {| securityCommands := unInstall_backward policy |}.
Proof.
  intros Hvalid Htype. unfold prepare_netfilter_execute.
  rewrite (@PrepareNetfilterFacts.run_backward joi (execution_context context)
             (jc_jobConfiguration context) policy eq_refl Hvalid)
    by (cbn [execution_context jobCommand_type]; now rewrite Htype).
  apply finish_other. cbn [execution_context jobCommand_type]. rewrite Htype. discriminate.
Qed.

End Chain.

End GenericMainFacts.

(* ------------------------------------------------------------------------- *)
(** ** Further properties: the command line of the jobs *)

(** X5. Without the option to print, the program asks nothing of the outside
    and its chain never completes, whatever the option to apply: the step
    Print then returns a promise that is never settled, and the step Apply
    after it never runs. *)
Theorem main_print_gates_apply (joi : JoiLibrary) (host : GenericMain.Host)
  (usageArgs : GenericMain.UsageArgs) :
  GenericMain.printRules usageArgs = false ->
  GenericMain.effects (GenericMain.main usageArgs) = []
  /\ GenericMain.status (GenericMain.main usageArgs) <> GenericMain.Completed.
Proof.
  intros Hprint.
  destruct (GenericMainFacts.main_reaches_print usageArgs)
    as [(e & -> & _)|(c & j & m & r & _ & _ & _ & ->)].
  - split; [reflexivity|discriminate].
  - rewrite (GenericMainFacts.printAndApply_without_print _ _ Hprint).
    split; [reflexivity|discriminate].
Qed.

(** With the option to apply alone, on the example file, nothing is written
    or run. *)
Lemma main_print_gates_apply_witness :
  GenericMain.effects
    (@GenericMain.main example_joi (example_host example_main_configuration)
       (example_usage "gateway" "prepare-netfilter" false true)) = []
  /\ GenericMain.status
       (@GenericMain.main example_joi (example_host example_main_configuration)
          (example_usage "gateway" "prepare-netfilter" false true))
     <> GenericMain.Completed.
Proof.
  apply (@main_print_gates_apply example_joi (example_host example_main_configuration)
           (example_usage "gateway" "prepare-netfilter" false true)).
  reflexivity.
Defined.

(** X6. A script is run only at the end of a chain where every step before
    resolved and both options are set: the effects are then, in this order,
    the commands of the job printed, the script of the same commands written
    to the temporary file, the file run, and [removeTemporaryFile] called. *)
Theorem main_runs_only_the_printed_script (joi : JoiLibrary) (host : GenericMain.Host)
  (usageArgs : GenericMain.UsageArgs) (path : string) :
  In (GenericMain.Exec path) (GenericMain.effects (GenericMain.main usageArgs)) ->
  GenericMain.printRules usageArgs = true
  /\ GenericMain.apply usageArgs = true
  /\ path = GenericMain.temporaryFilePath
  /\ exists configuration configurationJob jobInstance securityCommands,
       GenericMain.loadConfig usageArgs = inr (configuration, configurationJob)
       /\ GenericMain.createJobInstance configurationJob = inr jobInstance
       /\ GenericMain.execute jobInstance
            (GenericMain.job_context usageArgs configuration configurationJob)
          = inr {| securityCommands := securityCommands |}
       /\ GenericMain.effects (GenericMain.main usageArgs)
          = [ GenericMain.StdoutWrite (GenericMain.printed securityCommands);
              GenericMain.OutputFile path (GenericMain.shFileData securityCommands);
              GenericMain.Exec path;
              GenericMain.RemoveTemporaryFile path ].
Proof.
  intros Hin.
  destruct (GenericMainFacts.main_reaches_print usageArgs)
    as [(e & Hmain & _)|(c & j & m & r & Hload & Hcreate & Hexecute & Hmain)];
    rewrite Hmain in Hin |- *.
  { destruct Hin. }
  pose proof (GenericMainFacts.printAndApply_cases usageArgs (securityCommands r)) as Hcases.
  cbv zeta in Hcases.
  assert (Hpath : forall effects,
             effects = [ GenericMain.StdoutWrite (GenericMain.printed (securityCommands r));
                         GenericMain.OutputFile GenericMain.temporaryFilePath
                           (GenericMain.shFileData (securityCommands r));
                         GenericMain.Exec GenericMain.temporaryFilePath;
                         GenericMain.RemoveTemporaryFile GenericMain.temporaryFilePath ] ->
             In (GenericMain.Exec path) effects -> path = GenericMain.temporaryFilePath).
  { intros effects -> [H|[H|[H|[H|[]]]]]; try discriminate H. now inversion H. }
  destruct Hcases as [(_ & Hrun)|[(_ & _ & Hrun)|(Hprint & Happly & Hrun)]].
  - rewrite Hrun in Hin. destruct Hin.
  - rewrite Hrun in Hin. destruct Hin as [H|[]]. discriminate H.
  - destruct Hrun as [(message & _ & Hrun)|[(message & _ & _ & Hrun)|(_ & _ & Hrun)]];
      rewrite Hrun in Hin |- *; cbn [GenericMain.effects] in Hin |- *.
    + destruct Hin as [H|[H|[H|[]]]]; discriminate H.
    + pose proof (Hpath _ eq_refl Hin) as ->.
      repeat split; try assumption. exists c, j, m, (securityCommands r).
      destruct r; now repeat split.
    + pose proof (Hpath _ eq_refl Hin) as ->.
      repeat split; try assumption. exists c, j, m, (securityCommands r).
      destruct r; now repeat split.
Qed.

(** On the example file, with both options. *)
Lemma main_runs_only_the_printed_script_witness :
  GenericMain.printRules (example_usage "gateway" "prepare-netfilter" true true) = true
  /\ GenericMain.apply (example_usage "gateway" "prepare-netfilter" true true) = true
  /\ "/tmp/netfilter-apply-1500000000000-110ec58a-a0f2-4ac4-8393-c866d813b8d1.sh"
     = @GenericMain.temporaryFilePath (example_host example_main_configuration).
Proof.
  destruct (@main_runs_only_the_printed_script example_joi
              (example_host example_main_configuration)
              (example_usage "gateway" "prepare-netfilter" true true)
              "/tmp/netfilter-apply-1500000000000-110ec58a-a0f2-4ac4-8393-c866d813b8d1.sh")
    as (Hprint & Happly & Hpath & _).
  - vm_compute. right. right. left. reflexivity.
  - repeat split; assumption.
Defined.

(** X7. The script and the printed text hold the same lines, one per command
    of the job in the order of the response: the script is its header then
    these lines, the printed text is these lines between two rule lines. When
    no command holds a line feed, reading the script line by line gives the
    commands of the job back. *)
Theorem script_is_the_printed_commands (securityCommands : list SecurityCommand) :
  GenericMain.shFileData securityCommands
  = (script_header ++ script_body securityCommands)%string
  /\ GenericMain.printed securityCommands
     = (rule_line ++ rule_line ++ script_body securityCommands
        ++ rule_line ++ rule_line)%string
  /\ (Forall (fun c => no_line_feed (value c) = true) securityCommands ->
      read_script (GenericMain.shFileData securityCommands) = Some securityCommands).
Proof.
  split; [apply GenericMainFacts.shFileData_body|].
  split; [apply GenericMainFacts.printed_body|].
  apply GenericMainFacts.read_script_shFileData.
Qed.

(** The script of the removal of the blacklist and of one chain. *)
Lemma script_is_the_printed_commands_witness :
  read_script
    (GenericMain.shFileData
       [ flush_block_net; asIptables4Command "-F IN_block_access_0" ])
  = Some [ flush_block_net; asIptables4Command "-F IN_block_access_0" ].
Proof.
  apply (script_is_the_printed_commands
           [ flush_block_net; asIptables4Command "-F IN_block_access_0" ]).
  repeat constructor.
Defined.

(** X8. A chain that fails before the step Apply has asked nothing of the
    outside; and whenever the program asked to write the script, whether
    writing it, running it or nothing failed, the call of
    [removeTemporaryFile] for that file is its last effect. *)
Theorem main_failure_effects (joi : JoiLibrary) (host : GenericMain.Host)
  (usageArgs : GenericMain.UsageArgs) :
  (forall e, GenericMain.status (GenericMain.main usageArgs) = GenericMain.Failed e ->
             (forall message, e <> GenericMain.ApplyError message) ->
             GenericMain.effects (GenericMain.main usageArgs) = [])
  /\ (forall path data,
         In (GenericMain.OutputFile path data)
            (GenericMain.effects (GenericMain.main usageArgs)) ->
         exists before,
           GenericMain.effects (GenericMain.main usageArgs)
           = before ++ [ GenericMain.RemoveTemporaryFile path ]).
Proof.
  destruct (GenericMainFacts.main_reaches_print usageArgs)
    as [(e & Hmain & _)|(c & j & m & r & _ & _ & _ & Hmain)]; rewrite Hmain.
  { split; [reflexivity|]. intros path data []. }
  pose proof (GenericMainFacts.printAndApply_cases usageArgs (securityCommands r)) as Hcases.
  cbv zeta in Hcases.
  destruct Hcases as [(_ & ->)|[(_ & _ & ->)|(_ & _ & Hrun)]].
  - split; [discriminate|]. intros path data [].
  - split; [discriminate|]. intros path data [H|[]]. discriminate H.
  - destruct Hrun as [(message & _ & ->)|[(message & _ & _ & ->)|(_ & _ & ->)]];
      cbn [GenericMain.effects GenericMain.status].
    + split.
      * intros e H Hnot. inversion H; subst. now destruct (Hnot message).
      * intros path data [H|[H|[H|[]]]]; try discriminate H. inversion H; subst.
        now exists [ GenericMain.StdoutWrite (GenericMain.printed (securityCommands r));
                     GenericMain.OutputFile GenericMain.temporaryFilePath
                       (GenericMain.shFileData (securityCommands r)) ].
    + split.
      * intros e H Hnot. inversion H; subst. now destruct (Hnot message).
      * intros path data [H|[H|[H|[H|[]]]]]; try discriminate H. inversion H; subst.
        now exists [ GenericMain.StdoutWrite (GenericMain.printed (securityCommands r));
                     GenericMain.OutputFile GenericMain.temporaryFilePath
                       (GenericMain.shFileData (securityCommands r));
                     GenericMain.Exec GenericMain.temporaryFilePath ].
    + split; [discriminate|].
      intros path data [H|[H|[H|[H|[]]]]]; try discriminate H. inversion H; subst.
      now exists [ GenericMain.StdoutWrite (GenericMain.printed (securityCommands r));
                   GenericMain.OutputFile GenericMain.temporaryFilePath
                     (GenericMain.shFileData (securityCommands r));
                   GenericMain.Exec GenericMain.temporaryFilePath ].
Qed.

(** Where running the script fails, [removeTemporaryFile] is called all the
    same. *)
Lemma main_failure_effects_witness :
  exists before,
    GenericMain.effects
      (@GenericMain.main example_joi example_host_exec_fails
         (example_usage "gateway" "prepare-netfilter" true true))
    = before
      ++ [ GenericMain.RemoveTemporaryFile
             "/tmp/netfilter-apply-1500000000000-110ec58a-a0f2-4ac4-8393-c866d813b8d1.sh" ].
Proof.
  destruct (@main_failure_effects example_joi example_host_exec_fails
              (example_usage "gateway" "prepare-netfilter" true true)) as (_ & removed).
  eapply removed.
  vm_compute. right. left. reflexivity.
Defined.

(** X9. The configuration is the first entry of [configurations] with the id
    asked for, and the job is looked up in that entry only. With no such entry
    the chain fails on "Cannot find the configuration item"; when the first
    entry with the id has no job of the name asked for it fails on "Cannot find
    the configuration job", whatever the entries after it hold. Either way the
    program has done nothing to the outside. *)
Theorem main_looks_up_the_first_configuration (joi : JoiLibrary) (host : GenericMain.Host)
  (usageArgs : GenericMain.UsageArgs) (raw : JSON)
  (configuration : GenericMain.MainConfiguration) :
  GenericMain.loadYaml (GenericMain.configurationFilePath usageArgs) = inr raw ->
  GenericMain.configurationSchema raw = inr configuration ->
  ((forall item, In item (GenericMain.configurations configuration) ->
                 GenericMain.id item <> GenericMain.configurationId usageArgs) ->
   GenericMain.main usageArgs
   = {| GenericMain.effects := [];
        GenericMain.status :=
          GenericMain.Failed
            (GenericMain.Error ("Cannot find the configuration item "
                                ++ GenericMain.configurationId usageArgs)) |})
  /\ (forall before item after,
         GenericMain.configurations configuration = before ++ item :: after ->
         (forall other, In other before ->
                        GenericMain.id other <> GenericMain.configurationId usageArgs) ->
         GenericMain.id item = GenericMain.configurationId usageArgs ->
         (forall job, In job (GenericMain.jobs item) ->
                      GenericMain.job_name job <> GenericMain.jobName usageArgs) ->
         GenericMain.main usageArgs
         = {| GenericMain.effects := [];
              GenericMain.status :=
                GenericMain.Failed
                  (GenericMain.Error ("Cannot find the configuration job "
                                      ++ GenericMain.jobName usageArgs)) |}).
Proof.
  intros Hload Hvalid. split.
  - intros Hnone. unfold GenericMain.main.
    now rewrite (@GenericMainFacts.loadConfig_item_missing joi host usageArgs raw
                   configuration Hload Hvalid Hnone).
  - intros before item after Hitems Hbefore Hid Hnone. unfold GenericMain.main.
    now rewrite (@GenericMainFacts.loadConfig_job_missing joi host usageArgs raw
                   configuration before after item Hload Hvalid Hitems Hbefore Hid Hnone).
Qed.

(** The example file has the configuration gateway, without the job
    sync-blacklist-ips. *)
Lemma main_looks_up_the_first_configuration_witness :
  @GenericMain.main example_joi (example_host example_main_configuration)
    (example_usage "gateway" "sync-blacklist-ips" true true)
  = {| GenericMain.effects := [];
       GenericMain.status :=
         GenericMain.Failed
           (GenericMain.Error "Cannot find the configuration job sync-blacklist-ips") |}.
Proof.
  destruct (@main_looks_up_the_first_configuration example_joi
              (example_host example_main_configuration)
              (example_usage "gateway" "sync-blacklist-ips" true true)
              example_main_configuration
              {| GenericMain.version := "1.0.0";
                 GenericMain.fileVersion := "1";
                 GenericMain.global :=
                   {| global_network_trustedItems := Some example_global_trusted |};
                 GenericMain.configurations :=
                   [ {| GenericMain.id := "gateway";
                        GenericMain.jobs :=
                          [ {| GenericMain.job_name := "prepare-netfilter";
                               GenericMain.job_engine_name := "iptables";
                               GenericMain.job_configuration := example_prepare_policy;
                               GenericMain.job_fields :=
                                 [ ("name", JStr "prepare-netfilter");
                                   ("engine", JObj [ ("name", JStr "iptables") ]);
                                   ("configuration", example_prepare_policy) ] |} ] |} ] |}
              eq_refl eq_refl) as (_ & job_missing).
  apply (job_missing [] _ [] eq_refl).
  - intros other [].
  - reflexivity.
  - intros job [<-|[]]. discriminate.
Defined.

(** X10. A configuration file with a job entry without [engine], in whatever
    configuration, is rejected as a whole: the chain fails on the error of the
    schema and nothing is asked of the outside, whichever configuration and
    job are asked for. *)
Theorem main_requires_the_engine_of_every_job (joi : JoiLibrary) (host : GenericMain.Host)
  (usageArgs : GenericMain.UsageArgs)
  (root item entry : list (string * JSON)) (items entries : list JSON) :
  GenericMain.loadYaml (GenericMain.configurationFilePath usageArgs) = inr (JObj root) ->
  property "configurations" root = Some (JArr items) ->
  In (JObj item) items ->
  property "jobs" item = Some (JArr entries) ->
  In (JObj entry) entries ->
  property "engine" entry = None ->
  exists message,
    GenericMain.main usageArgs
    = {| GenericMain.effects := [];
         GenericMain.status := GenericMain.Failed (GenericMain.ConfigurationError message) |}.
Proof.
  intros Hload Hitems Hitem Hjobs Hentry Hengine.
  destruct (@GenericMainFacts.configurationSchema_requires_engine joi root item entry
              items entries Hitems Hitem Hjobs Hentry Hengine) as [message Hrejected].
  exists message. unfold GenericMain.main, GenericMain.loadConfig.
  now rewrite Hload, Hrejected.
Qed.

(** The example file without the [engine] of its job. *)
Lemma main_requires_the_engine_of_every_job_witness :
  exists message,
    @GenericMain.main example_joi (example_host example_main_configuration_without_engine)
      (example_usage "gateway" "prepare-netfilter" true true)
    = {| GenericMain.effects := [];
         GenericMain.status := GenericMain.Failed (GenericMain.ConfigurationError message) |}.
Proof.
  eapply (@main_requires_the_engine_of_every_job example_joi
            (example_host example_main_configuration_without_engine)
            (example_usage "gateway" "prepare-netfilter" true true)).
  - reflexivity.
  - reflexivity.
  - left. reflexivity.
  - reflexivity.
  - left. reflexivity.
  - reflexivity.
Defined.

(** X11. The program run with the option to print on the job prepare-netfilter
    and a valid policy writes one text, the commands of the job, and stops
    there when it is not asked to apply. For an installation the additions to
    trusted_net in it are those of the trusted networks of the validated file,
    [global.network.trustedItems], then those of the policy of the job; for a
    removal the text is that of the removal transcript, in which the trusted
    networks of neither play a part. *)
Theorem main_prints_prepare_netfilter (joi : JoiLibrary) (host : GenericMain.Host)
  (usageArgs : GenericMain.UsageArgs) (configuration : GenericMain.MainConfiguration)
  (configurationJob : GenericMain.Job) (jobModule : GenericMain.JobModule)
  (policy : PrepareNetfilterJob.Policy) :
  GenericMain.loadConfig usageArgs = inr (configuration, configurationJob) ->
  GenericMain.requireJob (GenericMain.job_name configurationJob) = Some jobModule ->
  GenericMain.initialize jobModule = inr tt ->
  GenericMain.execute jobModule = GenericMain.prepare_netfilter_execute ->
  PrepareNetfilterJob.schema (GenericMain.job_configuration configurationJob) = inr policy ->
  GenericMain.printRules usageArgs = true ->
  GenericMain.apply usageArgs = false ->
  (GenericMain.action usageArgs = "install" ->
   exists transcript,
     GenericMain.main usageArgs
     = {| GenericMain.effects := [ GenericMain.StdoutWrite (GenericMain.printed transcript) ];
          GenericMain.status := GenericMain.Pending |}
     /\ filter adds_to_trusted_net transcript
        = map PrepareNetfilterJob.trusted_add
            (PrepareNetfilterJob.get_or_empty
               (global_network_trustedItems (GenericMain.global configuration))
             ++ PrepareNetfilterJob.get_or_empty
                  (PrepareNetfilterJob.trustedItems (PrepareNetfilterJob.network policy))))
  /\ (GenericMain.action usageArgs = "uninstall" ->
      GenericMain.main usageArgs
      = {| GenericMain.effects :=
             [ GenericMain.StdoutWrite (GenericMain.printed (unInstall_backward policy)) ];
           GenericMain.status := GenericMain.Pending |}).
Proof.
  intros Hload Hrequire Hinit Hexecute Hvalid Hprint Happly.
  assert (Hcreate : GenericMain.createJobInstance configurationJob = inr jobModule).
  { unfold GenericMain.createJobInstance. now rewrite Hrequire, Hinit. }
  split; intros Haction.
  - exists (install_forward
              (GenericMain.execution_context
                 (GenericMain.job_context usageArgs configuration configurationJob))
              policy).
    split.
    + unfold GenericMain.main. rewrite Hload, Hcreate, Hexecute.
      rewrite (@GenericMainFacts.prepare_netfilter_execute_install joi
                 (GenericMain.job_context usageArgs configuration configurationJob)
                 policy Hvalid Haction).
      cbn [securityCommands].
      unfold GenericMain.printAndApply, GenericMain.applyRules.
      now rewrite Hprint, Happly.
    + rewrite TrustedOrder.install_forward_adds. reflexivity.
  - unfold GenericMain.main. rewrite Hload, Hcreate, Hexecute.
    rewrite (@GenericMainFacts.prepare_netfilter_execute_uninstall joi
               (GenericMain.job_context usageArgs configuration configurationJob)
               policy Hvalid Haction).
    cbn [securityCommands].
    unfold GenericMain.printAndApply, GenericMain.applyRules.
    now rewrite Hprint, Happly.
Qed.

(** The example file: the two networks of the file then the one of the job. *)
Lemma main_prints_prepare_netfilter_witness :
  exists transcript,
    @GenericMain.main example_joi (example_host example_main_configuration)
      (example_usage "gateway" "prepare-netfilter" true false)
    = {| GenericMain.effects := [ GenericMain.StdoutWrite (GenericMain.printed transcript) ];
         GenericMain.status := GenericMain.Pending |}
    /\ filter adds_to_trusted_net transcript
       = [ asIpSetCommand "-! add trusted_net 10.0.0.0/8";
           asIpSetCommand "-! add trusted_net 10.1.0.0/16";
           asIpSetCommand "-! add trusted_net 172.16.0.0/12" ].
Proof.
  destruct (@main_prints_prepare_netfilter example_joi
              (example_host example_main_configuration)
              (example_usage "gateway" "prepare-netfilter" true false)
              {| GenericMain.version := "1.0.0";
                 GenericMain.fileVersion := "1";
                 GenericMain.global :=
                   {| global_network_trustedItems := Some example_global_trusted |};
                 GenericMain.configurations :=
                   [ {| GenericMain.id := "gateway";
                        GenericMain.jobs :=
                          [ {| GenericMain.job_name := "prepare-netfilter";
                               GenericMain.job_engine_name := "iptables";
                               GenericMain.job_configuration := example_prepare_policy;
                               GenericMain.job_fields :=
                                 [ ("name", JStr "prepare-netfilter");
                                   ("engine", JObj [ ("name", JStr "iptables") ]);
                                   ("configuration", example_prepare_policy) ] |} ] |} ] |}
              {| GenericMain.job_name := "prepare-netfilter";
                 GenericMain.job_engine_name := "iptables";
                 GenericMain.job_configuration := example_prepare_policy;
                 GenericMain.job_fields :=
                   [ ("name", JStr "prepare-netfilter");
                     ("engine", JObj [ ("name", JStr "iptables") ]);
                     ("configuration", example_prepare_policy) ] |}
              example_job_module example_prepare_validated
              eq_refl eq_refl eq_refl eq_refl eq_refl eq_refl eq_refl)
    as (installed & _).
  destruct (installed eq_refl) as (transcript & Hmain & Hadds).
  exists transcript. split; [exact Hmain|]. rewrite Hadds. reflexivity.
Defined.

(* ------------------------------------------------------------------------- *)
(** ** The order inside the transcripts *)

Module Sequencing.

Lemma created_before_use_app (known : list Resource) (l1 l2 : list SecurityCommand) :
  created_before_use known (l1 ++ l2)
  = created_before_use known l1 && created_before_use (known_after known l1) l2.
Proof.
  revert known. induction l1 as [|c r IH]; intros known; cbn [app created_before_use].
  - reflexivity.
  - rewrite IH. unfold known_after. cbn [fold_left]. now rewrite andb_assoc.
Qed.

Lemma known_after_app (known : list Resource) (l1 l2 : list SecurityCommand) :
  known_after known (l1 ++ l2) = known_after (known_after known l1) l2.
Proof. unfold known_after. apply fold_left_app. Qed.

(** Commands that create nothing and operate on what is known. *)
Lemma known_after_uses (known : list Resource) (l : list SecurityCommand) :
  (forall c, In c l -> creates c = None) -> known_after known l = known.
Proof.
  unfold known_after. induction l as [|c r IH]; intros H; cbn [fold_left]; [reflexivity|].
  rewrite (H c (or_introl eq_refl)). cbn [with_new]. apply IH.
  intros x Hx. apply H. now right.
Qed.

Lemma created_before_use_uses (known : list Resource) (l : list SecurityCommand) :
  (forall c, In c l -> creates c = None /\ forallb (known_to known) (operates_on c) = true) ->
  created_before_use known l = true.
Proof.
  induction l as [|c r IH]; intros H; cbn [created_before_use]; [reflexivity|].
  destruct (H c (or_introl eq_refl)) as [-> ->]. cbn [with_new andb]. apply IH.
  intros x Hx. apply H. now right.
Qed.

Lemma in_flat_map_all {A B} (P : B -> Prop) (f : A -> list B) (l : list A) :
  (forall x y, In y (f x) -> P y) -> forall y, In y (flat_map f l) -> P y.
Proof.
  intros H y Hy. apply in_flat_map in Hy. destruct Hy as (x & _ & Hy). now apply (H x).
Qed.

Lemma in_map_all {A B} (P : B -> Prop) (f : A -> B) (l : list A) :
  (forall x, P (f x)) -> forall y, In y (map f l) -> P y.
Proof.
  intros H y Hy. apply in_map_iff in Hy. destruct Hy as (x & <- & _). apply H.
Qed.

(** Where a command of a list is first met. *)
Lemma index_of_within (c : SecurityCommand) (l r : list SecurityCommand) :
  In c l -> exists k, index_of c (l ++ r) = Some k /\ (k < length l)%nat.
Proof.
  induction l as [|x l IH]; intros Hin; [destruct Hin|].
  cbn [app index_of length]. destruct (SecurityCommand_eqb c x) eqn:E.
  - exists 0%nat. split; [reflexivity|lia].
  - destruct Hin as [->|Hin]; [now rewrite SecurityCommand_eqb_refl in E|].
    destruct (IH Hin) as (k & -> & Hk). exists (S k). split; [reflexivity|lia].
Qed.

Lemma index_of_app_l (c : SecurityCommand) (l r : list SecurityCommand) (i : nat) :
  index_of c l = Some i -> index_of c (l ++ r) = Some i.
Proof.
  revert i. induction l as [|x l IH]; intros i H; [discriminate H|].
  cbn [app index_of] in *. destruct (SecurityCommand_eqb c x); [exact H|].
  destruct (index_of c l) as [k|]; [|discriminate H].
  now rewrite (IH k eq_refl).
Qed.

Lemma In_occurs (c : SecurityCommand) (l : list SecurityCommand) :
  In c l -> occurs c l = true.
Proof.
  intros H. unfold occurs. destruct (index_of_within c l [] H) as (k & Hk & _).
  rewrite app_nil_r in Hk. now rewrite Hk.
Qed.

(** A command of the first part of a transcript precedes a command that is
    first met in the second part. *)
Lemma precedes_across (a b : SecurityCommand) (before l : list SecurityCommand) :
  In a before ->
  (forall x, In x before -> SecurityCommand_eqb b x = false) ->
  occurs b l = true ->
  precedes a b (before ++ l) = true.
Proof.
  intros Ha Hb Hl. unfold precedes.
  destruct (index_of_within a before l Ha) as (i & -> & Hi).
  rewrite (index_of_app_off b before l Hb).
  unfold occurs in Hl. destruct (index_of b l) as [j|]; [|discriminate Hl].
  cbn [option_map]. apply Nat.ltb_lt. lia.
Qed.

(** The order of two commands is not changed by what comes after them. *)
Lemma precedes_app_l (a b : SecurityCommand) (l r : list SecurityCommand) :
  precedes a b l = true -> precedes a b (l ++ r) = true.
Proof.
  unfold precedes. intros H.
  destruct (index_of a l) as [i|] eqn:Ea; [|discriminate H].
  destruct (index_of b l) as [j|] eqn:Eb; [|discriminate H].
  now rewrite (index_of_app_l a l r Ea), (index_of_app_l b l r Eb).
Qed.

Lemma precedes_cons_off (a b x : SecurityCommand) (l : list SecurityCommand) :
  SecurityCommand_eqb a x = false -> SecurityCommand_eqb b x = false ->
  precedes a b (x :: l) = precedes a b l.
Proof.
  intros Ha Hb. apply (precedes_app_off a b [x] l); intros y [<-|[]]; assumption.
Qed.

(** The first command of a transcript precedes any other command of it. *)
Lemma precedes_first (a b : SecurityCommand) (l : list SecurityCommand) :
  SecurityCommand_eqb b a = false -> occurs b l = true -> precedes a b (a :: l) = true.
Proof.
  intros Hb Hl. apply (precedes_across a b [a] l); [now left| |exact Hl].
  intros y [<-|[]]. exact Hb.
Qed.

Lemma forallb_map_all {A X} (f : A -> bool) (g : X -> A) (l : list X) :
  (forall x, f (g x) = true) -> forallb f (map g l) = true.
Proof.
  intros H. induction l as [|x l IH]; cbn [map forallb]; [reflexivity|].
  now rewrite H, IH.
Qed.

Lemma existsb_none {A} (f : A -> bool) (l : list A) :
  (forall x, In x l -> f x = false) -> existsb f l = false.
Proof.
  induction l as [|x l IH]; intros H; cbn [existsb]; [reflexivity|].
  rewrite (H x (or_introl eq_refl)). apply IH. intros y Hy. apply H. now right.
Qed.

(** Takes a hypothesis [In x l] apart along the shape of [l] and leaves the
    command [x] of each case to [leaf]. *)
Ltac each_command_of H leaf :=
  lazymatch type of H with
  | In _ (_ ++ _) =>
      apply in_app_or in H; destruct H as [H|H]; each_command_of H leaf
  | In _ (_ :: _) =>
      destruct H as [<-|H]; [leaf|each_command_of H leaf]
  | In _ [] => destruct H
  | In _ (flat_map _ _) =>
      apply in_flat_map in H; destruct H as (? & _ & H); cbv beta in H;
      each_command_of H leaf
  | In _ (map _ _) =>
      apply in_map_iff in H; destruct H as (? & <- & _); leaf
  end.

(** Finds a command in a list of known shape. *)
Ltac find_command :=
  lazymatch goal with
  | |- In _ (_ ++ _) =>
      apply in_or_app; first [ left; find_command | right; find_command ]
  | |- In _ (_ :: _) =>
      first [ left; reflexivity | right; find_command ]
  end.

(** The command differs from every command of a list of known shape. *)
Ltac nowhere :=
  let x := fresh "x" in
  let Hx := fresh "Hx" in
  intros x Hx; each_command_of Hx ltac:(reflexivity).

(** [precedes a b l = true] and [occurs a l = true], piece after piece of
    [l]. *)
Ltac ordered :=
  first
    [ reflexivity
    | apply precedes_across;
      [ solve [find_command] | solve [nowhere] | solve [apply In_occurs; find_command] ]
    | rewrite precedes_app_off by nowhere; ordered
    | apply precedes_first; [ reflexivity | apply In_occurs; solve [find_command] ]
    | rewrite precedes_cons_off by reflexivity; ordered
    | apply precedes_app_l; ordered
    | apply In_occurs; solve [find_command] ].

(** A conjunction of orders, as [in_this_order] gives them. *)
Ltac all_ordered :=
  cbn [forallb in_this_order];
  repeat (apply andb_true_intro; split); try reflexivity.

End Sequencing.

Module PrepareSequencing.
Import PrepareNetfilterJob Sequencing.

(** Shows the lists of the generators of prepare-netfilter as the pieces they
    are made of, one after the other. *)
Ltac pieces :=
  cbv [install_forward install_backward unInstall_forward unInstall_backward
       vital_install vital_unInstall vital_interface_rules vital_loopback_rules
       block_install block_unInstall services_install services_unInstall
       trusted_install trusted_unInstall root_install root_unInstall];
  rewrite <- ?app_assoc.

Ltac pieces_in H :=
  cbv [install_forward install_backward unInstall_forward unInstall_backward
       vital_install vital_unInstall vital_interface_rules vital_loopback_rules
       block_install block_unInstall services_install services_unInstall
       trusted_install trusted_unInstall root_install root_unInstall] in H.

Ltac each_command :=
  repeat match goal with
         | H : In _ (_ :: _) |- _ => destruct H as [<-|H]
         | H : In _ [] |- _ => destruct H
         end.

Lemma vital_interface_rules_use (known : list Resource) (i : PrimaryInterface) :
  forall c, In c (vital_interface_rules vital_chainName i) ->
    creates c = None
    /\ forallb (known_to (Chain "OUT_vital_access_0" :: Chain "IN_vital_access_0" :: known))
         (operates_on c) = true.
Proof.
  intros c Hc. unfold vital_interface_rules in Hc. apply in_app_or in Hc.
  destruct Hc as [Hc|Hc].
  - each_command; split; reflexivity.
  - revert c Hc. apply in_flat_map_all. intros n c Hc. unfold vital_loopback_rules in Hc.
    each_command; split; reflexivity.
Qed.

Lemma vital_install_sequenced (known : list Resource) (policy : Policy) :
  created_before_use known (vital_install policy) = true
  /\ known_after known (vital_install policy)
     = Chain "OUT_vital_access_0" :: Chain "IN_vital_access_0" :: known.
Proof.
  unfold vital_install. cbv zeta.
  rewrite !created_before_use_app, !known_after_app.
  set (created := known_after known _).
  assert (Hcreated : created
                     = Chain "OUT_vital_access_0" :: Chain "IN_vital_access_0" :: known)
    by reflexivity.
  rewrite Hcreated.
  assert (Hrules : forall c,
             In c (flat_map (vital_interface_rules vital_chainName)
                     (primaryInterfaces (network policy))) ->
             creates c = None
             /\ forallb (known_to (Chain "OUT_vital_access_0"
                                   :: Chain "IN_vital_access_0" :: known))
                  (operates_on c) = true).
  { apply in_flat_map_all. intros i. apply vital_interface_rules_use. }
  rewrite (created_before_use_uses _ _ Hrules).
  rewrite known_after_uses by (intros c Hc; apply (Hrules c Hc)).
  split; reflexivity.
Qed.

Lemma trusted_install_sequenced (known : list Resource)
  (context : ExecutionContext Policy) (policy : Policy) :
  created_before_use known (trusted_install context policy) = true
  /\ known_after known (trusted_install context policy)
     = Chain "OUT_trusted_access_0" :: Chain "IN_trusted_access_0"
       :: IpSet "trusted_net" :: known.
Proof.
  unfold trusted_install. cbv zeta.
  rewrite !created_before_use_app, !known_after_app.
  set (created := known_after known _).
  assert (Hcreated : created = IpSet "trusted_net" :: known) by reflexivity.
  rewrite Hcreated.
  assert (Hadds : forall c, In c (map trusted_add (trustedNetworks context policy)) ->
             creates c = None
             /\ forallb (known_to (IpSet "trusted_net" :: known)) (operates_on c) = true).
  { apply in_map_all. intros n. split; reflexivity. }
  rewrite (created_before_use_uses _ _ Hadds).
  rewrite known_after_uses by (intros c Hc; apply (Hadds c Hc)).
  split; reflexivity.
Qed.

Lemma root_install_sequenced (policy : Policy) :
  created_before_use prepared (root_install policy) = true
  /\ known_after prepared (root_install policy) = prepared.
Proof.
  assert (Hroot : forall c, In c (root_install policy) ->
             creates c = None /\ forallb (known_to prepared) (operates_on c) = true).
  { intros c Hc. unfold root_install in Hc.
    apply in_app_or in Hc. destruct Hc as [Hc|Hc]; [each_command; split; reflexivity|].
    apply in_app_or in Hc. destruct Hc as [Hc|Hc]; [|each_command; split; reflexivity].
    revert c Hc. apply in_map_all. intros i. split; reflexivity. }
  split.
  - now apply created_before_use_uses.
  - apply known_after_uses. intros c Hc. apply (Hroot c Hc).
Qed.

Lemma install_forward_sequenced (context : ExecutionContext Policy) (policy : Policy) :
  created_before_use [] (install_forward context policy) = true
  /\ known_after [] (install_forward context policy) = prepared.
Proof.
  unfold install_forward.
  rewrite !created_before_use_app, !known_after_app.
  destruct (vital_install_sequenced [] policy) as [-> ->].
  set (block := known_after _ block_install).
  assert (Hblock : block = [ IpSet "block_net"; Chain "IN_block_access_0";
                             Chain "OUT_vital_access_0"; Chain "IN_vital_access_0" ])
    by reflexivity.
  rewrite Hblock.
  set (services := known_after _ services_install).
  assert (Hservices : services
                      = [ Chain "OUT_services_access_0"; Chain "IN_services_access_0";
                          IpSet "block_net"; Chain "IN_block_access_0";
                          Chain "OUT_vital_access_0"; Chain "IN_vital_access_0" ])
    by reflexivity.
  rewrite Hservices.
  destruct (trusted_install_sequenced
              [ Chain "OUT_services_access_0"; Chain "IN_services_access_0";
                IpSet "block_net"; Chain "IN_block_access_0";
                Chain "OUT_vital_access_0"; Chain "IN_vital_access_0" ] context policy)
    as [-> ->].
  fold prepared.
  destruct (root_install_sequenced policy) as [-> ->].
  split; reflexivity.
Qed.

(** The rules on INPUT and OUTPUT are those of [generateRootAccessChains]. *)
Lemma root_install_on_root (policy : Policy) :
  forallb on_root (root_install policy) = true.
Proof.
  unfold root_install. rewrite !forallb_app.
  rewrite forallb_map_all by (intros i; reflexivity). reflexivity.
Qed.

Lemma root_unInstall_on_root (policy : Policy) :
  forallb on_root (root_unInstall policy) = true.
Proof.
  unfold root_unInstall. rewrite !forallb_app.
  rewrite forallb_map_all by (intros i; reflexivity). reflexivity.
Qed.

Lemma build_off_root (context : ExecutionContext Policy) (policy : Policy) :
  existsb on_root (vital_install policy ++ block_install ++ services_install
                   ++ trusted_install context policy) = false.
Proof.
  apply existsb_none. intros x Hx. pieces_in Hx.
  each_command_of Hx ltac:(reflexivity).
Qed.

End PrepareSequencing.

Module ServiceSequencing.
Import Sequencing.
Local Open Scope string_scope.

Lemma split_space_word (w rest : string) :
  no_space w = true -> split_space (w ++ " " ++ rest) = Some (w, rest).
Proof.
  induction w as [|c w IH]; intros H; [reflexivity|].
  cbn [no_space] in H. apply andb_true_iff in H. destruct H as [Hc Hw].
  apply negb_true_iff in Hc.
  change (String c w ++ " " ++ rest)%string with (String c (w ++ " " ++ rest)).
  cbn [split_space]. now rewrite Hc, IH.
Qed.

Lemma Resource_eqb_refl (x : Resource) : Resource_eqb x x = true.
Proof. destruct x; apply String.eqb_refl. Qed.

Lemma known_to_here (x : Resource) (known : list Resource) : known_to (x :: known) x = true.
Proof.
  unfold known_to. cbn [existsb]. rewrite Resource_eqb_refl. apply orb_true_r.
Qed.

Lemma known_to_later (x y : Resource) (known : list Resource) :
  known_to known x = true -> known_to (y :: known) x = true.
Proof.
  unfold known_to. cbn [existsb]. intros H. apply orb_true_iff in H.
  destruct H as [H | H]; rewrite H; [reflexivity|]. now rewrite !orb_true_r.
Qed.

(** A rule appended to a chain of a job operates on that chain. *)
Lemma operates_on_appended (w rest : string) :
  no_space w = true ->
  appended_to builtin_chains ("-A " ++ w ++ " " ++ rest) = None ->
  operates_on (asIptables4Command ("-A " ++ w ++ " " ++ rest)) = [ Chain w ].
Proof.
  intros Hw Hbuiltin.
  unfold operates_on, appended_rule, inserted_link, deleted_link, flushed_chain,
    destroyed_chain, added_to_set, flushed_set, destroyed_set.
  cbn [type value asIptables4Command].
  replace (strip_prefix "-A " ("-A " ++ w ++ " " ++ rest)) with (Some (w ++ " " ++ rest))
    by reflexivity.
  replace (strip_prefix "-I " ("-A " ++ w ++ " " ++ rest)) with (@None string) by reflexivity.
  replace (strip_prefix "-D " ("-A " ++ w ++ " " ++ rest)) with (@None string) by reflexivity.
  replace (strip_prefix "-F " ("-A " ++ w ++ " " ++ rest)) with (@None string) by reflexivity.
  replace (strip_prefix "-X " ("-A " ++ w ++ " " ++ rest)) with (@None string) by reflexivity.
  cbv beta iota. rewrite (@split_space_word w rest Hw), Hbuiltin.
  reflexivity.
Qed.

(** Rewrites the one [operates_on] of the goal by a lemma that gives it up to
    the computation of the text of the command. *)
Ltac operates_on_by lemma :=
  match goal with
  | |- context [operates_on ?c] =>
      match type of lemma with
      | _ = ?needed => replace (operates_on c) with needed by (symmetry; exact lemma)
      end
  end.

Section Generic.
Import GenericServiceJob.
Variable chain : string.
Hypothesis spaceless : no_space chain = true.

Lemma generic_IN_known : known_to (generic_built chain) (Chain ("IN_" ++ chain)) = true.
Proof. apply known_to_later, known_to_here. Qed.

Lemma generic_OUT_known : known_to (generic_built chain) (Chain ("OUT_" ++ chain)) = true.
Proof. apply known_to_here. Qed.

Lemma generic_prepared_known (x : Resource) :
  known_to prepared x = true -> known_to (generic_built chain) x = true.
Proof. intros H. now apply known_to_later, known_to_later. Qed.

Lemma item_rules_use (item : Item) :
  forall c, In c (item_rules chain item) ->
    creates c = None /\ forallb (known_to (generic_built chain)) (operates_on c) = true.
Proof.
  assert (Hone : forall rest,
            creates (asIptables4Command ("-A " ++ ("IN_" ++ chain) ++ " " ++ rest)) = None
            /\ forallb (known_to (generic_built chain))
                 (operates_on (asIptables4Command ("-A " ++ ("IN_" ++ chain) ++ " " ++ rest)))
               = true).
  { intros rest. split; [reflexivity|].
    rewrite (operates_on_appended ("IN_" ++ chain) rest spaceless eq_refl).
    cbn [forallb]. now rewrite generic_IN_known. }
  intros c. unfold item_rules. cbv zeta.
  destruct (length (or_empty (sourceNetworks item)) =? 0)%nat.
  - intros [<-|[]]. apply Hone.
  - revert c. apply in_map_all. intros n. apply (Hone ("-s " ++ n ++ " " ++ _)).
Qed.

Lemma generic_install_sequenced (policy : Policy) :
  created_before_use prepared (rules_install chain policy) = true.
Proof.
  unfold rules_install. rewrite !created_before_use_app.
  replace (created_before_use prepared
             [ asIptables4Command ("-N IN_" ++ chain); asIptables4Command ("-N OUT_" ++ chain) ])
    with true by reflexivity.
  replace (known_after prepared
             [ asIptables4Command ("-N IN_" ++ chain); asIptables4Command ("-N OUT_" ++ chain) ])
    with (generic_built chain) by reflexivity.
  assert (Hitems : forall c, In c (flat_map (item_rules chain) (network_items policy)) ->
             creates c = None /\ forallb (known_to (generic_built chain)) (operates_on c) = true).
  { apply in_flat_map_all. intros item. apply item_rules_use. }
  rewrite (created_before_use_uses _ _ Hitems).
  rewrite known_after_uses by (intros c Hc; apply (Hitems c Hc)).
  cbn [andb]. apply created_before_use_uses. intros c Hc.
  destruct Hc as [<-|[<-|[<-|[<-|[]]]]]; (split; [reflexivity|]).
  - operates_on_by (operates_on_appended ("IN_" ++ chain) "-j RETURN" spaceless eq_refl).
    cbn [forallb]. now rewrite generic_IN_known.
  - operates_on_by (operates_on_appended ("OUT_" ++ chain) "-j RETURN" spaceless eq_refl).
    cbn [forallb]. now rewrite generic_OUT_known.
  - replace (operates_on (asIptables4Command ("-I IN_services_access_0 1 -j IN_" ++ chain)))
      with [ Chain "IN_services_access_0" ] by reflexivity.
    cbn [forallb].
    now rewrite (generic_prepared_known (Chain "IN_services_access_0")).
  - replace (operates_on (asIptables4Command ("-I OUT_services_access_0 1 -j OUT_" ++ chain)))
      with [ Chain "OUT_services_access_0" ] by reflexivity.
    cbn [forallb].
    now rewrite (generic_prepared_known (Chain "OUT_services_access_0")).
Qed.

End Generic.

Section DockerDns.
Import DockerDnsServiceJob.
Variable chain : string.
Hypothesis spaceless : no_space chain = true.

Lemma dns_IN_known : known_to (dns_built chain) (Chain ("IN_dns_" ++ chain)) = true.
Proof. apply known_to_later, known_to_here. Qed.

Lemma dns_OUT_known : known_to (dns_built chain) (Chain ("OUT_dns_" ++ chain)) = true.
Proof. apply known_to_here. Qed.

Lemma dns_prepared_known (x : Resource) :
  known_to prepared x = true -> known_to (dns_built chain) x = true.
Proof. intros H. now apply known_to_later, known_to_later. Qed.

Lemma item_install_use (item : Item) :
  forall c, In c (item_install chain item) ->
    creates c = None /\ forallb (known_to (dns_built chain)) (operates_on c) = true.
Proof.
  intros c Hc. unfold item_install in Hc. cbv zeta in Hc.
  destruct Hc as [<-|[<-|[<-|[<-|[<-|[<-|[]]]]]]]; (split; [reflexivity|]);
    try reflexivity.
  - operates_on_by (operates_on_appended ("IN_dns_" ++ chain)
                      ("-p tcp -d " ++ sourceIpAddress item ++ " --dport "
                       ++ Number_toString (sourcePortNumber item) ++ " -j ACCEPT")
                      spaceless eq_refl).
    cbn [forallb]. now rewrite dns_IN_known.
  - operates_on_by (operates_on_appended ("IN_dns_" ++ chain)
                      ("-p udp -d " ++ sourceIpAddress item ++ " --dport "
                       ++ Number_toString (sourcePortNumber item) ++ " -j ACCEPT")
                      spaceless eq_refl).
    cbn [forallb]. now rewrite dns_IN_known.
Qed.

Lemma dns_install_sequenced (policy : Policy) :
  created_before_use prepared (rules_install chain policy) = true.
Proof.
  unfold rules_install. rewrite !created_before_use_app.
  replace (created_before_use prepared
             [ asIptables4Command ("-N IN_dns_" ++ chain);
               asIptables4Command ("-N OUT_dns_" ++ chain) ])
    with true by reflexivity.
  replace (known_after prepared
             [ asIptables4Command ("-N IN_dns_" ++ chain);
               asIptables4Command ("-N OUT_dns_" ++ chain) ])
    with (dns_built chain) by reflexivity.
  assert (Hitems : forall c, In c (flat_map (item_install chain) (network_items policy)) ->
             creates c = None /\ forallb (known_to (dns_built chain)) (operates_on c) = true).
  { apply in_flat_map_all. intros item. apply item_install_use. }
  rewrite (created_before_use_uses _ _ Hitems).
  rewrite known_after_uses by (intros c Hc; apply (Hitems c Hc)).
  cbn [andb]. apply created_before_use_uses. intros c Hc.
  destruct Hc as [<-|[<-|[<-|[<-|[]]]]]; (split; [reflexivity|]).
  - operates_on_by (operates_on_appended ("IN_dns_" ++ chain) "-j RETURN" spaceless eq_refl).
    cbn [forallb]. now rewrite dns_IN_known.
  - operates_on_by (operates_on_appended ("OUT_dns_" ++ chain) "-j RETURN" spaceless eq_refl).
    cbn [forallb]. now rewrite dns_OUT_known.
  - replace (operates_on (asIptables4Command ("-I IN_services_access_0 1 -j IN_dns_" ++ chain)))
      with [ Chain "IN_services_access_0" ] by reflexivity.
    cbn [forallb].
    now rewrite (dns_prepared_known (Chain "IN_services_access_0")).
  - replace (operates_on (asIptables4Command ("-I OUT_services_access_0 1 -j OUT_dns_" ++ chain)))
      with [ Chain "OUT_services_access_0" ] by reflexivity.
    cbn [forallb].
    now rewrite (dns_prepared_known (Chain "OUT_services_access_0")).
Qed.

End DockerDns.

Lemma blacklist_install_sequenced (result : list NetworkItem) :
  created_before_use prepared (map SynchronizeBlacklistIps.block_add result) = true.
Proof.
  apply created_before_use_uses. apply in_map_all. intros n. split; reflexivity.
Qed.

(** Where prepare-netfilter did not install, the first addition finds no
    set. *)
Lemma blacklist_install_needs_the_set (result : list NetworkItem) :
  result <> [] ->
  created_before_use [] (map SynchronizeBlacklistIps.block_add result) = false.
Proof.
  destruct result as [|n r]; intros H; [now destruct H|]. reflexivity.
Qed.

End ServiceSequencing.

(* ------------------------------------------------------------------------- *)
(** ** Further properties: the order inside the transcripts *)

(** X12. The install transcript of prepare-netfilter, for every valid policy,
    is a first part with no rule on INPUT or OUTPUT followed by a second part
    with nothing but rules on INPUT and OUTPUT. Every command of it comes
    after the creation of the chain or set it operates on (the chain it
    appends to or inserts in, the set it adds to), unless that chain is one of
    netfilter itself, and after it the nine chains and sets of [prepared]
    exist. Each of the seven chains is created, then closed by its last rule,
    then entered from INPUT or OUTPUT by the rule that jumps to it; the set
    [trusted_net] is created before the chains whose rules match on it, and
    the set [block_net] before the rule on INPUT that matches on it. The
    install list that a removal leaves in the context is in the reverse order
    of the steps: there the rule that jumps to each chain comes before the
    creation of the chain. What the default action of an interface jumps to is
    the policy's text and is not part of the property. *)
Theorem prepare_install_creates_before_use (joi : JoiLibrary)
  (context : ExecutionContext PrepareNetfilterJob.Policy) (raw : JSON)
  (policy : PrepareNetfilterJob.Policy) :
  let iptables (text : string) := {| type := iptables_4; value := text |} in
  let set_tool (text : string) := {| type := ipset; value := text |} in
  jobConfiguration context = Unvalidated raw ->
  PrepareNetfilterJob.schema raw = inr policy ->
  (exists build links,
     snd (PrepareNetfilterJob.execute (set_jobCommand context "install"))
     = inr {| securityCommands := build ++ links |}
     /\ existsb on_root build = false
     /\ forallb on_root links = true
     /\ created_before_use [] (build ++ links) = true
     /\ known_after [] (build ++ links) = prepared
     /\ forallb (fun steps => in_this_order steps (build ++ links))
          [ [ set_tool "-! create trusted_net hash:net";
              iptables "-N IN_trusted_access_0";
              iptables "-A IN_trusted_access_0 -m set --match-set trusted_net src -j ACCEPT";
              iptables "-A IN_trusted_access_0 -j RETURN";
              iptables "-I INPUT 1 -j IN_trusted_access_0" ];
            [ set_tool "-! create trusted_net hash:net";
              iptables "-N OUT_trusted_access_0";
              iptables "-A OUT_trusted_access_0 -m set --match-set trusted_net dst -j ACCEPT";
              iptables "-A OUT_trusted_access_0 -j RETURN";
              iptables "-I OUTPUT 1 -j OUT_trusted_access_0" ];
            [ iptables "-N IN_vital_access_0";
              iptables "-A IN_vital_access_0 -j RETURN";
              iptables "-I INPUT 2 -j IN_vital_access_0" ];
            [ iptables "-N OUT_vital_access_0";
              iptables "-A OUT_vital_access_0 -j RETURN";
              iptables "-I OUTPUT 2 -j OUT_vital_access_0" ];
            [ iptables "-N IN_block_access_0";
              set_tool "-! create block_net hash:net";
              iptables "-A IN_block_access_0 -j DROP";
              iptables "-I INPUT 3 -m set --match-set block_net src -j IN_block_access_0" ];
            [ iptables "-N IN_services_access_0";
              iptables "-A IN_services_access_0 -j RETURN";
              iptables "-I INPUT 4 -j IN_services_access_0" ];
            [ iptables "-N OUT_services_access_0";
              iptables "-A OUT_services_access_0 -j RETURN";
              iptables "-I OUTPUT 3 -j OUT_services_access_0" ] ] = true)
  /\ forallb (fun steps =>
                in_this_order steps
                  (install (commands (fst (PrepareNetfilterJob.execute
                                             (set_jobCommand context "uninstall"))))))
       [ [ iptables "-I INPUT 1 -j IN_trusted_access_0"; iptables "-N IN_trusted_access_0" ];
         [ iptables "-I OUTPUT 1 -j OUT_trusted_access_0"; iptables "-N OUT_trusted_access_0" ];
         [ iptables "-I INPUT 2 -j IN_vital_access_0"; iptables "-N IN_vital_access_0" ];
         [ iptables "-I OUTPUT 2 -j OUT_vital_access_0"; iptables "-N OUT_vital_access_0" ];
         [ iptables "-I INPUT 3 -m set --match-set block_net src -j IN_block_access_0";
           iptables "-N IN_block_access_0" ];
         [ iptables "-I INPUT 3 -m set --match-set block_net src -j IN_block_access_0";
           set_tool "-! create block_net hash:net" ];
         [ iptables "-I INPUT 4 -j IN_services_access_0"; iptables "-N IN_services_access_0" ];
         [ iptables "-I OUTPUT 3 -j OUT_services_access_0";
           iptables "-N OUT_services_access_0" ] ] = true.
Proof.
  intros iptables set_tool loaded valid. subst iptables set_tool. cbv beta. split.
  - exists (PrepareNetfilterJob.vital_install policy ++ PrepareNetfilterJob.block_install
            ++ PrepareNetfilterJob.services_install
            ++ PrepareNetfilterJob.trusted_install (set_jobCommand context "install") policy),
      (PrepareNetfilterJob.root_install policy).
    assert (Hshape : (PrepareNetfilterJob.vital_install policy
                      ++ PrepareNetfilterJob.block_install
                      ++ PrepareNetfilterJob.services_install
                      ++ PrepareNetfilterJob.trusted_install
                           (set_jobCommand context "install") policy)
                     ++ PrepareNetfilterJob.root_install policy
                     = install_forward (set_jobCommand context "install") policy)
      by (unfold install_forward; now rewrite <- !app_assoc).
    rewrite Hshape.
    rewrite (@PrepareNetfilterFacts.run_forward joi (set_jobCommand context "install")
               raw policy loaded valid eq_refl).
    split; [now apply finish_install|].
    split; [apply PrepareSequencing.build_off_root|].
    split; [apply PrepareSequencing.root_install_on_root|].
    split; [apply PrepareSequencing.install_forward_sequenced|].
    split; [apply PrepareSequencing.install_forward_sequenced|].
    Sequencing.all_ordered; PrepareSequencing.pieces; Sequencing.ordered.
  - rewrite (@PrepareNetfilterFacts.run_backward joi (set_jobCommand context "uninstall")
               raw policy loaded valid eq_refl).
    rewrite finish_context. unfold after_run. cbn [commands install].
    Sequencing.all_ordered; PrepareSequencing.pieces; Sequencing.ordered.
Qed.

(** The example policy. *)
Lemma prepare_install_creates_before_use_witness :
  exists build links,
    snd (@PrepareNetfilterJob.execute example_joi (example_prepare_context "install"))
    = inr {| securityCommands := build ++ links |}
    /\ existsb on_root build = false
    /\ forallb on_root links = true
    /\ created_before_use [] (build ++ links) = true
    /\ known_after [] (build ++ links) = prepared.
Proof.
  destruct (proj1 (@prepare_install_creates_before_use example_joi
                     (example_prepare_context "install") example_prepare_policy
                     example_prepare_validated eq_refl eq_refl))
    as (build & links & Hrun & Hbuild & Hlinks & Hcreated & Hknown & _).
  exists build, links. repeat split; assumption.
Defined.

(** X13. The uninstall transcript of prepare-netfilter, for every valid
    policy, is a first part with nothing but rules on INPUT and OUTPUT
    followed by a second part with no rule on INPUT or OUTPUT: every deletion
    on the two chains, the default actions of the interfaces among them, comes
    before the first flush. For each of the seven chains the rule on INPUT or
    OUTPUT that jumps to it is deleted, then the chain is flushed, then it is
    destroyed; the set [trusted_net] is destroyed after the two chains whose
    rules match on it, and the set [block_net] after the rule on INPUT that
    matches on it is deleted. The transcript returned for a type such as
    "Install", which lowercases to "install" without being it, is the
    uninstall list in the order of an installation: there each of the seven
    chains is destroyed before the rule that jumps to it is deleted, and the
    set [block_net] before the rule that matches on it. *)
Theorem prepare_uninstall_unlinks_then_tears_down (joi : JoiLibrary)
  (context : ExecutionContext PrepareNetfilterJob.Policy) (raw : JSON)
  (policy : PrepareNetfilterJob.Policy) :
  let iptables (text : string) := {| type := iptables_4; value := text |} in
  let set_tool (text : string) := {| type := ipset; value := text |} in
  jobConfiguration context = Unvalidated raw ->
  PrepareNetfilterJob.schema raw = inr policy ->
  (exists links rest,
     snd (PrepareNetfilterJob.execute (set_jobCommand context "uninstall"))
     = inr {| securityCommands := links ++ rest |}
     /\ forallb on_root links = true
     /\ existsb on_root rest = false
     /\ forallb (fun steps => in_this_order steps (links ++ rest))
          [ [ iptables "-D INPUT -j IN_trusted_access_0";
              iptables "-F IN_trusted_access_0";
              iptables "-X IN_trusted_access_0";
              set_tool "-! destroy trusted_net" ];
            [ iptables "-D OUTPUT -j OUT_trusted_access_0";
              iptables "-F OUT_trusted_access_0";
              iptables "-X OUT_trusted_access_0";
              set_tool "-! destroy trusted_net" ];
            [ iptables "-D INPUT -j IN_vital_access_0";
              iptables "-F IN_vital_access_0";
              iptables "-X IN_vital_access_0" ];
            [ iptables "-D OUTPUT -j OUT_vital_access_0";
              iptables "-F OUT_vital_access_0";
              iptables "-X OUT_vital_access_0" ];
            [ iptables "-D INPUT -m set --match-set block_net src -j IN_block_access_0";
              iptables "-F IN_block_access_0";
              iptables "-X IN_block_access_0";
              set_tool "-! destroy block_net" ];
            [ iptables "-D INPUT -j IN_services_access_0";
              iptables "-F IN_services_access_0";
              iptables "-X IN_services_access_0" ];
            [ iptables "-D OUTPUT -j OUT_services_access_0";
              iptables "-F OUT_services_access_0";
              iptables "-X OUT_services_access_0" ] ] = true)
  /\ (forall type,
         toLowerCase type = "install" -> type <> "install" ->
         exists transcript,
           snd (PrepareNetfilterJob.execute (set_jobCommand context type))
           = inr {| securityCommands := transcript |}
           /\ forallb (fun steps => in_this_order steps transcript)
                [ [ iptables "-X IN_trusted_access_0";
                    iptables "-D INPUT -j IN_trusted_access_0" ];
                  [ iptables "-X OUT_trusted_access_0";
                    iptables "-D OUTPUT -j OUT_trusted_access_0" ];
                  [ iptables "-X IN_vital_access_0";
                    iptables "-D INPUT -j IN_vital_access_0" ];
                  [ iptables "-X OUT_vital_access_0";
                    iptables "-D OUTPUT -j OUT_vital_access_0" ];
                  [ iptables "-X IN_block_access_0";
                    iptables "-D INPUT -m set --match-set block_net src -j IN_block_access_0" ];
                  [ set_tool "-! destroy block_net";
                    iptables "-D INPUT -m set --match-set block_net src -j IN_block_access_0" ];
                  [ iptables "-X IN_services_access_0";
                    iptables "-D INPUT -j IN_services_access_0" ];
                  [ iptables "-X OUT_services_access_0";
                    iptables "-D OUTPUT -j OUT_services_access_0" ] ] = true).
Proof.
  intros iptables set_tool loaded valid. subst iptables set_tool. cbv beta. split.
  - exists (PrepareNetfilterJob.root_unInstall policy),
      (PrepareNetfilterJob.trusted_unInstall ++ PrepareNetfilterJob.services_unInstall
       ++ PrepareNetfilterJob.block_unInstall ++ PrepareNetfilterJob.vital_unInstall).
    fold (unInstall_backward policy).
    rewrite (@PrepareNetfilterFacts.run_backward joi (set_jobCommand context "uninstall")
               raw policy loaded valid eq_refl).
    split; [apply finish_other; discriminate|].
    split; [apply PrepareSequencing.root_unInstall_on_root|].
    split; [reflexivity|].
    Sequencing.all_ordered; PrepareSequencing.pieces; Sequencing.ordered.
  - intros type Hlower Hexact. exists (unInstall_forward policy).
    rewrite (@PrepareNetfilterFacts.run_forward joi (set_jobCommand context type)
               raw policy loaded valid Hlower).
    split; [now apply finish_other|].
    Sequencing.all_ordered; PrepareSequencing.pieces; Sequencing.ordered.
Qed.

(** The example policy, removed, and asked for with the type "Install". *)
Lemma prepare_uninstall_unlinks_then_tears_down_witness :
  (exists links rest,
     snd (@PrepareNetfilterJob.execute example_joi (example_prepare_context "uninstall"))
     = inr {| securityCommands := links ++ rest |}
     /\ forallb on_root links = true
     /\ existsb on_root rest = false
     /\ in_this_order [ {| type := iptables_4; value := "-D INPUT -j IN_trusted_access_0" |};
                        {| type := iptables_4; value := "-F IN_trusted_access_0" |};
                        {| type := iptables_4; value := "-X IN_trusted_access_0" |};
                        {| type := ipset; value := "-! destroy trusted_net" |} ]
          (links ++ rest) = true)
  /\ (exists transcript,
        snd (@PrepareNetfilterJob.execute example_joi (example_prepare_context "Install"))
        = inr {| securityCommands := transcript |}
        /\ in_this_order [ {| type := iptables_4; value := "-X IN_trusted_access_0" |};
                           {| type := iptables_4; value := "-D INPUT -j IN_trusted_access_0" |} ]
             transcript = true).
Proof.
  destruct (@prepare_uninstall_unlinks_then_tears_down example_joi
              (example_prepare_context "install") example_prepare_policy
              example_prepare_validated eq_refl eq_refl) as (removal & mixed).
  split.
  - destruct removal as (links & rest & Hrun & Hlinks & Hrest & Horder).
    exists links, rest. cbn [forallb] in Horder.
    apply andb_true_iff in Horder. destruct Horder as (Htrusted & _).
    repeat split; assumption.
  - destruct (mixed "Install" eq_refl) as (transcript & Hrun & Horder);
      [discriminate|].
    exists transcript. cbn [forallb] in Horder.
    apply andb_true_iff in Horder. destruct Horder as (Htrusted & _).
    split; assumption.
Defined.

(** X14. The install transcripts of the three other jobs build on what
    prepare-netfilter installed. A service job creates its two chains and,
    after that, enters each from the chain of the services of
    prepare-netfilter, by a rule inserted in [IN_services_access_0] or
    [OUT_services_access_0]. When the name of the chain has no space, every
    command of the transcript operates on (appends to or inserts in) a chain
    of netfilter itself, a chain of [prepared] or a chain the transcript
    created earlier. Every command of the transcript of the synchronisation of
    the blacklist adds to the set [block_net] of [prepared], and where nothing
    is prepared a transcript that is not empty operates on a set that does
    not exist. What the rules of a service match on or jump to is the policy's
    text and is not part of the property. *)
Theorem service_jobs_build_on_prepare_netfilter (joi : JoiLibrary) (db : DataSource) :
  let iptables (text : string) := {| type := iptables_4; value := text |} in
  (forall (context : ExecutionContext GenericServiceJob.Policy) raw policy entry,
      jobConfiguration context = Unvalidated raw ->
      GenericServiceJob.schema raw = inr policy ->
      configurationJob context = Some entry ->
      let chain := or_text (chainName entry) "genericServiceName" in
      exists transcript,
        snd (GenericServiceJob.execute (set_jobCommand context "install"))
        = inr {| securityCommands := transcript |}
        /\ in_this_order [ iptables ("-N IN_" ++ chain)%string;
                           iptables ("-I IN_services_access_0 1 -j IN_" ++ chain)%string ]
             transcript = true
        /\ in_this_order [ iptables ("-N OUT_" ++ chain)%string;
                           iptables ("-I OUT_services_access_0 1 -j OUT_" ++ chain)%string ]
             transcript = true
        /\ (no_space chain = true -> created_before_use prepared transcript = true))
  /\ (forall (context : ExecutionContext DockerDnsServiceJob.Policy) raw policy,
      jobConfiguration context = Unvalidated raw ->
      DockerDnsServiceJob.schema raw = inr policy ->
      let chain := or_string (DockerDnsServiceJob.policy_chainName policy)
                     "dockerDnsService" in
      exists transcript,
        snd (DockerDnsServiceJob.execute (set_jobCommand context "install"))
        = inr {| securityCommands := transcript |}
        /\ in_this_order [ iptables ("-N IN_dns_" ++ chain)%string;
                           iptables ("-I IN_services_access_0 1 -j IN_dns_" ++ chain)%string ]
             transcript = true
        /\ in_this_order [ iptables ("-N OUT_dns_" ++ chain)%string;
                           iptables ("-I OUT_services_access_0 1 -j OUT_dns_" ++ chain)%string ]
             transcript = true
        /\ (no_space chain = true -> created_before_use prepared transcript = true))
  /\ (forall (context : ExecutionContext SynchronizeBlacklistIps.Policy) raw policy result,
      jobConfiguration context = Unvalidated raw ->
      SynchronizeBlacklistIps.schema raw = inr policy ->
      query_blacklist_networks (SynchronizeBlacklistIps.database_connectionString policy)
      = inr result ->
      exists transcript,
        snd (SynchronizeBlacklistIps.execute (set_jobCommand context "install"))
        = inr {| securityCommands := transcript |}
        /\ created_before_use prepared transcript = true
        /\ (result <> [] -> created_before_use [] transcript = false)).
Proof.
  intros iptables. subst iptables. cbv beta. split; [|split].
  - intros context raw policy entry loaded valid Hentry chain.
    exists (GenericServiceJob.rules_install chain policy). split.
    + rewrite (@GenericServiceFacts.generic_run joi (set_jobCommand context "install")
                 raw loaded policy entry valid Hentry (or_introl eq_refl)).
      now apply finish_install.
    + unfold GenericServiceJob.rules_install.
      split; [Sequencing.all_ordered; Sequencing.ordered|].
      split; [Sequencing.all_ordered; Sequencing.ordered|].
      intros Hchain. now apply ServiceSequencing.generic_install_sequenced.
  - intros context raw policy loaded valid chain.
    exists (DockerDnsServiceJob.rules_install chain policy). split.
    + rewrite (@DockerDnsServiceFacts.dns_run joi (set_jobCommand context "install")
                 raw loaded policy valid (or_introl eq_refl)).
      now apply finish_install.
    + unfold DockerDnsServiceJob.rules_install.
      split; [Sequencing.all_ordered; Sequencing.ordered|].
      split; [Sequencing.all_ordered; Sequencing.ordered|].
      intros Hchain. now apply ServiceSequencing.dns_install_sequenced.
  - intros context raw policy result loaded valid Hq.
    exists (map SynchronizeBlacklistIps.block_add result). split.
    + rewrite (@SynchronizeBlacklistFacts.blacklist_run joi db
                 (set_jobCommand context "install") raw loaded policy result valid Hq
                 (or_introl eq_refl)).
      now apply finish_install.
    + split; [apply ServiceSequencing.blacklist_install_sequenced|].
      apply ServiceSequencing.blacklist_install_needs_the_set.
Qed.

(** The example policies of the three jobs. *)
Lemma service_jobs_build_on_prepare_netfilter_witness :
  (exists transcript,
     snd (@GenericServiceJob.execute example_joi
            (example_service_context "install" example_service_policy))
     = inr {| securityCommands := transcript |}
     /\ created_before_use prepared transcript = true)
  /\ (exists transcript,
        snd (@DockerDnsServiceJob.execute example_joi (example_dns_context "install"))
        = inr {| securityCommands := transcript |}
        /\ created_before_use prepared transcript = true)
  /\ (exists transcript,
        snd (@SynchronizeBlacklistIps.execute example_joi example_data_source
               (example_blacklist_context "install"))
        = inr {| securityCommands := transcript |}
        /\ created_before_use prepared transcript = true
        /\ created_before_use [] transcript = false).
Proof.
  destruct (service_jobs_build_on_prepare_netfilter example_joi example_data_source)
    as (generic & dns & blacklist).
  split; [|split].
  - destruct (generic (example_service_context "install" example_service_policy)
                example_service_policy _ (example_entry "generic-service")
                eq_refl eq_refl eq_refl) as (transcript & Hrun & _ & _ & Hcreated).
    exists transcript. split; [exact Hrun|]. apply Hcreated. reflexivity.
  - destruct (dns (example_dns_context "install") example_dns_policy _
                eq_refl eq_refl) as (transcript & Hrun & _ & _ & Hcreated).
    exists transcript. split; [exact Hrun|]. apply Hcreated. reflexivity.
  - destruct (blacklist (example_blacklist_context "install") example_blacklist_policy _ _
                eq_refl eq_refl eq_refl) as (transcript & Hrun & Hcreated & Hneeds).
    exists transcript. split; [exact Hrun|]. split; [exact Hcreated|].
    apply Hneeds. discriminate.
Defined.

(** X15. The uninstall transcripts of the two service jobs, for every valid
    policy and every name of chain: for each of the two chains of the service,
    the rule of [IN_services_access_0] or [OUT_services_access_0] that jumps
    to the chain is deleted, then the chain is flushed, then it is
    destroyed. *)
Theorem service_jobs_unlink_then_tear_down (joi : JoiLibrary) :
  let iptables (text : string) := {| type := iptables_4; value := text |} in
  (forall (context : ExecutionContext GenericServiceJob.Policy) raw policy entry,
      jobConfiguration context = Unvalidated raw ->
      GenericServiceJob.schema raw = inr policy ->
      configurationJob context = Some entry ->
      let chain := or_text (chainName entry) "genericServiceName" in
      exists transcript,
        snd (GenericServiceJob.execute (set_jobCommand context "uninstall"))
        = inr {| securityCommands := transcript |}
        /\ in_this_order [ iptables ("-D IN_services_access_0 -j IN_" ++ chain)%string;
                           iptables ("-F IN_" ++ chain)%string;
                           iptables ("-X IN_" ++ chain)%string ] transcript = true
        /\ in_this_order [ iptables ("-D OUT_services_access_0 -j OUT_" ++ chain)%string;
                           iptables ("-F OUT_" ++ chain)%string;
                           iptables ("-X OUT_" ++ chain)%string ] transcript = true)
  /\ (forall (context : ExecutionContext DockerDnsServiceJob.Policy) raw policy,
      jobConfiguration context = Unvalidated raw ->
      DockerDnsServiceJob.schema raw = inr policy ->
      let chain := or_string (DockerDnsServiceJob.policy_chainName policy)
                     "dockerDnsService" in
      exists transcript,
        snd (DockerDnsServiceJob.execute (set_jobCommand context "uninstall"))
        = inr {| securityCommands := transcript |}
        /\ in_this_order [ iptables ("-D IN_services_access_0 -j IN_dns_" ++ chain)%string;
                           iptables ("-F IN_dns_" ++ chain)%string;
                           iptables ("-X IN_dns_" ++ chain)%string ] transcript = true
        /\ in_this_order [ iptables ("-D OUT_services_access_0 -j OUT_dns_" ++ chain)%string;
                           iptables ("-F OUT_dns_" ++ chain)%string;
                           iptables ("-X OUT_dns_" ++ chain)%string ] transcript = true).
Proof.
  intros iptables. subst iptables. cbv beta. split.
  - intros context raw policy entry loaded valid Hentry chain.
    exists (GenericServiceJob.rules_unInstall chain). split.
    + rewrite (@GenericServiceFacts.generic_run joi (set_jobCommand context "uninstall")
                 raw loaded policy entry valid Hentry (or_intror eq_refl)).
      apply finish_other. discriminate.
    + unfold GenericServiceJob.rules_unInstall.
      split; Sequencing.all_ordered; Sequencing.ordered.
  - intros context raw policy loaded valid chain.
    exists (DockerDnsServiceJob.rules_unInstall chain policy). split.
    + rewrite (@DockerDnsServiceFacts.dns_run joi (set_jobCommand context "uninstall")
                 raw loaded policy valid (or_intror eq_refl)).
      apply finish_other. discriminate.
    + unfold DockerDnsServiceJob.rules_unInstall.
      split; Sequencing.all_ordered; Sequencing.ordered.
Qed.

(** The example policies of the two jobs. *)
Lemma service_jobs_unlink_then_tear_down_witness :
  (exists transcript,
     snd (@GenericServiceJob.execute example_joi
            (example_service_context "uninstall" example_service_policy))
     = inr {| securityCommands := transcript |}
     /\ in_this_order
          [ {| type := iptables_4;
               value := "-D IN_services_access_0 -j IN_genericServiceName" |};
            {| type := iptables_4; value := "-F IN_genericServiceName" |};
            {| type := iptables_4; value := "-X IN_genericServiceName" |} ] transcript = true)
  /\ (exists transcript,
        snd (@DockerDnsServiceJob.execute example_joi (example_dns_context "uninstall"))
        = inr {| securityCommands := transcript |}
        /\ in_this_order
             [ {| type := iptables_4;
                  value := "-D IN_services_access_0 -j IN_dns_resolver" |};
               {| type := iptables_4; value := "-F IN_dns_resolver" |};
               {| type := iptables_4; value := "-X IN_dns_resolver" |} ]
             transcript = true).
Proof.
  destruct (service_jobs_unlink_then_tear_down example_joi) as (generic & dns).
  split.
  - destruct (generic (example_service_context "install" example_service_policy)
                example_service_policy _ (example_entry "generic-service")
                eq_refl eq_refl eq_refl) as (transcript & Hrun & Hin & _).
    exists transcript. split; [exact Hrun|exact Hin].
  - destruct (dns (example_dns_context "install") example_dns_policy _
                eq_refl eq_refl) as (transcript & Hrun & Hin & _).
    exists transcript. split; [exact Hrun|exact Hin].
Defined.

(* ------------------------------------------------------------------------- *)
(** ** Rejections after the validation, and what the schemas let through *)

Module AfterValidation.

(** The generic service job on a context without the entry of the job: the
    policy is validated, then the generation throws. *)
Lemma generic_run_without_entry_context (joi : JoiLibrary)
  (context : ExecutionContext GenericServiceJob.Policy) (raw : JSON)
  (policy : GenericServiceJob.Policy) :
  jobConfiguration context = Unvalidated raw ->
  GenericServiceJob.schema raw = inr policy ->
  configurationJob context = None ->
  valid_direction (jobCommand_type context) ->
  GenericServiceJob.execute context
  = (set_validated (reset_commands context) raw policy,
     inl (TypeError "Cannot read property 'chainName' of undefined")).
Proof.
  intros loaded valid Hentry Hd.
  unfold GenericServiceJob.execute, reset_commands, set_commands.
  cbn [jobCommand_type]. rewrite (valid_direction_existsb Hd).
  cbn [negb run_steps].
  unfold GenericServiceJob._validateConfiguration, validate_with.
  cbn [jobConfiguration]. rewrite loaded, valid.
  unfold GenericServiceJob._generateRules, generate_with,
    GenericServiceJob.service_chainName, set_validated.
  cbn [jobConfiguration configurationJob]. rewrite Hentry.
  reflexivity.
Qed.

(** sync-blacklist-ips when the data source fails: the policy is validated,
    then the step that fetches the networks rejects. *)
Lemma blacklist_run_data_source_error_context (joi : JoiLibrary) (db : DataSource)
  (context : ExecutionContext SynchronizeBlacklistIps.Policy) (raw : JSON)
  (policy : SynchronizeBlacklistIps.Policy) (message : string) :
  jobConfiguration context = Unvalidated raw ->
  SynchronizeBlacklistIps.schema raw = inr policy ->
  query_blacklist_networks (SynchronizeBlacklistIps.database_connectionString policy)
  = inl message ->
  valid_direction (jobCommand_type context) ->
  SynchronizeBlacklistIps.execute context
  = (set_validated (reset_commands context) raw policy, inl (DataSourceError message)).
Proof.
  intros loaded valid Hq Hd.
  unfold SynchronizeBlacklistIps.execute, reset_commands, set_commands.
  cbn [jobCommand_type].
  destruct Hd as [Hd|Hd]; rewrite Hd; cbn [String.eqb Ascii.eqb Bool.eqb app run_steps];
    unfold SynchronizeBlacklistIps.validateConfiguration, validate_with;
    cbn [jobConfiguration]; rewrite loaded, valid;
    unfold SynchronizeBlacklistIps.fetchNetworks, set_validated; cbn [jobConfiguration];
    rewrite Hq; reflexivity.
Qed.

(** The destination address of a validated mapping of the docker DNS job. *)
Lemma dns_item_destination (joi : JoiLibrary) (fields : list (string * JSON))
  (item : DockerDnsServiceJob.Item) :
  DockerDnsServiceJob.item_schema (JObj fields) = inr item ->
  (property "destinationIpAddress" fields = Some JNull ->
   DockerDnsServiceJob.destinationIpAddress item = Null)
  /\ (property "destinationIpAddress" fields = None ->
      DockerDnsServiceJob.destinationIpAddress item = Undefined).
Proof.
  unfold DockerDnsServiceJob.item_schema. cbn [Joi_object joi_bind].
  destruct (default Joi_number 53%Z (property "sourcePortNumber" fields)); [discriminate|].
  destruct (required Joi_string (property "sourceLinkName" fields)); [discriminate|].
  destruct (required (Joi_string_ip cidr_forbidden) (property "sourceIpAddress" fields));
    [discriminate|].
  destruct (required Joi_number (property "destinationPortNumber" fields)); [discriminate|].
  cbn [joi_bind].
  destruct (property "destinationIpAddress" fields) as [[| | | | |]|];
    cbn [optional_allow_null joi_bind];
    try (destruct (Joi_string_ip cidr_forbidden _); [discriminate|]; cbn [joi_bind]);
    intros H; inversion H; split; intros Hd; try discriminate Hd; reflexivity.
Qed.

(** An array validated with required items is not empty. *)
Lemma Joi_items_required_not_empty {A} (schema : JSON -> JoiResult A)
  (elements : list JSON) (validated : list A) :
  Joi_items_required schema elements = inr validated ->
  validated <> [] /\ Forall2 (fun e a => schema e = inr a) elements validated.
Proof.
  unfold Joi_items_required. destruct elements as [|e r]; [discriminate|].
  intros H. split; [|now apply Joi_items_pointwise].
  revert H. cbn [Joi_items]. unfold joi_bind.
  destruct (schema e); [discriminate|].
  destruct (Joi_items schema r); [discriminate|].
  intros H. inversion H. discriminate.
Qed.

Lemma primary_interface_has_networks (joi : JoiLibrary) (v : JSON)
  (i : PrepareNetfilterJob.PrimaryInterface) :
  PrepareNetfilterJob.primary_interface_schema v = inr i ->
  PrepareNetfilterJob.networks i <> [].
Proof.
  unfold PrepareNetfilterJob.primary_interface_schema, joi_bind.
  destruct (Joi_object v) as [|fields]; [discriminate|].
  destruct (required Joi_string (property "name" fields)); [discriminate|].
  destruct (property "networks" fields) as [a|]; cbn [required]; [|discriminate].
  destruct (Joi_array a) as [|l]; [discriminate|].
  destruct (Joi_items_required PrepareNetfilterJob.network_item_schema l) as [|nets] eqn:E;
    [discriminate|].
  destruct (required PrepareNetfilterJob.rules_schema (property "rules" fields));
    [discriminate|].
  intros H. inversion H. cbn. apply (Joi_items_required_not_empty _ _ E).
Qed.

Lemma prepare_policy_interfaces (joi : JoiLibrary) (raw : JSON)
  (policy : PrepareNetfilterJob.Policy) :
  PrepareNetfilterJob.schema raw = inr policy ->
  PrepareNetfilterJob.primaryInterfaces (PrepareNetfilterJob.network policy) <> []
  /\ Forall (fun i => PrepareNetfilterJob.networks i <> [])
       (PrepareNetfilterJob.primaryInterfaces (PrepareNetfilterJob.network policy)).
Proof.
  unfold PrepareNetfilterJob.schema, joi_bind.
  destruct (Joi_object raw) as [|fields]; [discriminate|].
  destruct (property "network" fields) as [n|]; cbn [required]; [|discriminate].
  unfold PrepareNetfilterJob.network_schema, joi_bind.
  destruct (Joi_object n) as [|network]; [discriminate|].
  destruct (optional _ (property "trustedItems" network)); [discriminate|].
  destruct (property "primaryInterfaces" network) as [a|]; cbn [required]; [|discriminate].
  destruct (Joi_array a) as [|l]; [discriminate|].
  destruct (Joi_items_required PrepareNetfilterJob.primary_interface_schema l)
    as [|interfaces] eqn:E; [discriminate|].
  intros H. inversion H. cbn.
  destruct (Joi_items_required_not_empty _ _ E) as [Hne Hall].
  split; [exact Hne|].
  clear - Hall. induction Hall as [|e i r rest He _ IH]; constructor; [|exact IH].
  now apply (primary_interface_has_networks joi e).
Qed.

End AfterValidation.

(** A job run again on the context its first run left validates the policy it
    finds there and returns what the first run returned. *)
Lemma prepare_netfilter_runs_again :
  let first := @PrepareNetfilterJob.execute example_joi (example_prepare_context "install") in
  snd (@PrepareNetfilterJob.execute example_joi (fst first)) = snd first.
Proof. vm_compute. reflexivity. Qed.

Lemma generic_service_runs_again :
  let first := @GenericServiceJob.execute example_joi
                 (example_service_context "install" example_service_policy) in
  snd (@GenericServiceJob.execute example_joi (fst first)) = snd first.
Proof. vm_compute. reflexivity. Qed.

Lemma docker_dns_runs_again :
  let first := @DockerDnsServiceJob.execute example_joi (example_dns_context "install") in
  snd (@DockerDnsServiceJob.execute example_joi (fst first)) = snd first.
Proof. vm_compute. reflexivity. Qed.

(** The [chainName] of the entry of a job is used when it is truthy, whatever
    its type: the number 5 names the chains [IN_5] and [OUT_5]. *)
Lemma generic_service_chain_named_by_a_number :
  match snd (@GenericServiceJob.execute example_joi
               (context_of "install" None
                  (Some {| name := "web"; chainName := Some (JNum 5) |})
                  example_service_policy)) with
  | inr response => firstn 2 (securityCommands response)
  | inl _ => []
  end
  = [ {| type := iptables_4; value := "-N IN_5" |};
      {| type := iptables_4; value := "-N OUT_5" |} ].
Proof. vm_compute. reflexivity. Qed.

(* ------------------------------------------------------------------------- *)
(** ** Further properties: after the validation *)

(** X16. The generic service job run on a context without the entry of the
    job, [context.configurationJob], with a valid policy and a valid direction,
    rejects with a TypeError, which is neither the error of an invalid policy
    nor that of an invalid direction. The validation step has run by then: the
    context holds the validated policy and the policy as loaded, and no
    command. The docker DNS job, which reads the name of its chain from the
    policy, resolves on such a context. *)
Theorem generic_service_needs_the_entry_of_the_job (joi : JoiLibrary) :
  (forall (context : ExecutionContext GenericServiceJob.Policy) raw policy,
      jobConfiguration context = Unvalidated raw ->
      GenericServiceJob.schema raw = inr policy ->
      configurationJob context = None ->
      valid_direction (jobCommand_type context) ->
      exists message,
        snd (GenericServiceJob.execute context) = inl (TypeError message)
        /\ ~ ValidationError (TypeError message)
        /\ ~ InvalidDirectionError (TypeError message)
        /\ jobConfiguration (fst (GenericServiceJob.execute context)) = Validated policy
        /\ rawJobConfiguration (fst (GenericServiceJob.execute context)) = Some raw
        /\ commands (fst (GenericServiceJob.execute context))
           = {| install := []; unInstall := [] |})
  /\ (forall (context : ExecutionContext DockerDnsServiceJob.Policy) raw policy,
      jobConfiguration context = Unvalidated raw ->
      DockerDnsServiceJob.schema raw = inr policy ->
      configurationJob context = None ->
      valid_direction (jobCommand_type context) ->
      exists response, snd (DockerDnsServiceJob.execute context) = inr response).
Proof.
  split.
  - intros context raw policy loaded valid Hentry Hd.
    exists "Cannot read property 'chainName' of undefined".
    rewrite (AfterValidation.generic_run_without_entry_context joi context
               loaded valid Hentry Hd).
    repeat split.
    + intros [m H]. discriminate H.
    + intros [m H]. discriminate H.
  - intros context raw policy loaded valid _ Hd.
    rewrite (@DockerDnsServiceFacts.dns_run joi context raw loaded policy valid Hd).
    unfold finish. now eexists.
Qed.

(** The example policy of the generic service job, on a context without the
    entry of the job. *)
Lemma generic_service_needs_the_entry_of_the_job_witness :
  exists message,
    snd (@GenericServiceJob.execute example_joi
           (context_of "install" None None example_service_policy))
    = inl (TypeError message).
Proof.
  destruct (proj1 (generic_service_needs_the_entry_of_the_job example_joi)
              (context_of "install" None None example_service_policy)
              example_service_policy _ eq_refl eq_refl eq_refl (or_introl eq_refl))
    as (message & rejected & _).
  now exists message.
Defined.

(** X17. When the data source fails, sync-blacklist-ips rejects with the
    failure of the data source for an installation and for a removal alike,
    although the transcript of a removal never depends on the answer: the
    step that fetches the networks runs in both directions. The policy is
    validated by then and the context holds no command. *)
Theorem blacklist_removal_needs_the_data_source (joi : JoiLibrary) (db : DataSource)
  (context : ExecutionContext SynchronizeBlacklistIps.Policy) (raw : JSON)
  (policy : SynchronizeBlacklistIps.Policy) (message : string) :
  jobConfiguration context = Unvalidated raw ->
  SynchronizeBlacklistIps.schema raw = inr policy ->
  query_blacklist_networks (SynchronizeBlacklistIps.database_connectionString policy)
  = inl message ->
  forall type, valid_direction type ->
    let result := SynchronizeBlacklistIps.execute (set_jobCommand context type) in
    snd result = inl (DataSourceError message)
    /\ jobConfiguration (fst result) = Validated policy
    /\ commands (fst result) = {| install := []; unInstall := [] |}.
Proof.
  intros loaded valid Hq type Hd result. subst result.
  rewrite (@AfterValidation.blacklist_run_data_source_error_context joi db
             (set_jobCommand context type) raw policy message loaded valid Hq Hd).
  repeat split.
Qed.

(** A data source that is down, and a removal. *)
Lemma blacklist_removal_needs_the_data_source_witness :
  snd (@SynchronizeBlacklistIps.execute example_joi
         {| query_blacklist_networks := fun _ => inl "connect ECONNREFUSED"%string |}
         (example_blacklist_context "uninstall"))
  = inl (DataSourceError "connect ECONNREFUSED").
Proof.
  exact (proj1 (@blacklist_removal_needs_the_data_source example_joi
                  {| query_blacklist_networks := fun _ => inl "connect ECONNREFUSED"%string |}
                  (example_blacklist_context "install") example_blacklist_policy _
                  "connect ECONNREFUSED" eq_refl eq_refl eq_refl
                  "uninstall" (or_intror eq_refl))).
Defined.

(** X18. The schema of the docker DNS job lets a mapping through whose
    [destinationIpAddress] is null or left out; the commands of the mapping
    then carry the text "null" or "undefined" where the address goes. *)
Theorem dns_destination_may_be_missing (joi : JoiLibrary)
  (fields : list (string * JSON)) (item : DockerDnsServiceJob.Item) (chain : string) :
  let iptables (text : string) := {| type := iptables_4; value := text |} in
  DockerDnsServiceJob.item_schema (JObj fields) = inr item ->
  let link := DockerDnsServiceJob.sourceLinkName item in
  let sip := DockerDnsServiceJob.sourceIpAddress item in
  let sport := Number_toString (DockerDnsServiceJob.sourcePortNumber item) in
  let dport := Number_toString (DockerDnsServiceJob.destinationPortNumber item) in
  let mapping (dip : string) :=
    [ iptables ("-I PREROUTING 1 -t nat -i " ++ link ++ " -p tcp -d " ++ sip
                          ++ " --dport " ++ sport ++ " -j DNAT --to " ++ dip ++ ":" ++ dport)%string;
      iptables ("-I PREROUTING 1 -t nat -i " ++ link ++ " -p udp -d " ++ sip
                          ++ " --dport " ++ sport ++ " -j DNAT --to " ++ dip ++ ":" ++ dport)%string;
      iptables ("-I FORWARD 1 -p tcp -d " ++ dip ++ " --dport " ++ dport
                          ++ " -j ACCEPT")%string;
      iptables ("-I FORWARD 1 -p udp -d " ++ dip ++ " --dport " ++ dport
                          ++ " -j ACCEPT")%string;
      iptables ("-A IN_dns_" ++ chain ++ " -p tcp -d " ++ sip ++ " --dport "
                          ++ sport ++ " -j ACCEPT")%string;
      iptables ("-A IN_dns_" ++ chain ++ " -p udp -d " ++ sip ++ " --dport "
                          ++ sport ++ " -j ACCEPT")%string ] in
  (property "destinationIpAddress" fields = Some JNull ->
   DockerDnsServiceJob.item_install chain item = mapping "null"%string)
  /\ (property "destinationIpAddress" fields = None ->
      DockerDnsServiceJob.item_install chain item = mapping "undefined"%string).
Proof.
  intros iptables. subst iptables. cbv beta.
  intros valid link sip sport dport mapping.
  destruct (AfterValidation.dns_item_destination joi fields valid) as [Hnull Hmissing].
  split; intros H; unfold DockerDnsServiceJob.item_install; cbv zeta.
  - now rewrite (Hnull H).
  - now rewrite (Hmissing H).
Qed.

(** A mapping with a null destination is valid, and its first acceptance in
    FORWARD reads "-d null". *)
Lemma dns_destination_may_be_missing_witness :
  let iptables (text : string) := {| type := iptables_4; value := text |} in
  exists item,
    @DockerDnsServiceJob.item_schema example_joi
      (JObj [ ("sourceLinkName", JStr "eth0"); ("sourceIpAddress", JStr "192.168.0.2");
              ("destinationPortNumber", JNum 5353); ("destinationIpAddress", JNull) ])
    = inr item
    /\ nth_error (DockerDnsServiceJob.item_install "resolver" item) 2
       = Some (iptables "-I FORWARD 1 -p tcp -d null --dport 5353 -j ACCEPT").
Proof.
  intros iptables. subst iptables. cbv beta.
  eexists. split; [reflexivity|].
  rewrite (proj1 (@dns_destination_may_be_missing example_joi
                    [ ("sourceLinkName", JStr "eth0"); ("sourceIpAddress", JStr "192.168.0.2");
                      ("destinationPortNumber", JNum 5353); ("destinationIpAddress", JNull) ]
                    _ "resolver" eq_refl) eq_refl).
  reflexivity.
Defined.

(** X19. A policy that the schema of prepare-netfilter lets through has one
    primary interface at least, and each of its primary interfaces has one
    network at least; a policy whose list of primary interfaces is empty is
    rejected. *)
Theorem prepare_policy_has_interfaces_and_networks (joi : JoiLibrary) :
  (forall raw policy,
      PrepareNetfilterJob.schema raw = inr policy ->
      PrepareNetfilterJob.primaryInterfaces (PrepareNetfilterJob.network policy) <> []
      /\ Forall (fun i => PrepareNetfilterJob.networks i <> [])
           (PrepareNetfilterJob.primaryInterfaces (PrepareNetfilterJob.network policy)))
  /\ (forall root network,
         property "network" root = Some (JObj network) ->
         property "primaryInterfaces" network = Some (JArr []) ->
         exists message, PrepareNetfilterJob.schema (JObj root) = inl message).
Proof.
  split.
  - intros raw policy. apply AfterValidation.prepare_policy_interfaces.
  - intros root network Hnetwork Hinterfaces.
    destruct (PrepareNetfilterJob.schema (JObj root)) as [message|policy] eqn:E;
      [now exists message|].
    destruct (AfterValidation.prepare_policy_interfaces joi _ E) as [Hne _].
    exfalso. revert E. unfold PrepareNetfilterJob.schema. cbn [Joi_object joi_bind].
    rewrite Hnetwork. cbn [required]. unfold PrepareNetfilterJob.network_schema.
    cbn [Joi_object joi_bind].
    destruct (optional _ (property "trustedItems" network)); [discriminate|].
    cbn [joi_bind]. rewrite Hinterfaces. cbn. discriminate.
Qed.

(** The example policy, and the same without its interfaces. *)
Lemma prepare_policy_has_interfaces_and_networks_witness :
  PrepareNetfilterJob.primaryInterfaces (PrepareNetfilterJob.network example_prepare_validated)
  <> []
  /\ exists message,
       @PrepareNetfilterJob.schema example_joi
         (JObj [ ("network", JObj [ ("primaryInterfaces", JArr []) ]) ]) = inl message.
Proof.
  destruct (prepare_policy_has_interfaces_and_networks example_joi) as (kept & rejected).
  split.
  - exact (proj1 (kept example_prepare_policy example_prepare_validated eq_refl)).
  - exact (rejected [ ("network", JObj [ ("primaryInterfaces", JArr []) ]) ]
             [ ("primaryInterfaces", JArr []) ] eq_refl eq_refl).
Defined.

(* ------------------------------------------------------------------------- *)
(** ** The converter of country networks: the lines of its input *)

Module CountryNetworksInputFacts.
Import CountryNetworksInput.
Local Open Scope string_scope.

Lemma replace_CR_first (a rest : string) :
  no_carriage_return a = true -> replace_CR (a ++ CR ++ rest) = a ++ rest.
Proof.
  induction a as [|c a IH]; intros H; [reflexivity|].
  cbn [no_carriage_return] in H. apply andb_true_iff in H. destruct H as [Hcr Ha].
  apply negb_true_iff in Hcr.
  change (String c a ++ CR ++ rest) with (String c (a ++ CR ++ rest)).
  cbn [replace_CR]. rewrite Hcr, (IH Ha). reflexivity.
Qed.

Lemma replace_CR_none (a : string) : no_carriage_return a = true -> replace_CR a = a.
Proof.
  induction a as [|c a IH]; intros H; [reflexivity|].
  cbn [no_carriage_return] in H. apply andb_true_iff in H. destruct H as [Hcr Ha].
  apply negb_true_iff in Hcr.
  cbn [replace_CR]. now rewrite Hcr, (IH Ha).
Qed.

Lemma no_carriage_return_app (a b : string) :
  no_carriage_return a = true -> no_carriage_return b = true ->
  no_carriage_return (a ++ b) = true.
Proof.
  induction a as [|c a IH]; intros Ha Hb; [exact Hb|].
  cbn [no_carriage_return] in Ha. apply andb_true_iff in Ha. destruct Ha as [Hc Ha].
  cbn [append no_carriage_return]. now rewrite Hc, (IH Ha Hb).
Qed.

Lemma no_carriage_return_file (l : list string) :
  Forall (fun line => no_carriage_return line = true) l ->
  no_carriage_return (file_of LF l) = true.
Proof.
  induction 1 as [|line r Hline _ IH]; [reflexivity|].
  cbn [file_of fold_right]. fold (file_of LF r).
  apply no_carriage_return_app; [exact Hline|exact IH].
Qed.

Lemma split_from_piece (current : string -> string) (a rest : string) :
  no_line_feed a = true ->
  split_from current (a ++ LF ++ rest) = current a :: split_LF rest.
Proof.
  revert current. induction a as [|c a IH]; intros current H; [reflexivity|].
  cbn [no_line_feed] in H. apply andb_true_iff in H. destruct H as [Hc Ha].
  apply negb_true_iff in Hc.
  change (String c a ++ LF ++ rest) with (String c (a ++ LF ++ rest)).
  cbn [split_from]. rewrite Hc. now rewrite (IH _ Ha).
Qed.

Lemma no_line_feed_app (a b : string) :
  no_line_feed a = true -> no_line_feed b = true -> no_line_feed (a ++ b) = true.
Proof.
  induction a as [|c a IH]; intros Ha Hb; [exact Hb|].
  cbn [no_line_feed] in Ha. apply andb_true_iff in Ha. destruct Ha as [Hc Ha].
  cbn [append no_line_feed]. now rewrite Hc, (IH Ha Hb).
Qed.

Lemma string_app_assoc (a b c : string) : (a ++ b) ++ c = a ++ b ++ c.
Proof. induction a as [|x a IH]; [reflexivity|]. cbn [append]. now rewrite IH. Qed.

Lemma string_app_empty (a : string) : a ++ EmptyString = a.
Proof. induction a as [|x a IH]; [reflexivity|]. cbn [append]. now rewrite IH. Qed.

(** The pieces of a file whose lines end with [ending ++ LF]. *)
Lemma split_LF_file (ending : string) (l : list string) :
  no_line_feed ending = true ->
  Forall (fun line => no_line_feed line = true) l ->
  split_LF (file_of (ending ++ LF) l)
  = (map (fun line => (line ++ ending)%string) l ++ [ EmptyString ])%list.
Proof.
  intros Hending. induction 1 as [|line r Hline _ IH]; [reflexivity|].
  cbn [file_of fold_right map app]. fold (file_of (ending ++ LF) r).
  rewrite string_app_assoc, <- (string_app_assoc line ending). unfold split_LF at 1.
  rewrite split_from_piece by (now apply no_line_feed_app).
  now rewrite IH.
Qed.

(** A line followed by a carriage return is kept unless it starts with #,
    even when it is empty. *)
Lemma kept_line_CR (line : string) :
  kept_line (line ++ CR) = negb (starts_with "#" line).
Proof.
  destruct line as [|c r]; [reflexivity|].
  unfold kept_line, starts_with. cbn [append strip_prefix String.length].
  destruct (Ascii.eqb "#" c); reflexivity.
Qed.

Lemma kept_lines_CR (l : list string) :
  filter kept_line (map (fun line => line ++ CR) l)
  = map (fun line => line ++ CR) (filter (fun line => negb (starts_with "#" line)) l).
Proof.
  induction l as [|line r IH]; [reflexivity|].
  cbn [map filter]. rewrite kept_line_CR, IH.
  now destruct (negb (starts_with "#" line)).
Qed.

Lemma lines_LF_file (l : list string) :
  Forall (fun line => no_carriage_return line = true) l ->
  Forall (fun line => no_line_feed line = true) l ->
  lines (file_of LF l) = filter kept_line l.
Proof.
  intros Hcr Hlf. unfold lines. fold kept_line.
  rewrite replace_CR_none by (now apply no_carriage_return_file).
  change LF with (EmptyString ++ LF).
  rewrite (@split_LF_file EmptyString l eq_refl Hlf).
  rewrite filter_app. cbn [filter kept_line starts_with strip_prefix String.length].
  cbn. rewrite app_nil_r. f_equal.
  clear. induction l as [|line r IH]; [reflexivity|].
  cbn [map]. now rewrite string_app_empty, IH.
Qed.

Lemma lines_CRLF_file (first : string) (rest : list string) :
  no_carriage_return first = true -> no_line_feed first = true ->
  Forall (fun line => no_line_feed line = true) rest ->
  lines (file_of (CR ++ LF) (first :: rest))
  = (filter kept_line [ first ]
     ++ map (fun line => (line ++ CR)%string)
          (filter (fun line => negb (starts_with "#" line)) rest))%list.
Proof.
  intros Hcr Hlf Hrest. unfold lines. fold kept_line.
  cbn [file_of fold_right]. fold (file_of (CR ++ LF) rest).
  rewrite string_app_assoc.
  rewrite (replace_CR_first first (LF ++ file_of (CR ++ LF) rest) Hcr).
  unfold split_LF at 1. rewrite split_from_piece by exact Hlf.
  rewrite (@split_LF_file CR rest eq_refl Hrest).
  change (first :: (map (fun line => (line ++ CR)%string) rest ++ [ EmptyString ])%list)
    with ([ first ] ++ map (fun line => (line ++ CR)%string) rest ++ [ EmptyString ])%list.
  rewrite !filter_app, kept_lines_CR.
  replace (filter kept_line [ EmptyString ]) with (@nil string) by reflexivity.
  now rewrite app_nil_r.
Qed.

End CountryNetworksInputFacts.

(* ------------------------------------------------------------------------- *)
(** ** Further properties: the input of the converter *)

(** X20. The lines the converter of country networks works on. Of a file
    whose lines end with a line feed, they are the lines that are not empty
    and do not start with #. Of a file whose lines end with a carriage return
    and a line feed, only the first line loses its carriage return: every
    later line that does not start with # is kept with its carriage return,
    the empty ones too. *)
Theorem convert_keeps_later_carriage_returns (first : string) (rest : list string) :
  no_carriage_return first = true -> no_line_feed first = true ->
  Forall (fun line => no_line_feed line = true) rest ->
  (Forall (fun line => no_carriage_return line = true) rest ->
   CountryNetworksInput.lines (file_of CountryNetworksInput.LF (first :: rest))
   = filter kept_line (first :: rest))
  /\ CountryNetworksInput.lines
       (file_of (CountryNetworksInput.CR ++ CountryNetworksInput.LF) (first :: rest))
     = filter kept_line [ first ]
       ++ map (fun line => (line ++ CountryNetworksInput.CR)%string)
            (filter (fun line => negb (starts_with "#" line)) rest).
Proof.
  intros Hcr Hlf Hrest. split.
  - intros Hrest_cr. apply CountryNetworksInputFacts.lines_LF_file; now constructor.
  - now apply CountryNetworksInputFacts.lines_CRLF_file.
Qed.

(** A file of two ranges with an empty line between them, with the two kinds
    of line ends. *)
Lemma convert_keeps_later_carriage_returns_witness :
  CountryNetworksInput.lines
    (file_of CountryNetworksInput.LF [ "# ranges"; "1,2"; ""; "3,4" ]%string)
  = [ "1,2"; "3,4" ]%string
  /\ CountryNetworksInput.lines
       (file_of (CountryNetworksInput.CR ++ CountryNetworksInput.LF)
          [ "# ranges"; "1,2"; ""; "3,4" ]%string)
     = map (fun line => (line ++ CountryNetworksInput.CR)%string) [ "1,2"; ""; "3,4" ]%string.
Proof.
  destruct (@convert_keeps_later_carriage_returns "# ranges" [ "1,2"; ""; "3,4" ]%string
              eq_refl eq_refl) as (unix & dos).
  - repeat constructor.
  - split.
    + apply unix. repeat constructor.
    + exact dos.
Defined.
